(** * The nRF5x peripheral timer driver (cpu/nrf5x_common/periph/timer.c)

    A shallow embedding of the driver: the per-instance context array [ctx],
    the memory-mapped TIMER peripherals reached through [timer_config], the
    seven functions of the periph/timer interface and the interrupt handler.

    C integers are [Z] with the wrap-around of their width written out; the
    behaviour the C standard leaves undefined (an index outside an array, a
    shift count outside the width of the shifted type, a call through a
    null function pointer) is an explicit [Undef] outcome, distinct from
    every value the functions return. *)

From Stdlib Require Import ZArith Lia List Bool.
From stdpp Require Import base option list gmap.

Local Open Scope Z_scope.

(** ** Data model *)

(** [tim_ctx_t] of the source: callback, its argument, and the two bitsets
    ([uint8_t]) of armed and of periodic channels. A function pointer and a
    [void *] are kept as the machine words they are. *)
Record tim_ctx_t := mk_ctx {
  cb : Z;
  arg : Z;
  flags : Z;
  is_periodic : Z
}.

(** One line of the board's [timer_config] table ([timer_conf_t]); the
    table itself is supplied by the board and is a parameter below. The
    [dev] member is called [conf_dev] here, [dev] being the accessor
    function of the source. *)
Record timer_conf_t := mk_conf {
  conf_dev : Z;
  channels : Z;
  bitmode : Z;
  irqn : Z
}.

(** Registers of [NRF_TIMER_Type] the driver touches. *)
Inductive reg :=
| POWER | TASKS_START | TASKS_STOP | TASKS_CLEAR | TASKS_SHUTDOWN
| TASKS_CAPTURE (i : Z)
| EVENTS_COMPARE (i : Z)
| SHORTS | INTENSET | INTENCLR | MODE | BITMODE | PRESCALER
| CC (i : Z).

(** What a TIMER peripheral holds behind those registers. Task registers
    are write-only triggers; INTENSET and INTENCLR are the set and clear
    views of one interrupt-enable mask. *)
Record NRF_TIMER_Type := mk_timer {
  hw_running : bool;
  hw_counter : Z;
  hw_power : Z;
  hw_shorts : Z;
  hw_inten : Z;
  hw_mode : Z;
  hw_bitmode : Z;
  hw_prescaler : Z;
  hw_cc : Z -> Z;
  hw_events : Z -> Z
}.

(** Everything a call can be observed to do, in program order. *)
Inductive event :=
| MmioWrite (base : Z) (r : reg) (v : Z)
| MmioRead (base : Z) (r : reg)
| NvicEnable (n : Z)
| Callback (f a : Z) (chan : Z)
| IsrEnd.

(** The mutable machine: the static array [ctx], the peripherals by base
    address, and the interrupt lines enabled in the NVIC. *)
Record machine := mk_machine {
  ctx : list tim_ctx_t;
  periph : gmap Z NRF_TIMER_Type;
  nvic : list Z
}.

Record world := mk_world {
  mach : machine;
  trace : list event
}.

Inductive ub := OutOfBounds | ShiftRange | BusFault | NullCall.

Inductive outcome (A : Type) :=
| Ret (a : A) (w : world)
| Undef (u : ub).
Arguments Ret {A} a w.
Arguments Undef {A} u.

Definition M (A : Type) : Type := world -> outcome A.

Definition ret {A} (a : A) : M A := fun w => Ret a w.

Definition bind {A B} (m : M A) (k : A -> M B) : M B :=
  fun w => match m w with
           | Ret a w' => k a w'
           | Undef u => Undef u
           end.

Definition undef {A} (u : ub) : M A := fun _ => Undef u.

Declare Scope drv_scope.
Delimit Scope drv_scope with drv.
Notation "x <- m ; k" := (bind m (fun x => k))
  (at level 20, m at level 100, k at level 200, only parsing) : drv_scope.
Notation "m ;; k" := (bind m (fun _ => k))
  (at level 100, k at level 200, only parsing, right associativity) : drv_scope.

(** The constants and the table the driver takes from headers of the CPU
    and of the board. *)
Record platform := mk_platform {
  CPU_FAM_NRF51 : bool;
  TIMER_MODE_MODE_Timer : Z;
  TIMER_INTENSET_COMPARE0_Msk : Z;
  TIM_FLAG_RESET_ON_SET : Z;
  TIM_FLAG_RESET_ON_MATCH : Z;
  TIM_FLAG_SET_STOPPED : Z;
  CC_NUM : Z;
  timer_config : list timer_conf_t
}.

Definition F_TIMER : Z := 16000000.

(** ** Field updates *)

Definition set_cb_arg (x : tim_ctx_t) (f a : Z) : tim_ctx_t :=
  mk_ctx f a (flags x) (is_periodic x).
Definition set_flags (x : tim_ctx_t) (v : Z) : tim_ctx_t :=
  mk_ctx (cb x) (arg x) v (is_periodic x).
Definition set_is_periodic (x : tim_ctx_t) (v : Z) : tim_ctx_t :=
  mk_ctx (cb x) (arg x) (flags x) v.

Definition upd (f : Z -> Z) (i v : Z) : Z -> Z :=
  fun j => if j =? i then v else f j.

(** ** The peripheral's reaction to a register access *)

Section Hardware.
Variable P : platform.

Definition in_cc (i : Z) : bool := (0 <=? i) && (i <? CC_NUM P).

Definition hw_write (r : reg) (v : Z) (d : NRF_TIMER_Type) : option NRF_TIMER_Type :=
  let '(mk_timer run cnt pw sh ie md bm ps cc ev) := d in
  match r with
  | POWER => Some (mk_timer run cnt v sh ie md bm ps cc ev)
  | TASKS_START => Some (mk_timer (if v =? 0 then run else true) cnt pw sh ie md bm ps cc ev)
  | TASKS_STOP => Some (mk_timer (if v =? 0 then run else false) cnt pw sh ie md bm ps cc ev)
  | TASKS_SHUTDOWN => Some (mk_timer (if v =? 0 then run else false) cnt pw sh ie md bm ps cc ev)
  | TASKS_CLEAR => Some (mk_timer run (if v =? 0 then cnt else 0) pw sh ie md bm ps cc ev)
  | TASKS_CAPTURE i =>
      if in_cc i
      then Some (mk_timer run cnt pw sh ie md bm ps (if v =? 0 then cc else upd cc i cnt) ev)
      else None
  | EVENTS_COMPARE i =>
      if in_cc i then Some (mk_timer run cnt pw sh ie md bm ps cc (upd ev i v)) else None
  | SHORTS => Some (mk_timer run cnt pw v ie md bm ps cc ev)
  | INTENSET => Some (mk_timer run cnt pw sh (Z.lor ie v) md bm ps cc ev)
  | INTENCLR => Some (mk_timer run cnt pw sh (Z.land ie (Z.lnot v)) md bm ps cc ev)
  | MODE => Some (mk_timer run cnt pw sh ie v bm ps cc ev)
  | BITMODE => Some (mk_timer run cnt pw sh ie md v ps cc ev)
  | PRESCALER => Some (mk_timer run cnt pw sh ie md bm v cc ev)
  | CC i =>
      if in_cc i then Some (mk_timer run cnt pw sh ie md bm ps (upd cc i v) ev) else None
  end.

Definition hw_read (r : reg) (d : NRF_TIMER_Type) : option Z :=
  match r with
  | POWER => Some (hw_power d)
  | TASKS_START | TASKS_STOP | TASKS_CLEAR | TASKS_SHUTDOWN => Some 0
  | TASKS_CAPTURE i => if in_cc i then Some 0 else None
  | EVENTS_COMPARE i => if in_cc i then Some (hw_events d i) else None
  | SHORTS => Some (hw_shorts d)
  | INTENSET | INTENCLR => Some (hw_inten d)
  | MODE => Some (hw_mode d)
  | BITMODE => Some (hw_bitmode d)
  | PRESCALER => Some (hw_prescaler d)
  | CC i => if in_cc i then Some (hw_cc d i) else None
  end.

(** A compare match latched by the hardware on channel [i]. *)
Definition hw_match (i : Z) (d : NRF_TIMER_Type) : NRF_TIMER_Type :=
  let '(mk_timer run cnt pw sh ie md bm ps cc ev) := d in
  mk_timer run cnt pw sh ie md bm ps cc (upd ev i 1).
End Hardware.

(** ** The driver *)

Section Driver.
Variable P : platform.
(** What running the callback [f] with [(a, chan)] does to the machine. *)
Variable cb_run : Z -> Z -> Z -> machine -> machine.

Local Open Scope drv_scope.

Definition TIMER_NUMOF : nat := length (timer_config P).

(** [timer_config[tim]] *)
Definition conf (tim : nat) : M timer_conf_t :=
  fun w => match timer_config P !! tim with
           | Some c => Ret c w
           | None => Undef OutOfBounds
           end.

Definition dev (tim : nat) : M Z :=
  c <- conf tim; ret (conf_dev c).

(** [ctx[tim]], read and written *)
Definition ctx_get (tim : nat) : M tim_ctx_t :=
  fun w => match ctx (mach w) !! tim with
           | Some x => Ret x w
           | None => Undef OutOfBounds
           end.

Definition ctx_put (tim : nat) (x : tim_ctx_t) : M unit :=
  fun w => match ctx (mach w) !! tim with
           | Some _ =>
               Ret tt (mk_world (mk_machine (<[tim := x]> (ctx (mach w)))
                                            (periph (mach w)) (nvic (mach w)))
                                (trace w))
           | None => Undef OutOfBounds
           end.

Definition reg_write (a : Z) (r : reg) (v : Z) : M unit :=
  fun w => match periph (mach w) !! a with
           | None => Undef BusFault
           | Some d =>
               match hw_write P r v d with
               | None => Undef OutOfBounds
               | Some d' =>
                   Ret tt (mk_world (mk_machine (ctx (mach w))
                                                (<[a := d']> (periph (mach w)))
                                                (nvic (mach w)))
                                    (trace w ++ [MmioWrite a r v]))
               end
           end.

Definition reg_read (a : Z) (r : reg) : M Z :=
  fun w => match periph (mach w) !! a with
           | None => Undef BusFault
           | Some d =>
               match hw_read P r d with
               | None => Undef OutOfBounds
               | Some v => Ret v (mk_world (mach w) (trace w ++ [MmioRead a r]))
               end
           end.

Definition NVIC_EnableIRQ (n : Z) : M unit :=
  fun w => Ret tt (mk_world (mk_machine (ctx (mach w)) (periph (mach w))
                                        (n :: nvic (mach w)))
                            (trace w ++ [NvicEnable n])).

Definition cortexm_isr_end : M unit :=
  fun w => Ret tt (mk_world (mach w) (trace w ++ [IsrEnd])).

(** [f(a, chan)] through the stored function pointer. [ctx] is
    zero-initialised, so until [timer_init] has stored a callback the pointer
    is null, and the source calls it without a test. *)
Definition call_cb (f a chan : Z) : M unit :=
  if f =? 0 then undef NullCall else
  fun w => Ret tt (mk_world (cb_run f a chan (mach w))
                            (trace w ++ [Callback f a chan])).

(** [1 << n] at type [int] *)
Definition shl_int (n : Z) : M Z :=
  if (0 <=? n) && (n <? 31) then ret (Z.shiftl 1 n) else undef ShiftRange.

(** [v << n] at a 32 bit unsigned type *)
Definition shl_u32 (v n : Z) : M Z :=
  if (0 <=? n) && (n <? 32) then ret ((Z.shiftl v n) mod 2 ^ 32) else undef ShiftRange.

Definition u8 (v : Z) : Z := v mod 2 ^ 8.
Definition u32 (v : Z) : Z := v mod 2 ^ 32.

(** The search loop of [timer_init]: [n] iterations left, counter [i],
    candidate [cando]. Returns the value of [i] when the loop is left. *)
Fixpoint init_loop (d freq : Z) (n : nat) (i cando : Z) : M Z :=
  match n with
  | O => ret i
  | S n' =>
      if freq =? cando
      then reg_write d PRESCALER i ;; ret i
      else init_loop d freq n' (i + 1) (cando / 2)
  end.

Definition timer_init (tim : nat) (freq : Z) (f a : Z) : M Z :=
  if (TIMER_NUMOF <=? tim)%nat then ret (-1) else
  x <- ctx_get tim;
  ctx_put tim (set_cb_arg x f a) ;;
  d <- dev tim;
  (if CPU_FAM_NRF51 P then reg_write d POWER 1 else ret tt) ;;
  reg_write d TASKS_STOP 1 ;;
  c <- conf tim;
  reg_write d BITMODE (bitmode c) ;;
  reg_write d MODE (TIMER_MODE_MODE_Timer P) ;;
  reg_write d TASKS_CLEAR 1 ;;
  i <- init_loop d freq 10 0 F_TIMER;
  if i =? 10 then ret (-1) else
  reg_write d (EVENTS_COMPARE 0) 0 ;;
  reg_write d (EVENTS_COMPARE 1) 0 ;;
  reg_write d (EVENTS_COMPARE 2) 0 ;;
  NVIC_EnableIRQ (irqn c) ;;
  reg_write d TASKS_START 1 ;;
  ret 0.

Definition timer_set_absolute (tim : nat) (chan value : Z) : M Z :=
  c <- conf tim;
  if chan >=? channels c then ret (-1) else
  x <- ctx_get tim;
  b <- shl_int chan;
  ctx_put tim (set_flags x (u8 (Z.lor (flags x) b))) ;;
  d <- dev tim;
  reg_write d (CC chan) value ;;
  reg_write d (EVENTS_COMPARE chan) 0 ;;
  _ <- reg_read d (EVENTS_COMPARE chan);
  m <- shl_u32 (TIMER_INTENSET_COMPARE0_Msk P) chan;
  reg_write d INTENSET m ;;
  ret 0.

Definition timer_set_periodic (tim : nat) (chan value tflags : Z) : M Z :=
  c <- conf tim;
  if chan >=? channels c then ret (-1) else
  d <- dev tim;
  reg_write d TASKS_STOP 1 ;;
  x <- ctx_get tim;
  b <- shl_int chan;
  ctx_put tim (set_flags x (u8 (Z.lor (flags x) b))) ;;
  x1 <- ctx_get tim;
  b1 <- shl_int chan;
  ctx_put tim (set_is_periodic x1 (u8 (Z.lor (is_periodic x1) b1))) ;;
  reg_write d (CC chan) value ;;
  (if negb (Z.land tflags (TIM_FLAG_RESET_ON_MATCH P) =? 0)
   then b2 <- shl_int chan;
        s <- reg_read d SHORTS;
        reg_write d SHORTS (u32 (Z.lor s b2))
   else ret tt) ;;
  (if negb (Z.land tflags (TIM_FLAG_RESET_ON_SET P) =? 0)
   then reg_write d TASKS_CLEAR 1
   else ret tt) ;;
  reg_write d (EVENTS_COMPARE chan) 0 ;;
  _ <- reg_read d (EVENTS_COMPARE chan);
  m <- shl_u32 (TIMER_INTENSET_COMPARE0_Msk P) chan;
  reg_write d INTENSET m ;;
  (if Z.land tflags (TIM_FLAG_SET_STOPPED P) =? 0
   then reg_write d TASKS_START 1
   else ret tt) ;;
  ret 0.

Definition timer_clear (tim : nat) (chan : Z) : M Z :=
  c <- conf tim;
  if chan >=? channels c then ret (-1) else
  d <- dev tim;
  m <- shl_u32 (TIMER_INTENSET_COMPARE0_Msk P) chan;
  reg_write d INTENCLR m ;;
  b <- shl_int chan;
  s <- reg_read d SHORTS;
  reg_write d SHORTS (u32 (Z.land s (Z.lnot b))) ;;
  x <- ctx_get tim;
  b1 <- shl_int chan;
  ctx_put tim (set_flags x (u8 (Z.land (flags x) (Z.lnot b1)))) ;;
  x1 <- ctx_get tim;
  b2 <- shl_int chan;
  ctx_put tim (set_is_periodic x1 (u8 (Z.land (is_periodic x1) (Z.lnot b2)))) ;;
  ret 0.

Definition timer_read (tim : nat) : M Z :=
  d <- dev tim;
  c <- conf tim;
  reg_write d (TASKS_CAPTURE (channels c)) 1 ;;
  reg_read d (CC (channels c)).

Definition timer_start (tim : nat) : M unit :=
  d <- dev tim;
  reg_write d TASKS_START 1.

Definition timer_stop (tim : nat) : M unit :=
  d <- dev tim;
  reg_write d TASKS_SHUTDOWN 1.

(** The body of the loop of [irq_handler], for channel [i]. *)
Definition irq_chan (num : nat) (i : Z) : M unit :=
  d <- dev num;
  e <- reg_read d (EVENTS_COMPARE i);
  if e =? 1 then
    reg_write d (EVENTS_COMPARE i) 0 ;;
    x <- ctx_get num;
    b <- shl_int i;
    if negb (Z.land (flags x) b =? 0) then
      x1 <- ctx_get num;
      b1 <- shl_int i;
      (if Z.land (is_periodic x1) b1 =? 0
       then x2 <- ctx_get num;
            b2 <- shl_int i;
            ctx_put num (set_flags x2 (u8 (Z.land (flags x2) (Z.lnot b2)))) ;;
            m <- shl_u32 (TIMER_INTENSET_COMPARE0_Msk P) i;
            reg_write d INTENCLR m
       else ret tt) ;;
      x3 <- ctx_get num;
      call_cb (cb x3) (arg x3) i
    else ret tt
  else ret tt.

(** [for (i = ...; i < channels; i++)] with [n] iterations left. *)
Fixpoint irq_loop (num : nat) (n : nat) (i : Z) : M unit :=
  match n with
  | O => ret tt
  | S n' => irq_chan num i ;; irq_loop num n' (i + 1)
  end.

Definition irq_handler (num : nat) : M unit :=
  c <- conf num;
  irq_loop num (Z.to_nat (channels c)) 0 ;;
  cortexm_isr_end.

End Driver.

(** ** Channel states and the properties stated about them *)

(** Bit [chan] of the two bitsets of a context entry. *)
Definition armed (x : tim_ctx_t) (chan : Z) : bool := Z.testbit (flags x) chan.
Definition periodic (x : tim_ctx_t) (chan : Z) : bool := Z.testbit (is_periodic x) chan.

(** Both bitsets are [uint8_t]. *)
Definition ctx_u8 (x : tim_ctx_t) : Prop :=
  0 <= flags x < 2 ^ 8 /\ 0 <= is_periodic x < 2 ^ 8.

(** A periodic bit is set only where the armed bit is. *)
Definition chan_inv (x : tim_ctx_t) : Prop :=
  forall i, 0 <= i < 8 -> periodic x i = true -> armed x i = true.

Definition store_inv (m : machine) : Prop :=
  forall tim x, ctx m !! tim = Some x -> chan_inv x.

(** Instance [tim] is configured as [c], its context entry is [x] and its
    peripheral is in state [d]. *)
Definition inst_at (P : platform) (w : world) (tim : nat)
    (c : timer_conf_t) (x : tim_ctx_t) (d : NRF_TIMER_Type) : Prop :=
  timer_config P !! tim = Some c /\
  ctx (mach w) !! tim = Some x /\
  periph (mach w) !! conf_dev c = Some d.

(** The table declares no more channels than the peripheral has compare
    registers beside the one [timer_read] captures into; the peripherals of
    the family have four or six of them. *)
Definition conf_fits (P : platform) (c : timer_conf_t) : Prop :=
  0 <= channels c < CC_NUM P /\ 3 <= CC_NUM P <= 8.

Definition is_callback (e : event) : bool :=
  match e with Callback _ _ _ => true | _ => false end.

Definition callback_on (chan : Z) (e : event) : bool :=
  match e with Callback _ _ i => i =? chan | _ => false end.

Definition is_start (a : Z) (e : event) : bool :=
  match e with MmioWrite b TASKS_START _ => b =? a | _ => false end.

(** The hardware latches a compare match of channel [i] at address [a]. *)
Definition world_match (a i : Z) (w : world) : world :=
  match periph (mach w) !! a with
  | Some d => mk_world (mk_machine (ctx (mach w))
                                   (<[a := hw_match i d]> (periph (mach w)))
                                   (nvic (mach w)))
                       (trace w)
  | None => w
  end.

(** ** A concrete board: three TIMER instances of an nRF52 *)

Definition nrf52_timer_config : list timer_conf_t :=
  [ mk_conf 0x40008000 3 3 8; mk_conf 0x40009000 3 0 9; mk_conf 0x4000A000 3 0 10 ].

Definition nrf52 : platform :=
  mk_platform false 0 (2 ^ 16) 1 2 4 6 nrf52_timer_config.

Definition timer_reset : NRF_TIMER_Type :=
  mk_timer false 0 0 0 0 0 0 0 (fun _ => 0) (fun _ => 0).

(** The machine at start-up: [ctx] zero-initialised, peripherals in reset. *)
Definition boot (P : platform) : world :=
  mk_world
    (mk_machine (replicate (TIMER_NUMOF P) (mk_ctx 0 0 0 0))
                (list_to_map (map (fun c => (conf_dev c, timer_reset)) (timer_config P)))
                [])
    [].

(** A callback that leaves the timer alone. *)
Definition cb_none : Z -> Z -> Z -> machine -> machine := fun _ _ _ m => m.

(** A callback that arms the channel it was called for again. *)
Definition cb_rearm (P : platform) : Z -> Z -> Z -> machine -> machine :=
  fun _ a chan m =>
    match timer_set_absolute P 0 chan a (mk_world m []) with
    | Ret _ w => mach w
    | Undef _ => m
    end.

(** Partial correctness: whatever [m] returns from [w] satisfies [Q]. *)
Definition wp {A} (m : M A) (Q : A -> world -> Prop) (w : world) : Prop :=
  match m w with
  | Ret a w' => Q a w'
  | Undef _ => True
  end.

(** Whatever [m] returns, it returns in a machine where [I] still holds. *)
Definition preserves {A} (I : machine -> Prop) (m : M A) : Prop :=
  forall w r w', I (mach w) -> m w = Ret r w' -> I (mach w').

(** The world a call leaves, where it returns. *)
Definition after {A} (m : M A) (w : world) : world :=
  match m w with
  | Ret _ w' => w'
  | Undef _ => w
  end.

(** The reads of the pending-event flags by [n] iterations of the loop of
    [irq_handler] that find nothing pending, from channel [i] on. *)
Fixpoint idle_reads (a : Z) (n : nat) (i : Z) : list event :=
  match n with
  | O => []
  | S n' => MmioRead a (EVENTS_COMPARE i) :: idle_reads a n' (i + 1)
  end.

(** The armed bit of channel [chan] of instance [tim] is clear. *)
Definition disarmed (tim : nat) (chan : Z) (m : machine) : Prop :=
  forall y, ctx m !! tim = Some y -> armed y chan = false.

(** Instance [tim] has its context entry and its peripheral at [a]. *)
Definition present (tim : nat) (a : Z) (m : machine) : Prop :=
  (exists x, ctx m !! tim = Some x) /\ (exists d, periph m !! a = Some d).

(** The callback pointer stored for instance [tim] is not null: the
    instance has been set up by [timer_init] with a callback. *)
Definition callable (tim : nat) (m : machine) : Prop :=
  forall y, ctx m !! tim = Some y -> cb y <> 0.

(** Worlds of the concrete board used in the examples: channel 0 of
    instance 0 armed periodically after initialisation, and channel 1 armed
    one-shot with its compare match latched, on the instance as it is at
    start-up (no callback stored). *)
Definition nrf52_timer0 : timer_conf_t := mk_conf 0x40008000 3 3 8.

Definition periodic_world : world :=
  after (timer_set_periodic nrf52 0 0 100 0)
        (after (timer_init nrf52 0 1000000 7 8) (boot nrf52)).

Definition fired_world : world :=
  world_match 0x40008000 1 (after (timer_set_absolute nrf52 0 1 50) (boot nrf52)).

(** ** The interrupt vectors and repeated matches *)

(** The four vectors of the source, each present when the board defines its
    name; each hands its instance number to [irq_handler]. *)
Definition TIMER_0_ISR (P : platform) (cb_run : Z -> Z -> Z -> machine -> machine)
  : M unit := irq_handler P cb_run 0.
Definition TIMER_1_ISR (P : platform) (cb_run : Z -> Z -> Z -> machine -> machine)
  : M unit := irq_handler P cb_run 1.
Definition TIMER_2_ISR (P : platform) (cb_run : Z -> Z -> Z -> machine -> machine)
  : M unit := irq_handler P cb_run 2.
Definition TIMER_3_ISR (P : platform) (cb_run : Z -> Z -> Z -> machine -> machine)
  : M unit := irq_handler P cb_run 3.

(** The hardware latching a match, as a step of a run. *)
Definition hw_latch (a i : Z) : M unit := fun w => Ret tt (world_match a i w).

(** [k] times: a match of channel [chan] is latched and the handler of the
    instance runs. *)
Fixpoint match_rounds (P : platform) (cb_run : Z -> Z -> Z -> machine -> machine)
    (tim : nat) (a chan : Z) (k : nat) : M unit :=
  match k with
  | O => ret tt
  | S k' =>
      bind (hw_latch a chan)
           (fun _ => bind (irq_handler P cb_run tim)
                          (fun _ => match_rounds P cb_run tim a chan k'))
  end.

(** The channel indices of the callbacks of a trace, in the order called. *)
Fixpoint callback_chans (t : list event) : list Z :=
  match t with
  | [] => []
  | Callback _ _ i :: t' => i :: callback_chans t'
  | _ :: t' => callback_chans t'
  end.

(** Strictly increasing, starting at [lo] or above. *)
Fixpoint increasing_from (lo : Z) (l : list Z) : Prop :=
  match l with
  | [] => True
  | i :: l' => lo <= i /\ increasing_from (i + 1) l'
  end.

(** What the loop of the handler of the peripheral at [a] may do: read a
    pending-event flag, write 0 to one, write INTENCLR, call the callback.
    The call is one event: what the callback does to the machine is its own
    and is not an access of the handler. *)
Definition loop_event (a : Z) (e : event) : Prop :=
  match e with
  | MmioRead b (EVENTS_COMPARE _) => b = a
  | MmioWrite b (EVENTS_COMPARE _) v => b = a /\ v = 0
  | MmioWrite b INTENCLR _ => b = a
  | Callback _ _ _ => True
  | _ => False
  end.

(** Two peripheral states that differ in the pending-event flags at most. *)
Definition same_but_events (d d' : NRF_TIMER_Type) : Prop :=
  hw_running d' = hw_running d /\ hw_counter d' = hw_counter d /\
  hw_power d' = hw_power d /\ hw_shorts d' = hw_shorts d /\
  hw_mode d' = hw_mode d /\ hw_bitmode d' = hw_bitmode d /\
  hw_prescaler d' = hw_prescaler d /\ hw_cc d' = hw_cc d.

(** Machine [m'] has the context entries of the instances other than [tim]
    and the peripherals at the addresses other than [a] as [m] has them. *)
Definition elsewhere_same (tim : nat) (a : Z) (m m' : machine) : Prop :=
  (forall t, t <> tim -> ctx m' !! t = ctx m !! t) /\
  (forall b, b <> a -> periph m' !! b = periph m !! b).

(** More worlds of the concrete board, instance 0 as it is at start-up
    (no callback stored): channel 1 armed one-shot; channels 0
    and 2 armed one-shot with a match latched on both; a match latched on
    channel 1 with nothing armed. And a board whose table declares as many
    channels as the peripheral has compare registers. *)
Definition armed_world : world :=
  after (timer_set_absolute nrf52 0 1 50) (boot nrf52).

Definition two_fired_world : world :=
  world_match 0x40008000 2
    (world_match 0x40008000 0
       (after (timer_set_absolute nrf52 0 2 70)
              (after (timer_set_absolute nrf52 0 0 60) (boot nrf52)))).

Definition stale_world : world := world_match 0x40008000 1 (boot nrf52).

(** The same with instance 0 set up first, by [timer_init] with callback 7
    and argument 8: the instance as initialised; channel 1 armed one-shot with
    its match latched; channels 0 and 2 armed one-shot with a match latched
    on both. *)
Definition ready_world : world :=
  after (timer_init nrf52 0 1000000 7 8) (boot nrf52).

Definition ready_fired_world : world :=
  world_match 0x40008000 1 (after (timer_set_absolute nrf52 0 1 50) ready_world).

Definition ready_two_fired_world : world :=
  world_match 0x40008000 2
    (world_match 0x40008000 0
       (after (timer_set_absolute nrf52 0 2 70)
              (after (timer_set_absolute nrf52 0 0 60) ready_world))).

Definition overfull_timer0 : timer_conf_t := mk_conf 0x40008000 4 3 8.

Definition overfull : platform :=
  mk_platform false 0 (2 ^ 16) 1 2 4 4 [overfull_timer0].

(** * Proofs *)

(** ** Bits *)

Lemma shl1_pow2 n : 0 <= n -> Z.shiftl 1 n = 2 ^ n.
Proof. intros Hn. rewrite Z.shiftl_mul_pow2 by lia. lia. Qed.

Lemma testbit_shl1 n i : 0 <= n -> Z.testbit (Z.shiftl 1 n) i = (n =? i).
Proof. intros Hn. rewrite shl1_pow2 by lia. apply Z.pow2_bits_eqb; lia. Qed.

Lemma land_shl1_testbit a n :
  0 <= n -> (Z.land a (Z.shiftl 1 n) =? 0) = negb (Z.testbit a n).
Proof.
  intros Hn. destruct (Z.testbit a n) eqn:Hb; simpl.
  - apply Z.eqb_neq. intros H0.
    assert (Hc : Z.testbit (Z.land a (Z.shiftl 1 n)) n = true).
    { rewrite Z.land_spec, Hb, testbit_shl1, Z.eqb_refl by lia. reflexivity. }
    rewrite H0, Z.bits_0 in Hc. discriminate.
  - apply Z.eqb_eq. apply Z.bits_inj'. intros i Hi.
    rewrite Z.land_spec, testbit_shl1, Z.bits_0 by lia.
    destruct (Z.eqb_spec n i) as [->|]; [rewrite Hb|]; auto using andb_false_r.
Qed.

Lemma testbit_u8 a i : 0 <= i < 8 -> Z.testbit (u8 a) i = Z.testbit a i.
Proof. intros Hi. unfold u8. apply Z.mod_pow2_bits_low. lia. Qed.

Lemma testbit_u8_high a i : 8 <= i -> Z.testbit (u8 a) i = false.
Proof. intros Hi. unfold u8. apply Z.mod_pow2_bits_high. lia. Qed.

Lemma testbit_u32 a i : 0 <= i < 32 -> Z.testbit (u32 a) i = Z.testbit a i.
Proof. intros Hi. unfold u32. apply Z.mod_pow2_bits_low. lia. Qed.

Lemma u8_small a : 0 <= a < 2 ^ 8 -> u8 a = a.
Proof. intros Ha. unfold u8. apply Z.mod_small. lia. Qed.

(** Setting bit [n] of a byte, for a channel that fits the byte. *)
Lemma testbit_set_u8 a n i :
  0 <= n < 8 -> 0 <= i < 8 ->
  Z.testbit (u8 (Z.lor a (Z.shiftl 1 n))) i = Z.testbit a i || (n =? i).
Proof.
  intros Hn Hi. rewrite testbit_u8, Z.lor_spec, testbit_shl1 by lia. reflexivity.
Qed.

(** Clearing bit [n] of a byte. *)
Lemma testbit_clear_u8 a n i :
  0 <= n -> 0 <= i < 8 ->
  Z.testbit (u8 (Z.land a (Z.lnot (Z.shiftl 1 n)))) i = Z.testbit a i && negb (n =? i).
Proof.
  intros Hn Hi.
  rewrite testbit_u8, Z.land_spec, Z.lnot_spec, testbit_shl1 by lia. reflexivity.
Qed.

(** Clearing a bit that is clear changes nothing. *)
Lemma clear_u8_noop a n :
  0 <= n -> 0 <= a < 2 ^ 8 -> Z.testbit a n = false ->
  u8 (Z.land a (Z.lnot (Z.shiftl 1 n))) = a.
Proof.
  intros Hn Ha Hb.
  assert (E : Z.land a (Z.lnot (Z.shiftl 1 n)) = a).
  { apply Z.bits_inj'. intros i Hi.
    rewrite Z.land_spec, Z.lnot_spec, testbit_shl1 by lia.
    destruct (Z.eqb_spec n i) as [->|]; simpl.
    - rewrite Hb. reflexivity.
    - apply andb_true_r. }
  rewrite E. apply u8_small. exact Ha.
Qed.

(** Clearing a bit twice is clearing it once, at either width. *)
Lemma clear_twice_mod a b k :
  0 <= k ->
  (Z.land ((Z.land a (Z.lnot b)) mod 2 ^ k) (Z.lnot b)) mod 2 ^ k
  = (Z.land a (Z.lnot b)) mod 2 ^ k.
Proof.
  intros Hk. apply Z.bits_inj'. intros i Hi.
  destruct (Z.lt_ge_cases i k) as [Hlt|Hge].
  - rewrite !Z.mod_pow2_bits_low, !Z.land_spec, Z.mod_pow2_bits_low, Z.land_spec by lia.
    destruct (Z.testbit a i), (Z.testbit (Z.lnot b) i); reflexivity.
  - rewrite !Z.mod_pow2_bits_high by lia. reflexivity.
Qed.

Lemma land_lnot_twice a b :
  Z.land (Z.land a (Z.lnot b)) (Z.lnot b) = Z.land a (Z.lnot b).
Proof. rewrite <- Z.land_assoc, Z.land_diag. reflexivity. Qed.

Lemma land_lnot_disjoint a b : Z.land (Z.land a (Z.lnot b)) b = 0.
Proof.
  apply Z.bits_inj'. intros i Hi.
  rewrite !Z.land_spec, Z.lnot_spec, Z.bits_0 by lia.
  destruct (Z.testbit a i), (Z.testbit b i); reflexivity.
Qed.

(** ** Running the monad *)

Lemma bind_ret_eq {A B} (m : M A) (k : A -> M B) w a w1 :
  m w = Ret a w1 -> bind m k w = k a w1.
Proof. intros H. unfold bind. rewrite H. reflexivity. Qed.

Lemma bind_undef_eq {A B} (m : M A) (k : A -> M B) w u :
  m w = Undef u -> bind m k w = Undef u.
Proof. intros H. unfold bind. rewrite H. reflexivity. Qed.

Lemma bind_assoc_eq {A B C} (m : M A) (k : A -> M B) (h : B -> M C) w :
  bind (bind m k) h w = bind m (fun a => bind (k a) h) w.
Proof. unfold bind. destruct (m w); reflexivity. Qed.

Lemma wp_elim {A} (m : M A) Q w a w' : wp m Q w -> m w = Ret a w' -> Q a w'.
Proof. unfold wp. intros H E. rewrite E in H. exact H. Qed.

Lemma wp_ret {A} (a : A) (Q : A -> world -> Prop) w : Q a w -> wp (ret a) Q w.
Proof. auto. Qed.

Lemma wp_undef {A} u (Q : A -> world -> Prop) w : wp (undef u) Q w.
Proof. exact I. Qed.

Lemma wp_bind {A B} (m : M A) (k : A -> M B) Q w :
  wp m (fun a w' => wp (k a) Q w') w -> wp (bind m k) Q w.
Proof. unfold wp, bind. destruct (m w); auto. Qed.

Lemma wp_mono {A} (m : M A) (Q Q' : A -> world -> Prop) w :
  wp m Q w -> (forall a w', Q a w' -> Q' a w') -> wp m Q' w.
Proof. unfold wp. destruct (m w); auto. Qed.

Lemma wp_if {A} (b : bool) (m1 m2 : M A) Q w :
  (b = true -> wp m1 Q w) -> (b = false -> wp m2 Q w) ->
  wp (if b then m1 else m2) Q w.
Proof. destruct b; auto. Qed.

Section Primitives.
Variable P : platform.
Variable cb_run : Z -> Z -> Z -> machine -> machine.

Lemma conf_eq tim c w : timer_config P !! tim = Some c -> conf P tim w = Ret c w.
Proof. intros H. unfold conf. rewrite H. reflexivity. Qed.

Lemma conf_oob tim w : timer_config P !! tim = None -> conf P tim w = Undef OutOfBounds.
Proof. intros H. unfold conf. rewrite H. reflexivity. Qed.

Lemma dev_eq tim c w :
  timer_config P !! tim = Some c -> dev P tim w = Ret (conf_dev c) w.
Proof. intros H. unfold dev. rewrite (bind_ret_eq _ _ _ _ _ (conf_eq _ _ _ H)). reflexivity. Qed.

Lemma dev_oob tim w : timer_config P !! tim = None -> dev P tim w = Undef OutOfBounds.
Proof. intros H. unfold dev. apply bind_undef_eq, conf_oob, H. Qed.

Lemma ctx_get_eq tim x w : ctx (mach w) !! tim = Some x -> ctx_get tim w = Ret x w.
Proof. intros H. unfold ctx_get. rewrite H. reflexivity. Qed.

Lemma ctx_put_eq tim x0 x w :
  ctx (mach w) !! tim = Some x0 ->
  ctx_put tim x w
  = Ret tt (mk_world (mk_machine (<[tim := x]> (ctx (mach w)))
                                 (periph (mach w)) (nvic (mach w)))
                     (trace w)).
Proof. intros H. unfold ctx_put. rewrite H. reflexivity. Qed.

Lemma reg_write_eq a r v d d' w :
  periph (mach w) !! a = Some d -> hw_write P r v d = Some d' ->
  reg_write P a r v w
  = Ret tt (mk_world (mk_machine (ctx (mach w)) (<[a := d']> (periph (mach w)))
                                 (nvic (mach w)))
                     (trace w ++ [MmioWrite a r v])).
Proof. intros H1 H2. unfold reg_write. rewrite H1, H2. reflexivity. Qed.

Lemma reg_read_eq a r v d w :
  periph (mach w) !! a = Some d -> hw_read P r d = Some v ->
  reg_read P a r w = Ret v (mk_world (mach w) (trace w ++ [MmioRead a r])).
Proof. intros H1 H2. unfold reg_read. rewrite H1, H2. reflexivity. Qed.

Lemma shl_int_eq n w : 0 <= n < 31 -> shl_int n w = Ret (Z.shiftl 1 n) w.
Proof.
  intros Hn. unfold shl_int.
  replace ((0 <=? n) && (n <? 31)) with true; [reflexivity|].
  symmetry. apply andb_true_iff. split; [apply Z.leb_le | apply Z.ltb_lt]; lia.
Qed.

Lemma shl_int_neg n w : n < 0 -> shl_int n w = Undef ShiftRange.
Proof.
  intros Hn. unfold shl_int.
  replace (0 <=? n) with false; [reflexivity|].
  symmetry. apply Z.leb_gt. lia.
Qed.

Lemma shl_u32_eq v n w :
  0 <= n < 32 -> shl_u32 v n w = Ret (Z.shiftl v n mod 2 ^ 32) w.
Proof.
  intros Hn. unfold shl_u32.
  replace ((0 <=? n) && (n <? 32)) with true; [reflexivity|].
  symmetry. apply andb_true_iff. split; [apply Z.leb_le | apply Z.ltb_lt]; lia.
Qed.

Lemma shl_u32_neg v n w : n < 0 -> shl_u32 v n w = Undef ShiftRange.
Proof.
  intros Hn. unfold shl_u32.
  replace (0 <=? n) with false; [reflexivity|].
  symmetry. apply Z.leb_gt. lia.
Qed.

Lemma in_cc_true i : 0 <= i < CC_NUM P -> in_cc P i = true.
Proof.
  intros Hi. unfold in_cc. apply andb_true_iff.
  split; [apply Z.leb_le | apply Z.ltb_lt]; lia.
Qed.

(** *** The same primitives as weakest preconditions *)

Lemma wp_conf tim (Q : timer_conf_t -> world -> Prop) w :
  (forall c, timer_config P !! tim = Some c -> Q c w) -> wp (conf P tim) Q w.
Proof. intros H. unfold wp, conf. destruct (timer_config P !! tim); auto. Qed.

Lemma wp_dev tim (Q : Z -> world -> Prop) w :
  (forall c, timer_config P !! tim = Some c -> Q (conf_dev c) w) -> wp (dev P tim) Q w.
Proof.
  intros H. unfold dev. apply wp_bind, wp_conf. intros c Hc. apply wp_ret. auto.
Qed.

Lemma wp_ctx_get tim (Q : tim_ctx_t -> world -> Prop) w :
  (forall x, ctx (mach w) !! tim = Some x -> Q x w) -> wp (ctx_get tim) Q w.
Proof. intros H. unfold wp, ctx_get. destruct (ctx (mach w) !! tim); auto. Qed.

Lemma wp_ctx_put tim x (Q : unit -> world -> Prop) w :
  (forall x0, ctx (mach w) !! tim = Some x0 ->
     Q tt (mk_world (mk_machine (<[tim := x]> (ctx (mach w)))
                                (periph (mach w)) (nvic (mach w)))
                    (trace w))) ->
  wp (ctx_put tim x) Q w.
Proof. intros H. unfold wp, ctx_put. destruct (ctx (mach w) !! tim); eauto. Qed.

Lemma wp_reg_write a r v (Q : unit -> world -> Prop) w :
  (forall d d', periph (mach w) !! a = Some d -> hw_write P r v d = Some d' ->
     Q tt (mk_world (mk_machine (ctx (mach w)) (<[a := d']> (periph (mach w)))
                                (nvic (mach w)))
                    (trace w ++ [MmioWrite a r v]))) ->
  wp (reg_write P a r v) Q w.
Proof.
  intros H. unfold wp, reg_write.
  destruct (periph (mach w) !! a) as [d|]; [|exact I].
  destruct (hw_write P r v d) eqn:E; eauto.
Qed.

Lemma wp_reg_read a r (Q : Z -> world -> Prop) w :
  (forall d v, periph (mach w) !! a = Some d -> hw_read P r d = Some v ->
     Q v (mk_world (mach w) (trace w ++ [MmioRead a r]))) ->
  wp (reg_read P a r) Q w.
Proof.
  intros H. unfold wp, reg_read.
  destruct (periph (mach w) !! a) as [d|]; [|exact I].
  destruct (hw_read P r d) eqn:E; eauto.
Qed.

Lemma wp_shl_int n (Q : Z -> world -> Prop) w :
  (0 <= n < 31 -> Q (Z.shiftl 1 n) w) -> wp (shl_int n) Q w.
Proof.
  intros H. unfold shl_int.
  destruct (Z.leb_spec 0 n), (Z.ltb_spec n 31); simpl;
    first [apply wp_undef | apply wp_ret, H; lia].
Qed.

Lemma wp_shl_u32 v n (Q : Z -> world -> Prop) w :
  (0 <= n < 32 -> Q (Z.shiftl v n mod 2 ^ 32) w) -> wp (shl_u32 v n) Q w.
Proof.
  intros H. unfold shl_u32.
  destruct (Z.leb_spec 0 n), (Z.ltb_spec n 32); simpl;
    first [apply wp_undef | apply wp_ret, H; lia].
Qed.

Lemma wp_nvic n (Q : unit -> world -> Prop) w :
  Q tt (mk_world (mk_machine (ctx (mach w)) (periph (mach w)) (n :: nvic (mach w)))
                 (trace w ++ [NvicEnable n])) ->
  wp (NVIC_EnableIRQ n) Q w.
Proof. auto. Qed.

Lemma wp_isr_end (Q : unit -> world -> Prop) w :
  Q tt (mk_world (mach w) (trace w ++ [IsrEnd])) -> wp cortexm_isr_end Q w.
Proof. auto. Qed.

Lemma wp_call_cb f a chan (Q : unit -> world -> Prop) w :
  (f <> 0 ->
   Q tt (mk_world (cb_run f a chan (mach w)) (trace w ++ [Callback f a chan]))) ->
  wp (call_cb cb_run f a chan) Q w.
Proof.
  intros H. unfold call_cb. destruct (Z.eqb_spec f 0); [apply wp_undef | apply H; assumption].
Qed.

Lemma call_cb_eq f a chan w :
  f <> 0 ->
  call_cb cb_run f a chan w
  = Ret tt (mk_world (cb_run f a chan (mach w)) (trace w ++ [Callback f a chan])).
Proof. intros H. unfold call_cb. apply Z.eqb_neq in H. rewrite H. reflexivity. Qed.

Lemma call_cb_null a chan w : call_cb cb_run 0 a chan w = Undef NullCall.
Proof. reflexivity. Qed.

End Primitives.

(** [step E] runs the first action of a sequence, [E] being its equation. *)
Ltac step E := rewrite (bind_ret_eq _ _ _ _ _ E); cbv beta.
Ltac stop_undef E := rewrite (bind_undef_eq _ _ _ _ E); try reflexivity.

Lemma geb_true a b : b <= a -> (a >=? b) = true.
Proof. intros H. rewrite Z.geb_leb. apply Z.leb_le. exact H. Qed.

Lemma geb_false a b : a < b -> (a >=? b) = false.
Proof. intros H. rewrite Z.geb_leb. apply Z.leb_gt. exact H. Qed.

(** ** Rejected indices *)

(** C1 (as amended). [timer_init] with an instance index outside the table,
    and [timer_set_absolute], [timer_set_periodic] and [timer_clear] on a
    configured instance with a channel index at or above its channel count,
    return -1 and leave the context array, the peripherals and the trace of
    register accesses exactly as they were. *)
Theorem invalid_index_rejected (P : platform) (w : world) :
  (forall tim freq f a,
      (TIMER_NUMOF P <= tim)%nat -> timer_init P tim freq f a w = Ret (-1) w) /\
  (forall tim c chan,
      timer_config P !! tim = Some c -> channels c <= chan ->
      (forall value, timer_set_absolute P tim chan value w = Ret (-1) w) /\
      (forall value tflags, timer_set_periodic P tim chan value tflags w = Ret (-1) w) /\
      timer_clear P tim chan w = Ret (-1) w).
Proof.
  split.
  - intros tim freq f a Htim. unfold timer_init.
    destruct (Nat.leb_spec (TIMER_NUMOF P) tim); [reflexivity | lia].
  - intros tim c chan Hc Hchan.
    pose proof (conf_eq P tim c w Hc) as Ec.
    pose proof (geb_true chan (channels c) Hchan) as Eg.
    repeat split; intros.
    + unfold timer_set_absolute. step Ec. rewrite Eg. reflexivity.
    + unfold timer_set_periodic. step Ec. rewrite Eg. reflexivity.
    + unfold timer_clear. step Ec. rewrite Eg. reflexivity.
Qed.

(** C10. The three channel functions compare the signed [chan] with the
    channel count from above only. For a negative channel index the test
    [chan >= channels] is false: none of [timer_set_absolute],
    [timer_set_periodic] and [timer_clear] returns -1; each goes on to shift
    by the negative channel, which is where the behaviour of the C program
    stops being defined. *)
Theorem negative_channel_accepted (P : platform) (w : world) (tim : nat)
    (c : timer_conf_t) (x : tim_ctx_t) (d : NRF_TIMER_Type) (chan : Z) :
  inst_at P w tim c x d -> 0 <= channels c -> chan < 0 ->
  (chan >=? channels c) = false /\
  (forall value, timer_set_absolute P tim chan value w = Undef ShiftRange) /\
  (forall value tflags,
      timer_set_periodic P tim chan value tflags w = Undef ShiftRange) /\
  timer_clear P tim chan w = Undef ShiftRange.
Proof.
  intros (Hc & Hx & Hd) Hch Hneg.
  pose proof (conf_eq P tim c w Hc) as Ec.
  pose proof (geb_false chan (channels c) ltac:(lia)) as Eg.
  split; [exact Eg|]. repeat split; intros.
  - unfold timer_set_absolute. step Ec. rewrite Eg.
    step (ctx_get_eq tim x w Hx).
    stop_undef (shl_int_neg chan w Hneg).
  - unfold timer_set_periodic. step Ec. rewrite Eg.
    step (dev_eq P tim c w Hc).
    assert (Hw : exists d', hw_write P TASKS_STOP 1 d = Some d')
      by (destruct d; simpl; eauto).
    destruct Hw as [d' Hw].
    step (reg_write_eq P _ _ _ _ _ w Hd Hw).
    match goal with |- bind _ _ ?w1 = _ =>
      step (ctx_get_eq tim x w1 Hx); stop_undef (shl_int_neg chan w1 Hneg) end.
  - unfold timer_clear. step Ec. rewrite Eg.
    step (dev_eq P tim c w Hc).
    stop_undef (shl_u32_neg (TIMER_INTENSET_COMPARE0_Msk P) chan w Hneg).
Qed.

(** Past the end of [timer_config] only [timer_init] has a test: the other
    functions, and the interrupt handler, start by reading the table out of
    bounds. *)
Lemma instance_unchecked_oob (P : platform) (cb_run : Z -> Z -> Z -> machine -> machine)
    (w : world) (tim : nat) :
  (TIMER_NUMOF P <= tim)%nat ->
  (forall chan value, timer_set_absolute P tim chan value w = Undef OutOfBounds) /\
  (forall chan value tflags,
      timer_set_periodic P tim chan value tflags w = Undef OutOfBounds) /\
  (forall chan, timer_clear P tim chan w = Undef OutOfBounds) /\
  timer_read P tim w = Undef OutOfBounds /\
  timer_start P tim w = Undef OutOfBounds /\
  timer_stop P tim w = Undef OutOfBounds /\
  irq_handler P cb_run tim w = Undef OutOfBounds.
Proof.
  intros Htim.
  assert (Hnone : timer_config P !! tim = None) by (apply lookup_ge_None; exact Htim).
  pose proof (conf_oob P tim w Hnone) as Ec.
  pose proof (dev_oob P tim w Hnone) as Ed.
  repeat split; intros.
  - unfold timer_set_absolute. stop_undef Ec.
  - unfold timer_set_periodic. stop_undef Ec.
  - unfold timer_clear. stop_undef Ec.
  - unfold timer_read. stop_undef Ed.
  - unfold timer_start. stop_undef Ed.
  - unfold timer_stop. stop_undef Ed.
  - unfold irq_handler. stop_undef Ec.
Qed.

(** ** Symbolic execution of the driver *)

Ltac lookup_solve :=
  cbn [ctx mach periph nvic trace];
  first [ eassumption
        | apply lookup_insert_eq
        | apply list_lookup_insert_eq; eapply lookup_lt_Some; eassumption
        | rewrite lookup_insert_eq; reflexivity ].

Ltac hw_solve :=
  cbn [hw_write hw_read hw_events hw_shorts hw_cc hw_inten];
  rewrite ?in_cc_true by lia; reflexivity.

Ltac run1 :=
  lazymatch goal with
  | |- bind (bind _ _) _ _ = _ => rewrite bind_assoc_eq
  | |- bind (conf _ _) _ _ = _ =>
      erewrite (bind_ret_eq (conf _ _)) by (apply conf_eq; eassumption)
  | |- bind (dev _ _) _ _ = _ =>
      erewrite (bind_ret_eq (dev _ _)) by (apply dev_eq; eassumption)
  | |- bind (ctx_get _) _ _ = _ =>
      erewrite (bind_ret_eq (ctx_get _)) by (apply ctx_get_eq; lookup_solve)
  | |- bind (ctx_put _ _) _ _ = _ =>
      erewrite (bind_ret_eq (ctx_put _ _)) by (eapply ctx_put_eq; lookup_solve)
  | |- bind (reg_write _ _ _ _) _ _ = _ =>
      erewrite (bind_ret_eq (reg_write _ _ _ _))
        by (eapply reg_write_eq; [lookup_solve | hw_solve])
  | |- bind (reg_read _ _ _) _ _ = _ =>
      erewrite (bind_ret_eq (reg_read _ _ _))
        by (eapply reg_read_eq; [lookup_solve | hw_solve])
  | |- bind (shl_int _) _ _ = _ =>
      erewrite (bind_ret_eq (shl_int _)) by (apply shl_int_eq; lia)
  | |- bind (shl_u32 _ _) _ _ = _ =>
      erewrite (bind_ret_eq (shl_u32 _ _)) by (apply shl_u32_eq; lia)
  | |- bind (NVIC_EnableIRQ _) _ _ = _ =>
      erewrite (bind_ret_eq (NVIC_EnableIRQ _)) by reflexivity
  | |- bind (call_cb _ _ _ _) _ _ = _ =>
      erewrite (bind_ret_eq (call_cb _ _ _ _)) by (apply call_cb_eq; assumption)
  | |- bind (ret _) _ _ = _ =>
      erewrite (bind_ret_eq (ret _)) by reflexivity
  end;
  cbv beta; cbn [ctx mach periph nvic trace].

(** Nested updates of one peripheral and of one context entry collapse. *)
Ltac tidy :=
  cbn [ctx mach periph nvic trace];
  rewrite ?insert_insert_eq, ?list_insert_insert_eq, <- ?app_assoc;
  cbn [app].

Section Calls.
Variable P : platform.

(** What [timer_set_absolute] does on a valid channel: the armed bit is
    or-ed in, [is_periodic] is not written. *)
Lemma timer_set_absolute_eq w tim c x chan value run cnt pw sh ie md bm ps cc ev :
  inst_at P w tim c x (mk_timer run cnt pw sh ie md bm ps cc ev) ->
  conf_fits P c -> 0 <= chan < channels c ->
  timer_set_absolute P tim chan value w
  = Ret 0
      (mk_world
         (mk_machine
            (<[tim := set_flags x (u8 (Z.lor (flags x) (Z.shiftl 1 chan)))]> (ctx (mach w)))
            (<[conf_dev c :=
                 mk_timer run cnt pw sh
                   (Z.lor ie (Z.shiftl (TIMER_INTENSET_COMPARE0_Msk P) chan mod 2 ^ 32))
                   md bm ps (upd cc chan value) (upd ev chan 0)]> (periph (mach w)))
            (nvic (mach w)))
         (trace w ++ [MmioWrite (conf_dev c) (CC chan) value;
                      MmioWrite (conf_dev c) (EVENTS_COMPARE chan) 0;
                      MmioRead (conf_dev c) (EVENTS_COMPARE chan);
                      MmioWrite (conf_dev c) INTENSET
                        (Z.shiftl (TIMER_INTENSET_COMPARE0_Msk P) chan mod 2 ^ 32)])).
Proof.
  intros (Hc & Hx & Hd) (Hfit & Hnum) Hchan.
  unfold timer_set_absolute. run1.
  rewrite geb_false by lia.
  do 9 run1. tidy. reflexivity.
Qed.

(** What [timer_set_periodic] does on a valid channel, for each setting of
    the three flags. *)
Lemma timer_set_periodic_eq w tim c x chan value tflags run cnt pw sh ie md bm ps cc ev :
  inst_at P w tim c x (mk_timer run cnt pw sh ie md bm ps cc ev) ->
  conf_fits P c -> 0 <= chan < channels c ->
  let a := conf_dev c in
  let b := Z.shiftl 1 chan in
  let m := Z.shiftl (TIMER_INTENSET_COMPARE0_Msk P) chan mod 2 ^ 32 in
  let on_match := negb (Z.land tflags (TIM_FLAG_RESET_ON_MATCH P) =? 0) in
  let on_set := negb (Z.land tflags (TIM_FLAG_RESET_ON_SET P) =? 0) in
  let restart := Z.land tflags (TIM_FLAG_SET_STOPPED P) =? 0 in
  timer_set_periodic P tim chan value tflags w
  = Ret 0
      (mk_world
         (mk_machine
            (<[tim := mk_ctx (cb x) (arg x) (u8 (Z.lor (flags x) b))
                             (u8 (Z.lor (is_periodic x) b))]> (ctx (mach w)))
            (<[a := mk_timer restart (if on_set then 0 else cnt) pw
                      (if on_match then u32 (Z.lor sh b) else sh)
                      (Z.lor ie m) md bm ps (upd cc chan value) (upd ev chan 0)]>
               (periph (mach w)))
            (nvic (mach w)))
         (trace w ++ MmioWrite a TASKS_STOP 1 ::
            ([MmioWrite a (CC chan) value]
             ++ (if on_match
                 then [MmioRead a SHORTS; MmioWrite a SHORTS (u32 (Z.lor sh b))]
                 else [])
             ++ (if on_set then [MmioWrite a TASKS_CLEAR 1] else [])
             ++ [MmioWrite a (EVENTS_COMPARE chan) 0;
                 MmioRead a (EVENTS_COMPARE chan);
                 MmioWrite a INTENSET m])
            ++ (if restart then [MmioWrite a TASKS_START 1] else []))).
Proof.
  intros (Hc & Hx & Hd) (Hfit & Hnum) Hchan a b m on_match on_set restart.
  subst a b m on_match on_set restart.
  unfold timer_set_periodic. run1.
  rewrite geb_false by lia.
  do 8 run1.
  destruct (Z.land tflags (TIM_FLAG_RESET_ON_MATCH P) =? 0);
    destruct (Z.land tflags (TIM_FLAG_RESET_ON_SET P) =? 0);
    destruct (Z.land tflags (TIM_FLAG_SET_STOPPED P) =? 0);
    cbn [negb]; repeat run1; tidy; reflexivity.
Qed.

(** What [timer_clear] does on a valid channel. *)
Lemma timer_clear_eq w tim c x chan run cnt pw sh ie md bm ps cc ev :
  inst_at P w tim c x (mk_timer run cnt pw sh ie md bm ps cc ev) ->
  conf_fits P c -> 0 <= chan < channels c ->
  let a := conf_dev c in
  let b := Z.shiftl 1 chan in
  let m := Z.shiftl (TIMER_INTENSET_COMPARE0_Msk P) chan mod 2 ^ 32 in
  timer_clear P tim chan w
  = Ret 0
      (mk_world
         (mk_machine
            (<[tim := mk_ctx (cb x) (arg x) (u8 (Z.land (flags x) (Z.lnot b)))
                             (u8 (Z.land (is_periodic x) (Z.lnot b)))]> (ctx (mach w)))
            (<[a := mk_timer run cnt pw (u32 (Z.land sh (Z.lnot b)))
                      (Z.land ie (Z.lnot m)) md bm ps cc ev]> (periph (mach w)))
            (nvic (mach w)))
         (trace w ++ [MmioWrite a INTENCLR m; MmioRead a SHORTS;
                      MmioWrite a SHORTS (u32 (Z.land sh (Z.lnot b)))])).
Proof.
  intros (Hc & Hx & Hd) (Hfit & Hnum) Hchan a b m. subst a b m.
  unfold timer_clear. run1.
  rewrite geb_false by lia.
  repeat run1. tidy. reflexivity.
Qed.

End Calls.

(** ** Periodic arming stops and restarts the timer *)

(** C8. On a valid channel [timer_set_periodic] returns 0; its first
    register access is the STOP task, every other access comes after it;
    with TIM_FLAG_SET_STOPPED in the flags no START task is written and the
    timer is left stopped; without it the last access is the START task and
    the timer runs again. *)
Theorem set_periodic_stop_restart (P : platform) (w : world) (tim : nat)
    (c : timer_conf_t) (x : tim_ctx_t) (d : NRF_TIMER_Type) (chan value tflags : Z) :
  inst_at P w tim c x d -> conf_fits P c -> 0 <= chan < channels c ->
  exists w' d' evs,
    timer_set_periodic P tim chan value tflags w = Ret 0 w' /\
    periph (mach w') !! conf_dev c = Some d' /\
    trace w' = trace w ++ MmioWrite (conf_dev c) TASKS_STOP 1 :: evs /\
    (Z.land tflags (TIM_FLAG_SET_STOPPED P) <> 0 ->
       hw_running d' = false /\ List.filter (is_start (conf_dev c)) evs = []) /\
    (Z.land tflags (TIM_FLAG_SET_STOPPED P) = 0 ->
       hw_running d' = true /\
       exists evs', evs = evs' ++ [MmioWrite (conf_dev c) TASKS_START 1] /\
                    List.filter (is_start (conf_dev c)) evs' = []).
Proof.
  intros Hin Hfit Hchan. destruct d as [run cnt pw sh ie md bm ps cc ev].
  pose proof (timer_set_periodic_eq P w tim c x chan value tflags
                run cnt pw sh ie md bm ps cc ev Hin Hfit Hchan) as E.
  cbv zeta in E. rewrite E. clear E.
  do 3 eexists. split; [reflexivity|].
  cbn [ctx mach periph nvic trace].
  split; [apply lookup_insert_eq|]. split; [reflexivity|].
  cbn [hw_running].
  assert (Hmid : forall b1 b2 l1 l2,
             List.filter (is_start (conf_dev c))
               ([MmioWrite (conf_dev c) (CC chan) value]
                ++ (if b1 : bool then [MmioRead (conf_dev c) SHORTS;
                                       MmioWrite (conf_dev c) SHORTS l1] else [])
                ++ (if b2 : bool then [MmioWrite (conf_dev c) TASKS_CLEAR 1] else [])
                ++ [MmioWrite (conf_dev c) (EVENTS_COMPARE chan) 0;
                    MmioRead (conf_dev c) (EVENTS_COMPARE chan);
                    MmioWrite (conf_dev c) INTENSET l2]) = []).
  { intros [|] [|] l1 l2; reflexivity. }
  split.
  - intros Hset. apply Z.eqb_neq in Hset. rewrite Hset.
    split; [reflexivity|]. rewrite app_nil_r. apply Hmid.
  - intros Hclr. apply Z.eqb_eq in Hclr. rewrite Hclr.
    split; [reflexivity|]. eexists. split; [reflexivity|]. apply Hmid.
Qed.

(** ** Disarming *)

(** C9. On a valid channel [timer_clear] returns 0 and leaves the channel
    idle: armed and periodic bits clear, the interrupt source of the
    channel disabled, its reset-on-match short clear. On a channel that was
    idle the context array is left as it was. A second [timer_clear]
    returns 0 again and changes nothing in the machine. *)
Theorem timer_clear_idempotent (P : platform) (w : world) (tim : nat)
    (c : timer_conf_t) (x : tim_ctx_t) (d : NRF_TIMER_Type) (chan : Z) :
  inst_at P w tim c x d -> conf_fits P c -> 0 <= chan < channels c ->
  exists w1 x1 d1,
    timer_clear P tim chan w = Ret 0 w1 /\
    ctx (mach w1) !! tim = Some x1 /\
    periph (mach w1) !! conf_dev c = Some d1 /\
    armed x1 chan = false /\ periodic x1 chan = false /\
    Z.land (hw_inten d1) (Z.shiftl (TIMER_INTENSET_COMPARE0_Msk P) chan mod 2 ^ 32) = 0 /\
    Z.testbit (hw_shorts d1) chan = false /\
    (ctx_u8 x -> chan_inv x -> armed x chan = false ->
       ctx (mach w1) = ctx (mach w)) /\
    exists w2, timer_clear P tim chan w1 = Ret 0 w2 /\ mach w2 = mach w1.
Proof.
  intros Hin Hfit Hchan. destruct d as [run cnt pw sh ie md bm ps cc ev].
  pose proof (timer_clear_eq P w tim c x chan run cnt pw sh ie md bm ps cc ev
                Hin Hfit Hchan) as E.
  cbv zeta in E. destruct Hin as (Hc & Hx & Hd). destruct Hfit as (Hfit & Hnum).
  assert (Hlt : (tim < length (ctx (mach w)))%nat) by (eapply lookup_lt_Some; eauto).
  eexists _, _, _. split; [exact E|].
  cbn [ctx mach periph nvic trace].
  split; [apply list_lookup_insert_eq, Hlt|].
  split; [apply lookup_insert_eq|].
  unfold armed, periodic. cbn [flags is_periodic hw_inten hw_shorts].
  split; [|split; [|split; [|split; [|split]]]].
  - rewrite testbit_clear_u8, Z.eqb_refl by lia. apply andb_false_r.
  - rewrite testbit_clear_u8, Z.eqb_refl by lia. apply andb_false_r.
  - apply land_lnot_disjoint.
  - rewrite testbit_u32, Z.land_spec, Z.lnot_spec, testbit_shl1, Z.eqb_refl by lia.
    apply andb_false_r.
  - intros (Hf & Hp) Hinv Hidle. unfold armed in Hidle.
    assert (Hper : Z.testbit (is_periodic x) chan = false).
    { destruct (Z.testbit (is_periodic x) chan) eqn:Eb; [|reflexivity].
      rewrite <- Hidle. symmetry. apply Hinv; [lia | exact Eb]. }
    rewrite !clear_u8_noop by (assumption || lia).
    apply list_insert_id. rewrite Hx. destruct x; reflexivity.
  - eexists. split.
    + match goal with |- timer_clear _ _ _ ?w1 = _ =>
        pose proof (timer_clear_eq P w1 tim c) as E2 end.
      cbv zeta in E2. eapply E2; [|split; eassumption|exact Hchan].
      split; [exact Hc|]. cbn [ctx mach periph nvic trace].
      split; [apply list_lookup_insert_eq, Hlt | apply lookup_insert_eq].
    + cbn [ctx mach periph nvic trace cb arg flags is_periodic].
      rewrite insert_insert_eq, list_insert_insert_eq.
      unfold u8, u32. rewrite !clear_twice_mod, land_lnot_twice by lia.
      reflexivity.
Qed.

(** ** Initialisation and the prescaler search *)

Lemma bind_ext_eq {A B} (m m' : M A) (k : A -> M B) w :
  m w = m' w -> bind m k w = bind m' k w.
Proof. intros H. unfold bind. rewrite H. reflexivity. Qed.

Section Init.
Variable P : platform.
Variables (a freq : Z).

Lemma halve_pow cando j :
  0 <= j -> cando / 2 / 2 ^ j = cando / 2 ^ (j + 1).
Proof.
  intros Hj. rewrite Z.div_div by lia.
  rewrite Z.pow_add_r, Z.mul_comm by lia. reflexivity.
Qed.

(** The loop leaves at the first candidate equal to [freq], having
    written its index to PRESCALER. *)
Lemma init_loop_hit (k : nat) : forall (n : nat) i cando w,
  (k < n)%nat ->
  (forall j : nat, (j < k)%nat -> cando / 2 ^ Z.of_nat j <> freq) ->
  cando / 2 ^ Z.of_nat k = freq ->
  init_loop P a freq n i cando w
  = bind (reg_write P a PRESCALER (i + Z.of_nat k)) (fun _ => ret (i + Z.of_nat k)) w.
Proof.
  induction k as [|k IH]; intros n i cando w Hn Hmiss Hhit;
    (destruct n as [|n]; [lia|]); cbn [init_loop].
  - change (2 ^ Z.of_nat 0) with 1 in Hhit. rewrite Z.div_1_r in Hhit.
    rewrite Hhit, Z.eqb_refl, Z.add_0_r. reflexivity.
  - assert (H0 : cando <> freq).
    { specialize (Hmiss 0%nat ltac:(lia)).
      change (2 ^ Z.of_nat 0) with 1 in Hmiss. rewrite Z.div_1_r in Hmiss. exact Hmiss. }
    replace (freq =? cando) with false by (symmetry; apply Z.eqb_neq; congruence).
    rewrite (IH n (i + 1) (cando / 2) w); try lia.
    + replace (i + 1 + Z.of_nat k) with (i + Z.of_nat (S k)) by lia. reflexivity.
    + intros j Hj. rewrite halve_pow by lia.
      replace (Z.of_nat j + 1) with (Z.of_nat (S j)) by lia. apply Hmiss. lia.
    + rewrite halve_pow by lia.
      replace (Z.of_nat k + 1) with (Z.of_nat (S k)) by lia. exact Hhit.
Qed.

(** With no candidate equal to [freq] the loop runs out and writes nothing. *)
Lemma init_loop_miss (n : nat) : forall i cando w,
  (forall j : nat, (j < n)%nat -> cando / 2 ^ Z.of_nat j <> freq) ->
  init_loop P a freq n i cando w = Ret (i + Z.of_nat n) w.
Proof.
  induction n as [|n IH]; intros i cando w Hmiss; cbn [init_loop].
  - rewrite Z.add_0_r. reflexivity.
  - assert (H0 : cando <> freq).
    { specialize (Hmiss 0%nat ltac:(lia)).
      change (2 ^ Z.of_nat 0) with 1 in Hmiss. rewrite Z.div_1_r in Hmiss. exact Hmiss. }
    replace (freq =? cando) with false by (symmetry; apply Z.eqb_neq; congruence).
    rewrite IH.
    + f_equal. lia.
    + intros j Hj. rewrite halve_pow by lia.
      replace (Z.of_nat j + 1) with (Z.of_nat (S j)) by lia. apply Hmiss. lia.
Qed.

End Init.

Section InitCall.
Variable P : platform.

(** A successful [timer_init]: callback and argument are stored, the two
    bitsets are not written; the peripheral is stopped, configured, given the
    prescaler found, and started. *)
Lemma timer_init_eq w tim c x freq f a e run cnt pw sh ie md bm ps cc ev :
  inst_at P w tim c x (mk_timer run cnt pw sh ie md bm ps cc ev) ->
  3 <= CC_NUM P -> 0 <= e <= 9 ->
  F_TIMER / 2 ^ e = freq ->
  (forall e', 0 <= e' < e -> F_TIMER / 2 ^ e' <> freq) ->
  let b := conf_dev c in
  timer_init P tim freq f a w
  = Ret 0
      (mk_world
         (mk_machine
            (<[tim := set_cb_arg x f a]> (ctx (mach w)))
            (<[b := mk_timer true 0 (if CPU_FAM_NRF51 P then 1 else pw) sh ie
                      (TIMER_MODE_MODE_Timer P) (bitmode c) e cc
                      (upd (upd (upd ev 0 0) 1 0) 2 0)]> (periph (mach w)))
            (irqn c :: nvic (mach w)))
         (trace w ++ (if CPU_FAM_NRF51 P then [MmioWrite b POWER 1] else [])
            ++ [MmioWrite b TASKS_STOP 1; MmioWrite b BITMODE (bitmode c);
                MmioWrite b MODE (TIMER_MODE_MODE_Timer P);
                MmioWrite b TASKS_CLEAR 1; MmioWrite b PRESCALER e;
                MmioWrite b (EVENTS_COMPARE 0) 0; MmioWrite b (EVENTS_COMPARE 1) 0;
                MmioWrite b (EVENTS_COMPARE 2) 0; NvicEnable (irqn c);
                MmioWrite b TASKS_START 1])).
Proof.
  intros (Hc & Hx & Hd) Hnum He Hhit Hmin b. subst b.
  unfold timer_init.
  assert (Htim : (tim < TIMER_NUMOF P)%nat) by (eapply lookup_lt_Some; eauto).
  destruct (Nat.leb_spec (TIMER_NUMOF P) tim); [lia|].
  assert (Hloop : forall w1,
             init_loop P (conf_dev c) freq 10 0 F_TIMER w1
             = bind (reg_write P (conf_dev c) PRESCALER e) (fun _ => ret e) w1).
  { intros w1.
    rewrite (init_loop_hit P (conf_dev c) freq (Z.to_nat e) 10 0 F_TIMER w1).
    - rewrite Z2Nat.id by lia. reflexivity.
    - lia.
    - intros j Hj. apply Hmin. lia.
    - rewrite Z2Nat.id by lia. exact Hhit. }
  destruct (CPU_FAM_NRF51 P).
  - do 9 run1. erewrite bind_ext_eq by apply Hloop.
    do 3 run1. replace (e =? 10) with false by (symmetry; apply Z.eqb_neq; lia).
    repeat run1. tidy. reflexivity.
  - do 9 run1. erewrite bind_ext_eq by apply Hloop.
    do 3 run1. replace (e =? 10) with false by (symmetry; apply Z.eqb_neq; lia).
    repeat run1. tidy. reflexivity.
Qed.

(** [timer_init] with a frequency none of the ten candidates equals: -1,
    after the callback was stored and the peripheral stopped and cleared. *)
Lemma timer_init_nofreq w tim c x freq f a run cnt pw sh ie md bm ps cc ev :
  inst_at P w tim c x (mk_timer run cnt pw sh ie md bm ps cc ev) ->
  (forall e, 0 <= e <= 9 -> F_TIMER / 2 ^ e <> freq) ->
  let b := conf_dev c in
  timer_init P tim freq f a w
  = Ret (-1)
      (mk_world
         (mk_machine
            (<[tim := set_cb_arg x f a]> (ctx (mach w)))
            (<[b := mk_timer false 0 (if CPU_FAM_NRF51 P then 1 else pw) sh ie
                      (TIMER_MODE_MODE_Timer P) (bitmode c) ps cc ev]> (periph (mach w)))
            (nvic (mach w)))
         (trace w ++ (if CPU_FAM_NRF51 P then [MmioWrite b POWER 1] else [])
            ++ [MmioWrite b TASKS_STOP 1; MmioWrite b BITMODE (bitmode c);
                MmioWrite b MODE (TIMER_MODE_MODE_Timer P);
                MmioWrite b TASKS_CLEAR 1])).
Proof.
  intros (Hc & Hx & Hd) Hmiss b. subst b.
  unfold timer_init.
  assert (Htim : (tim < TIMER_NUMOF P)%nat) by (eapply lookup_lt_Some; eauto).
  destruct (Nat.leb_spec (TIMER_NUMOF P) tim); [lia|].
  assert (Hloop : forall w1,
             init_loop P (conf_dev c) freq 10 0 F_TIMER w1 = Ret 10 w1).
  { intros w1. rewrite (init_loop_miss P (conf_dev c) freq 10 0 F_TIMER w1).
    - reflexivity.
    - intros j Hj. apply Hmiss. lia. }
  destruct (CPU_FAM_NRF51 P).
  - do 9 run1. rewrite (bind_ret_eq _ _ _ _ _ (Hloop _)).
    cbv beta. tidy. reflexivity.
  - do 9 run1. rewrite (bind_ret_eq _ _ _ _ _ (Hloop _)).
    cbv beta. tidy. reflexivity.
Qed.

End InitCall.

Lemma F_TIMER_4 : forall e', 0 <= e' < 4 -> F_TIMER / 2 ^ e' <> 1000000.
Proof.
  intros e' He'.
  assert (Hc : e' = 0 \/ e' = 1 \/ e' = 2 \/ e' = 3) by lia.
  destruct Hc as [->|[->|[->| ->]]]; vm_compute; discriminate.
Qed.

Lemma F_TIMER_1500000 : forall e, 0 <= e <= 9 -> F_TIMER / 2 ^ e <> 1500000.
Proof.
  intros e He.
  assert (Hc : e = 0 \/ e = 1 \/ e = 2 \/ e = 3 \/ e = 4 \/ e = 5 \/ e = 6
               \/ e = 7 \/ e = 8 \/ e = 9) by lia.
  destruct Hc as [->|[->|[->|[->|[->|[->|[->|[->|[->| ->]]]]]]]]];
    vm_compute; discriminate.
Qed.

(** C4. The search in [timer_init] tries the exponents 0, 1, ..., 9 in this
    order against 16000000 / 2^e: with [e] the first exponent whose quotient
    equals the requested frequency, [timer_init] returns 0 having programmed
    PRESCALER with [e] and started the timer; when no exponent of the range
    gives the frequency it returns -1. At 1000000 the prescaler is 4, and
    1500000 is refused. *)
Theorem frequency_resolver (P : platform) (w : world) (tim : nat)
    (c : timer_conf_t) (x : tim_ctx_t) (d : NRF_TIMER_Type) (freq f a : Z) :
  inst_at P w tim c x d -> 3 <= CC_NUM P ->
  (forall e, 0 <= e <= 9 -> F_TIMER / 2 ^ e = freq ->
     (forall e', 0 <= e' < e -> F_TIMER / 2 ^ e' <> freq) ->
     init_loop P (conf_dev c) freq 10 0 F_TIMER w
       = bind (reg_write P (conf_dev c) PRESCALER e) (fun _ => ret e) w /\
     exists w' d',
       timer_init P tim freq f a w = Ret 0 w' /\
       periph (mach w') !! conf_dev c = Some d' /\
       hw_prescaler d' = e /\ hw_running d' = true) /\
  ((forall e, 0 <= e <= 9 -> F_TIMER / 2 ^ e <> freq) ->
     init_loop P (conf_dev c) freq 10 0 F_TIMER w = Ret 10 w /\
     exists w', timer_init P tim freq f a w = Ret (-1) w') /\
  (exists w' d',
     timer_init P tim 1000000 f a w = Ret 0 w' /\
     periph (mach w') !! conf_dev c = Some d' /\ hw_prescaler d' = 4) /\
  (exists w', timer_init P tim 1500000 f a w = Ret (-1) w').
Proof.
  intros Hin Hnum. destruct d as [run cnt pw sh ie md bm ps cc ev].
  split; [|split; [|split]].
  - intros e He Hhit Hmin. split.
    + rewrite (init_loop_hit P (conf_dev c) freq (Z.to_nat e) 10 0 F_TIMER w).
      * rewrite Z2Nat.id by lia. reflexivity.
      * lia.
      * intros j Hj. apply Hmin. lia.
      * rewrite Z2Nat.id by lia. exact Hhit.
    + pose proof (timer_init_eq P w tim c x freq f a e _ _ _ _ _ _ _ _ _ _
                    Hin Hnum He Hhit Hmin) as E.
      cbv zeta in E. rewrite E. do 2 eexists. split; [reflexivity|].
      cbn [ctx mach periph nvic trace].
      split; [apply lookup_insert_eq|]. split; reflexivity.
  - intros Hmiss. split.
    + rewrite (init_loop_miss P (conf_dev c) freq 10 0 F_TIMER w).
      * reflexivity.
      * intros j Hj. apply Hmiss. lia.
    + pose proof (timer_init_nofreq P w tim c x freq f a _ _ _ _ _ _ _ _ _ _
                    Hin Hmiss) as E.
      cbv zeta in E. rewrite E. eexists. reflexivity.
  - pose proof (timer_init_eq P w tim c x 1000000 f a 4 _ _ _ _ _ _ _ _ _ _
                  Hin Hnum ltac:(lia) eq_refl F_TIMER_4) as E.
    cbv zeta in E. rewrite E. do 2 eexists. split; [reflexivity|].
    cbn [ctx mach periph nvic trace].
    split; [apply lookup_insert_eq | reflexivity].
  - pose proof (timer_init_nofreq P w tim c x 1500000 f a _ _ _ _ _ _ _ _ _ _
                  Hin F_TIMER_1500000) as E.
    cbv zeta in E. rewrite E. eexists. reflexivity.
Qed.

(** ** Reasoning about whatever a call returns *)

Lemma lookup_insert_same {A} (l : list A) (i : nat) (x0 x' x1 : A) :
  l !! i = Some x0 -> <[i := x']> l !! i = Some x1 -> x1 = x'.
Proof.
  intros H0 H1. rewrite list_lookup_insert_eq in H1 by (eapply lookup_lt_Some; eauto).
  congruence.
Qed.

Ltac wp_step :=
  lazymatch goal with
  | |- wp (bind _ _) _ _ => apply wp_bind
  | |- wp (ret _) _ _ => apply wp_ret
  | |- wp (undef _) _ _ => apply wp_undef
  | |- wp (conf _ _) _ _ => apply wp_conf; intros ? ?
  | |- wp (dev _ _) _ _ => apply wp_dev; intros ? ?
  | |- wp (ctx_get _) _ _ => apply wp_ctx_get; intros ? ?
  | |- wp (ctx_put _ _) _ _ => apply wp_ctx_put; intros ? ?
  | |- wp (reg_write _ _ _ _) _ _ => apply wp_reg_write; intros ? ? ? ?
  | |- wp (reg_read _ _ _) _ _ => apply wp_reg_read; intros ? ? ? ?
  | |- wp (shl_int _) _ _ => apply wp_shl_int; intros ?
  | |- wp (shl_u32 _ _) _ _ => apply wp_shl_u32; intros ?
  | |- wp (NVIC_EnableIRQ _) _ _ => apply wp_nvic
  | |- wp cortexm_isr_end _ _ => apply wp_isr_end
  | |- wp (call_cb _ _ _ _) _ _ => apply wp_call_cb; intros ?
  | |- wp (if _ then _ else _) _ _ => apply wp_if; intros ?
  end;
  cbn [ctx mach periph nvic trace] in *.

(** Entries read back after a write are the entry written. *)
Ltac same_entry :=
  repeat match goal with
         | H0 : ?l !! ?i = Some _, H1 : <[?i := ?x']> ?l !! ?i = Some ?x1 |- _ =>
             pose proof (lookup_insert_same l i _ x' x1 H0 H1); subst x1; clear H1
         | H0 : ?l !! ?i = Some ?x, H1 : ?l !! ?i = Some ?y |- _ =>
             assert (y = x) by congruence; subst y; clear H1
         end.

Section Frame.
Variable P : platform.

(** The search loop writes PRESCALER at most: the context array is not
    touched. *)
Lemma init_loop_ctx a freq (n : nat) : forall i cando w,
  wp (init_loop P a freq n i cando) (fun _ w' => ctx (mach w') = ctx (mach w)) w.
Proof.
  induction n as [|n IH]; intros i cando w; cbn [init_loop].
  - wp_step. reflexivity.
  - wp_step.
    + repeat wp_step. reflexivity.
    + apply IH.
Qed.

Lemma timer_init_ctx w tim x freq f a :
  ctx (mach w) !! tim = Some x ->
  wp (timer_init P tim freq f a)
     (fun r w' => r = 0 ->
        ctx (mach w') = <[tim := mk_ctx f a (flags x) (is_periodic x)]> (ctx (mach w))) w.
Proof.
  intros Hx. unfold timer_init.
  repeat wp_step; try discriminate; same_entry.
  all: eapply wp_mono; [apply init_loop_ctx|].
  all: intros i w3 Hkeep; cbv beta; cbn [ctx mach] in Hkeep.
  all: repeat wp_step; try discriminate.
  all: intros _; rewrite Hkeep; reflexivity.
Qed.

End Frame.

(** ** What initialisation leaves in place *)

(** C3 (as amended). A successful [timer_init] replaces the callback and
    its argument in the context entry of the instance; the armed and the
    periodic bitsets of that entry, and every other entry, are what they
    were before the call. *)
Theorem timer_init_keeps_bitsets (P : platform) (w w' : world) (tim : nat)
    (x : tim_ctx_t) (freq f a : Z) :
  ctx (mach w) !! tim = Some x ->
  timer_init P tim freq f a w = Ret 0 w' ->
  ctx (mach w') = <[tim := mk_ctx f a (flags x) (is_periodic x)]> (ctx (mach w)).
Proof.
  intros Hx Hrun.
  exact (wp_elim _ _ _ _ _ (timer_init_ctx P w tim x freq f a Hx) Hrun eq_refl).
Qed.

(** ** One-shot arming of a channel that was periodic *)

(** On a valid channel [timer_set_absolute] sets the armed bit and leaves
    the periodic bitset as it found it. *)
Lemma timer_set_absolute_bits (P : platform) (w : world) (tim : nat)
    (c : timer_conf_t) (x : tim_ctx_t) (d : NRF_TIMER_Type) (chan value : Z) :
  inst_at P w tim c x d -> conf_fits P c -> 0 <= chan < channels c ->
  exists w' x',
    timer_set_absolute P tim chan value w = Ret 0 w' /\
    ctx (mach w') !! tim = Some x' /\
    armed x' chan = true /\ is_periodic x' = is_periodic x.
Proof.
  intros Hin Hfit Hchan. destruct d as [run cnt pw sh ie md bm ps cc ev].
  pose proof (timer_set_absolute_eq P w tim c x chan value run cnt pw sh ie md bm ps cc ev
                Hin Hfit Hchan) as E.
  destruct Hin as (Hc & Hx & Hd). destruct Hfit as (Hfit & Hnum).
  eexists _, _. split; [exact E|]. cbn [ctx mach].
  split; [apply list_lookup_insert_eq; eapply lookup_lt_Some; eauto|].
  split; [|reflexivity].
  unfold armed. cbn [flags set_flags].
  rewrite testbit_set_u8, Z.eqb_refl by lia. apply orb_true_r.
Qed.

(** C2, at the input where the code departs from it: channel 0 of instance 0
    is armed periodically and then armed with [timer_set_absolute]; both
    calls return 0, and the channel is armed with its periodic bit still
    set. *)
Theorem set_absolute_after_periodic :
  exists w1 w2 x2,
    timer_set_periodic nrf52 0 0 100 0 (boot nrf52) = Ret 0 w1 /\
    timer_set_absolute nrf52 0 0 50 w1 = Ret 0 w2 /\
    ctx (mach w2) !! 0%nat = Some x2 /\
    armed x2 0 = true /\ periodic x2 0 = true.
Proof.
  eexists _, _, _. split; [vm_compute; reflexivity|].
  split; [vm_compute; reflexivity|].
  split; [vm_compute; reflexivity|].
  split; reflexivity.
Qed.

(** ** The invariant of the two bitsets *)

Lemma chan_inv_cb x f a :
  chan_inv x -> chan_inv (mk_ctx f a (flags x) (is_periodic x)).
Proof. intros H i Hi. exact (H i Hi). Qed.

Lemma chan_inv_arm x n :
  chan_inv x -> 0 <= n ->
  chan_inv (mk_ctx (cb x) (arg x) (u8 (Z.lor (flags x) (Z.shiftl 1 n))) (is_periodic x)).
Proof.
  intros H Hn i Hi Hp. pose proof (H i Hi Hp) as Ha.
  unfold armed, periodic in *. cbn [flags is_periodic set_flags] in *.
  rewrite testbit_u8, Z.lor_spec, Ha by lia. reflexivity.
Qed.

Lemma chan_inv_arm_periodic x n :
  chan_inv x -> 0 <= n ->
  chan_inv (mk_ctx (cb x) (arg x) (u8 (Z.lor (flags x) (Z.shiftl 1 n)))
                   (u8 (Z.lor (is_periodic x) (Z.shiftl 1 n)))).
Proof.
  intros H Hn i Hi. unfold armed, periodic. cbn [flags is_periodic].
  rewrite !testbit_u8, !Z.lor_spec by lia. intros Hp.
  apply orb_true_iff in Hp. destruct Hp as [Hp| ->]; [|apply orb_true_r].
  pose proof (H i Hi Hp) as Ha. unfold armed in Ha. rewrite Ha. reflexivity.
Qed.

Lemma chan_inv_disarm x n :
  chan_inv x -> 0 <= n ->
  chan_inv (mk_ctx (cb x) (arg x) (u8 (Z.land (flags x) (Z.lnot (Z.shiftl 1 n))))
                   (u8 (Z.land (is_periodic x) (Z.lnot (Z.shiftl 1 n))))).
Proof.
  intros H Hn i Hi. unfold armed, periodic. cbn [flags is_periodic].
  rewrite !testbit_u8, !Z.land_spec by lia. intros Hp.
  apply andb_true_iff in Hp. destruct Hp as [Hp ->].
  pose proof (H i Hi Hp) as Ha. unfold armed in Ha. rewrite Ha. reflexivity.
Qed.

Lemma chan_inv_fired x n :
  chan_inv x -> 0 <= n ->
  (Z.land (is_periodic x) (Z.shiftl 1 n) =? 0) = true ->
  chan_inv (mk_ctx (cb x) (arg x) (u8 (Z.land (flags x) (Z.lnot (Z.shiftl 1 n))))
                   (is_periodic x)).
Proof.
  intros H Hn Hone i Hi Hp. pose proof (H i Hi Hp) as Ha.
  unfold armed, periodic in *. cbn [flags is_periodic set_flags] in *.
  rewrite land_shl1_testbit in Hone by lia. apply negb_true_iff in Hone.
  rewrite testbit_clear_u8, Ha by lia.
  destruct (Z.eqb_spec n i) as [->|]; [congruence | reflexivity].
Qed.

Lemma store_inv_insert m p nv tim x' :
  store_inv m -> chan_inv x' ->
  store_inv (mk_machine (<[tim := x']> (ctx m)) p nv).
Proof.
  intros H Hx' t y. cbn [ctx]. intros Hy.
  apply list_lookup_insert_Some in Hy.
  destruct Hy as [(_ & <- & _)|(_ & Hy)]; [exact Hx'|].
  exact (H t y Hy).
Qed.

Lemma store_inv_ctx m l p nv :
  store_inv m -> l = ctx m -> store_inv (mk_machine l p nv).
Proof. intros H -> t y Hy. exact (H t y Hy). Qed.

Lemma store_inv_boot P : store_inv (mach (boot P)).
Proof.
  intros t y Hy. cbn [boot mach ctx] in Hy.
  apply lookup_replicate in Hy. destruct Hy as [-> _].
  intros i Hi Hp. unfold periodic in Hp. cbn [is_periodic] in Hp.
  rewrite Z.bits_0 in Hp. discriminate.
Qed.

(** Closes the goals left by [wp_step]: the context array is the old one,
    or the old one with one entry replaced by an entry that has the
    invariant. *)
Ltac inv_close Hinv :=
  same_entry;
  rewrite ?list_insert_insert_eq;
  unfold set_flags, set_is_periodic, set_cb_arg;
  cbn [cb arg flags is_periodic];
  first
    [ exact Hinv
    | eapply store_inv_ctx; [exact Hinv | reflexivity]
    | eapply store_inv_insert;
      [ exact Hinv
      | first [ apply chan_inv_cb | apply chan_inv_arm | apply chan_inv_arm_periodic
              | apply chan_inv_disarm | apply chan_inv_fired ];
        first [ lia | assumption | eapply Hinv; eassumption ] ] ].

Section Invariant.
Variable P : platform.
Variable cb_run : Z -> Z -> Z -> machine -> machine.
Hypothesis cb_keeps : forall f a i m, store_inv m -> store_inv (cb_run f a i m).

Local Abbreviation Inv := (fun _ w' => store_inv (mach w')).

Lemma init_loop_inv a freq (n : nat) : forall i cando w,
  store_inv (mach w) -> wp (init_loop P a freq n i cando) Inv w.
Proof.
  induction n as [|n IH]; intros i cando w Hinv; cbn [init_loop].
  - wp_step. exact Hinv.
  - wp_step; [|apply IH, Hinv]. repeat wp_step. inv_close Hinv.
Qed.

Lemma timer_init_inv tim freq f a w :
  store_inv (mach w) -> wp (timer_init P tim freq f a) Inv w.
Proof.
  intros Hinv. unfold timer_init.
  repeat wp_step; try exact Hinv.
  all: eapply wp_mono;
    [apply init_loop_inv; cbn [mach]; inv_close Hinv|].
  all: intros i w3 Hkeep; cbv beta in *.
  all: repeat wp_step; try exact Hkeep.
  all: eapply store_inv_ctx; [exact Hkeep | reflexivity].
Qed.

Lemma timer_set_absolute_inv tim chan value w :
  store_inv (mach w) -> wp (timer_set_absolute P tim chan value) Inv w.
Proof.
  intros Hinv. unfold timer_set_absolute.
  repeat wp_step; inv_close Hinv.
Qed.

Lemma timer_set_periodic_inv tim chan value tflags w :
  store_inv (mach w) -> wp (timer_set_periodic P tim chan value tflags) Inv w.
Proof.
  intros Hinv. unfold timer_set_periodic.
  repeat wp_step; inv_close Hinv.
Qed.

Lemma timer_clear_inv tim chan w :
  store_inv (mach w) -> wp (timer_clear P tim chan) Inv w.
Proof.
  intros Hinv. unfold timer_clear.
  repeat wp_step; inv_close Hinv.
Qed.

Lemma timer_read_inv tim w :
  store_inv (mach w) -> wp (timer_read P tim) Inv w.
Proof.
  intros Hinv. unfold timer_read. repeat wp_step; inv_close Hinv.
Qed.

Lemma timer_start_inv tim w :
  store_inv (mach w) -> wp (timer_start P tim) Inv w.
Proof.
  intros Hinv. unfold timer_start. repeat wp_step; inv_close Hinv.
Qed.

Lemma timer_stop_inv tim w :
  store_inv (mach w) -> wp (timer_stop P tim) Inv w.
Proof.
  intros Hinv. unfold timer_stop. repeat wp_step; inv_close Hinv.
Qed.

Lemma irq_chan_inv num i w :
  store_inv (mach w) -> wp (irq_chan P cb_run num i) Inv w.
Proof.
  intros Hinv. unfold irq_chan.
  repeat wp_step; try apply cb_keeps; inv_close Hinv.
Qed.

Lemma irq_loop_inv num (n : nat) : forall i w,
  store_inv (mach w) -> wp (irq_loop P cb_run num n i) Inv w.
Proof.
  induction n as [|n IH]; intros i w Hinv; cbn [irq_loop].
  - wp_step. exact Hinv.
  - wp_step. eapply wp_mono; [apply irq_chan_inv, Hinv|].
    intros u w1 H1. apply IH, H1.
Qed.

Lemma irq_handler_inv num w :
  store_inv (mach w) -> wp (irq_handler P cb_run num) Inv w.
Proof.
  intros Hinv. unfold irq_handler.
  do 3 wp_step. eapply wp_mono; [apply irq_loop_inv, Hinv|].
  intros u w1 H1. cbv beta in *. wp_step. exact H1.
Qed.

End Invariant.

(** ** One step of the interrupt handler *)

Section Dispatch.
Variable P : platform.
Variable cb_run : Z -> Z -> Z -> machine -> machine.

Lemma armed_test x i :
  0 <= i -> negb (Z.land (flags x) (Z.shiftl 1 i) =? 0) = armed x i.
Proof. intros Hi. rewrite land_shl1_testbit by lia. apply negb_involutive. Qed.

Lemma periodic_test x i :
  0 <= i -> (Z.land (is_periodic x) (Z.shiftl 1 i) =? 0) = negb (periodic x i).
Proof. intros Hi. apply land_shl1_testbit. lia. Qed.

(** Nothing pending on channel [i]: the flag is read, nothing else happens. *)
Lemma irq_chan_idle w num c d i :
  timer_config P !! num = Some c ->
  periph (mach w) !! conf_dev c = Some d ->
  0 <= i < CC_NUM P -> hw_events d i <> 1 ->
  irq_chan P cb_run num i w
  = Ret tt (mk_world (mach w) (trace w ++ [MmioRead (conf_dev c) (EVENTS_COMPARE i)])).
Proof.
  intros Hc Hd Hi Hev. unfold irq_chan. do 2 run1.
  replace (hw_events d i =? 1) with false by (symmetry; apply Z.eqb_neq; exact Hev).
  reflexivity.
Qed.

(** A pending event on a channel whose armed bit is clear: the flag is
    cleared, and the callback is not called. *)
Lemma irq_chan_stale w num c x i run cnt pw sh ie md bm ps cc ev :
  inst_at P w num c x (mk_timer run cnt pw sh ie md bm ps cc ev) ->
  0 <= i < CC_NUM P -> CC_NUM P <= 8 ->
  ev i = 1 -> armed x i = false ->
  irq_chan P cb_run num i w
  = Ret tt
      (mk_world
         (mk_machine (ctx (mach w))
            (<[conf_dev c := mk_timer run cnt pw sh ie md bm ps cc (upd ev i 0)]>
               (periph (mach w)))
            (nvic (mach w)))
         (trace w ++ [MmioRead (conf_dev c) (EVENTS_COMPARE i);
                      MmioWrite (conf_dev c) (EVENTS_COMPARE i) 0])).
Proof.
  intros (Hc & Hx & Hd) Hi Hnum Hev Harm. unfold irq_chan. do 2 run1.
  rewrite Hev, Z.eqb_refl. do 3 run1.
  rewrite armed_test, Harm by lia. tidy. reflexivity.
Qed.

(** A pending event on an armed one-shot channel: the flag is cleared, the
    armed bit is cleared, the interrupt source of the channel is disabled,
    and then the callback runs, in the machine so prepared. *)
Lemma irq_chan_oneshot w num c x i run cnt pw sh ie md bm ps cc ev :
  inst_at P w num c x (mk_timer run cnt pw sh ie md bm ps cc ev) ->
  0 <= i < CC_NUM P -> CC_NUM P <= 8 ->
  ev i = 1 -> armed x i = true -> periodic x i = false -> cb x <> 0 ->
  let a := conf_dev c in
  let m := Z.shiftl (TIMER_INTENSET_COMPARE0_Msk P) i mod 2 ^ 32 in
  irq_chan P cb_run num i w
  = Ret tt
      (mk_world
         (cb_run (cb x) (arg x) i
            (mk_machine
               (<[num := mk_ctx (cb x) (arg x)
                                (u8 (Z.land (flags x) (Z.lnot (Z.shiftl 1 i))))
                                (is_periodic x)]> (ctx (mach w)))
               (<[a := mk_timer run cnt pw sh (Z.land ie (Z.lnot m)) md bm ps cc
                                (upd ev i 0)]> (periph (mach w)))
               (nvic (mach w))))
         (trace w ++ [MmioRead a (EVENTS_COMPARE i); MmioWrite a (EVENTS_COMPARE i) 0;
                      MmioWrite a INTENCLR m; Callback (cb x) (arg x) i])).
Proof.
  intros (Hc & Hx & Hd) Hi Hnum Hev Harm Hper Hcb a m. subst a m.
  unfold irq_chan. do 2 run1.
  rewrite Hev, Z.eqb_refl. do 3 run1.
  rewrite armed_test, Harm by lia. do 2 run1.
  rewrite periodic_test, Hper by lia. cbn [negb].
  repeat run1. cbn [cb arg]. rewrite call_cb_eq by exact Hcb. tidy. reflexivity.
Qed.

(** A pending event on an armed periodic channel: the flag is cleared and
    the callback runs; the channel stays armed. *)
Lemma irq_chan_periodic w num c x i run cnt pw sh ie md bm ps cc ev :
  inst_at P w num c x (mk_timer run cnt pw sh ie md bm ps cc ev) ->
  0 <= i < CC_NUM P -> CC_NUM P <= 8 ->
  ev i = 1 -> armed x i = true -> periodic x i = true -> cb x <> 0 ->
  let a := conf_dev c in
  irq_chan P cb_run num i w
  = Ret tt
      (mk_world
         (cb_run (cb x) (arg x) i
            (mk_machine (ctx (mach w))
               (<[a := mk_timer run cnt pw sh ie md bm ps cc (upd ev i 0)]>
                  (periph (mach w)))
               (nvic (mach w))))
         (trace w ++ [MmioRead a (EVENTS_COMPARE i); MmioWrite a (EVENTS_COMPARE i) 0;
                      Callback (cb x) (arg x) i])).
Proof.
  intros (Hc & Hx & Hd) Hi Hnum Hev Harm Hper Hcb a. subst a.
  unfold irq_chan. do 2 run1.
  rewrite Hev, Z.eqb_refl. do 3 run1.
  rewrite armed_test, Harm by lia. do 2 run1.
  rewrite periodic_test, Hper by lia. cbn [negb].
  repeat run1. rewrite call_cb_eq by exact Hcb. tidy. reflexivity.
Qed.

End Dispatch.

(** ** The loop of the interrupt handler *)

Section Loop.
Variable P : platform.
Variable cb_run : Z -> Z -> Z -> machine -> machine.

Lemma irq_loop_app num (n1 n2 : nat) : forall i w,
  irq_loop P cb_run num (n1 + n2) i w
  = bind (irq_loop P cb_run num n1 i)
         (fun _ => irq_loop P cb_run num n2 (i + Z.of_nat n1)) w.
Proof.
  induction n1 as [|n1 IH]; intros i w.
  - cbn [irq_loop Nat.add]. rewrite Z.add_0_r. reflexivity.
  - cbn [irq_loop Nat.add]. rewrite bind_assoc_eq. unfold bind.
    destruct (irq_chan P cb_run num i w) as [u w1|]; [|reflexivity].
    rewrite IH. replace (i + 1 + Z.of_nat n1) with (i + Z.of_nat (S n1)) by lia.
    reflexivity.
Qed.

(** Iterations over channels with nothing pending only read the flags. *)
Lemma irq_loop_idle num c d (n : nat) : forall i w,
  timer_config P !! num = Some c ->
  periph (mach w) !! conf_dev c = Some d ->
  (forall j, i <= j < i + Z.of_nat n -> 0 <= j < CC_NUM P /\ hw_events d j <> 1) ->
  irq_loop P cb_run num n i w
  = Ret tt (mk_world (mach w) (trace w ++ idle_reads (conf_dev c) n i)).
Proof.
  induction n as [|n IH]; intros i w Hc Hd Hidle; cbn [irq_loop idle_reads].
  - rewrite app_nil_r. destruct w; reflexivity.
  - destruct (Hidle i ltac:(lia)) as [Hi Hev].
    rewrite (bind_ret_eq _ _ _ _ _ (irq_chan_idle P cb_run w num c d i Hc Hd Hi Hev)).
    rewrite IH; [| exact Hc | exact Hd | intros j Hj; apply Hidle; lia].
    cbn [mach trace]. rewrite <- app_assoc. reflexivity.
Qed.

Lemma idle_reads_no_callback a (n : nat) : forall i,
  List.filter is_callback (idle_reads a n i) = [].
Proof. induction n as [|n IH]; intros i; cbn; auto. Qed.

End Loop.

(** ** A one-shot channel fires once *)

Lemma upd_same f i v : upd f i v i = v.
Proof. unfold upd. rewrite Z.eqb_refl. reflexivity. Qed.

Lemma upd_other f i v j : j <> i -> upd f i v j = f j.
Proof. intros H. unfold upd. apply Z.eqb_neq in H. rewrite H. reflexivity. Qed.

Section OneShot.
Variable P : platform.
Variable cb_run : Z -> Z -> Z -> machine -> machine.

(** A run of the handler with a match pending on the armed one-shot channel
    [chan] and on no other channel, the callback leaving the context array
    and the peripherals alone. *)
Lemma irq_handler_oneshot w tim c x d chan :
  inst_at P w tim c x d -> conf_fits P c -> 0 <= chan < channels c ->
  armed x chan = true -> periodic x chan = false -> hw_events d chan = 1 ->
  cb x <> 0 ->
  (forall j, 0 <= j < channels c -> j <> chan -> hw_events d j <> 1) ->
  (forall m, ctx (cb_run (cb x) (arg x) chan m) = ctx m /\
             periph (cb_run (cb x) (arg x) chan m) = periph m) ->
  exists w3 evs x3 d3,
    irq_handler P cb_run tim w = Ret tt w3 /\
    trace w3 = trace w ++ evs /\
    List.filter is_callback evs = [Callback (cb x) (arg x) chan] /\
    ctx (mach w3) !! tim = Some x3 /\
    armed x3 chan = false /\ periodic x3 chan = false /\
    periph (mach w3) !! conf_dev c = Some d3 /\
    Z.land (hw_inten d3) (Z.shiftl (TIMER_INTENSET_COMPARE0_Msk P) chan mod 2 ^ 32) = 0 /\
    hw_events d3 chan = 0.
Proof.
  intros (Hc & Hx & Hd) Hfit Hchan Harm Hper Hev Hcb Hothers Hquiet.
  pose proof Hfit as (Hfit1 & Hnum).
  destruct d as [run cnt pw sh ie md bm ps cc ev]. cbn [hw_events] in Hev, Hothers.
  assert (Hlt : (tim < length (ctx (mach w)))%nat) by (eapply lookup_lt_Some; eauto).
  destruct (Hquiet
    (mk_machine
       (<[tim := mk_ctx (cb x) (arg x)
                   (u8 (Z.land (flags x) (Z.lnot (Z.shiftl 1 chan))))
                   (is_periodic x)]> (ctx (mach w)))
       (<[conf_dev c :=
            mk_timer run cnt pw sh
              (Z.land ie (Z.lnot (Z.shiftl (TIMER_INTENSET_COMPARE0_Msk P) chan mod 2 ^ 32)))
              md bm ps cc (upd ev chan 0)]> (periph (mach w)))
       (nvic (mach w)))) as [Qc Qp].
  cbn [ctx periph] in Qc, Qp.
  eexists _, _, _, _. split.
  { unfold irq_handler. run1.
    replace (Z.to_nat (channels c))
      with (Z.to_nat chan + S (Z.to_nat (channels c - chan - 1)))%nat by lia.
    erewrite bind_ext_eq by apply irq_loop_app.
    rewrite bind_assoc_eq.
    erewrite (bind_ret_eq (irq_loop _ _ _ _ _)).
    2:{ eapply irq_loop_idle; [exact Hc | exact Hd |].
        intros j Hj. cbn [hw_events]. split; [lia|]. apply Hothers; lia. }
    cbv beta. cbn [irq_loop]. rewrite bind_assoc_eq.
    replace (0 + Z.of_nat (Z.to_nat chan)) with chan by lia.
    erewrite (bind_ret_eq (irq_chan _ _ _ _)).
    2:{ pose proof (irq_chan_oneshot P cb_run) as E2. cbv zeta in E2.
        eapply E2 with (x := x); [|lia|lia|exact Hev|exact Harm|exact Hper|exact Hcb].
        split; [exact Hc|]. split; [exact Hx | exact Hd]. }
    cbv beta. cbn [ctx mach periph nvic trace].
    erewrite (bind_ret_eq (irq_loop _ _ _ _ _)).
    2:{ eapply irq_loop_idle; [exact Hc | cbn [mach]; rewrite Qp; apply lookup_insert_eq |].
        intros j Hj. cbn [hw_events]. split; [lia|].
        rewrite upd_other by lia. apply Hothers; lia. }
    cbv beta. unfold cortexm_isr_end. cbn [mach trace]. reflexivity. }
  cbn [mach trace].
  split; [rewrite <- !app_assoc; reflexivity|].
  split.
  { rewrite !List.filter_app, !idle_reads_no_callback. reflexivity. }
  rewrite Qc, Qp.
  split; [apply list_lookup_insert_eq, Hlt|].
  split.
  { unfold armed. cbn [flags].
    rewrite testbit_clear_u8, Z.eqb_refl by lia. apply andb_false_r. }
  split; [exact Hper|].
  split; [apply lookup_insert_eq|].
  cbn [hw_inten hw_events].
  split; [apply land_lnot_disjoint | apply upd_same].
Qed.

End OneShot.

(** C5. The step of the interrupt handler on a channel with a pending
    event, armed bit set and periodic bit clear, of an instance whose stored
    callback pointer is not null (one that [timer_init] has set up with a
    callback): it clears the event flag, clears the armed bit, writes the
    mask of the channel to INTENCLR, and only then calls the callback, which
    starts in a machine where the channel is idle and its interrupt source
    disabled. So, for a callback that does not touch the timer: a run of the handler with a match pending on an armed
    one-shot channel alone calls the callback exactly once, with the channel
    index, and returns with the channel idle; and that is what happens when
    a channel whose periodic bit is clear is armed with [timer_set_absolute]
    and one match is latched on it. *)
Theorem oneshot_fires_once (P : platform) (cb_run : Z -> Z -> Z -> machine -> machine)
    (tim : nat) (c : timer_conf_t) (chan : Z) :
  timer_config P !! tim = Some c -> conf_fits P c -> 0 <= chan < channels c ->
  let a := conf_dev c in
  let msk := Z.shiftl (TIMER_INTENSET_COMPARE0_Msk P) chan mod 2 ^ 32 in
  (forall w x d,
      ctx (mach w) !! tim = Some x -> periph (mach w) !! a = Some d ->
      hw_events d chan = 1 -> armed x chan = true -> periodic x chan = false ->
      cb x <> 0 ->
      exists m2 x2 d2,
        irq_chan P cb_run tim chan w
        = Ret tt (mk_world (cb_run (cb x) (arg x) chan m2)
                           (trace w ++ [MmioRead a (EVENTS_COMPARE chan);
                                        MmioWrite a (EVENTS_COMPARE chan) 0;
                                        MmioWrite a INTENCLR msk;
                                        Callback (cb x) (arg x) chan])) /\
        ctx m2 !! tim = Some x2 /\ armed x2 chan = false /\
        periph m2 !! a = Some d2 /\
        Z.land (hw_inten d2) msk = 0 /\ hw_events d2 chan = 0) /\
  (forall w x d,
      ctx (mach w) !! tim = Some x -> periph (mach w) !! a = Some d ->
      hw_events d chan = 1 -> armed x chan = true -> periodic x chan = false ->
      cb x <> 0 ->
      (forall j, 0 <= j < channels c -> j <> chan -> hw_events d j <> 1) ->
      (forall m, ctx (cb_run (cb x) (arg x) chan m) = ctx m /\
                 periph (cb_run (cb x) (arg x) chan m) = periph m) ->
      exists w3 evs x3 d3,
        irq_handler P cb_run tim w = Ret tt w3 /\
        trace w3 = trace w ++ evs /\
        List.filter is_callback evs = [Callback (cb x) (arg x) chan] /\
        ctx (mach w3) !! tim = Some x3 /\
        armed x3 chan = false /\ periodic x3 chan = false /\
        periph (mach w3) !! a = Some d3 /\
        Z.land (hw_inten d3) msk = 0 /\ hw_events d3 chan = 0) /\
  (forall w x d value,
      ctx (mach w) !! tim = Some x -> periph (mach w) !! a = Some d ->
      periodic x chan = false -> cb x <> 0 ->
      (forall j, 0 <= j < channels c -> j <> chan -> hw_events d j <> 1) ->
      (forall m, ctx (cb_run (cb x) (arg x) chan m) = ctx m /\
                 periph (cb_run (cb x) (arg x) chan m) = periph m) ->
      exists w1 w3 evs x3 d3,
        timer_set_absolute P tim chan value w = Ret 0 w1 /\
        irq_handler P cb_run tim (world_match a chan w1) = Ret tt w3 /\
        trace w3 = trace w1 ++ evs /\
        List.filter is_callback evs = [Callback (cb x) (arg x) chan] /\
        ctx (mach w3) !! tim = Some x3 /\
        armed x3 chan = false /\ periodic x3 chan = false /\
        periph (mach w3) !! a = Some d3 /\ Z.land (hw_inten d3) msk = 0).
Proof.
  intros Hc Hfit Hchan a msk. subst a msk. pose proof Hfit as (Hfit1 & Hnum).
  split; [|split].
  - intros w x [run cnt pw sh ie md bm ps cc ev] Hx Hd Hev Harm Hper Hcb.
    cbn [hw_events] in Hev.
    pose proof (irq_chan_oneshot P cb_run w tim c x chan run cnt pw sh ie md bm ps cc ev
                  (conj Hc (conj Hx Hd)) ltac:(lia) ltac:(lia) Hev Harm Hper Hcb) as E.
    cbv zeta in E. eexists _, _, _. split; [exact E|].
    cbn [ctx periph].
    split; [apply list_lookup_insert_eq; eapply lookup_lt_Some; eauto|].
    split; [unfold armed; cbn [flags];
            rewrite testbit_clear_u8, Z.eqb_refl by lia; apply andb_false_r|].
    split; [apply lookup_insert_eq|]. cbn [hw_inten hw_events].
    split; [apply land_lnot_disjoint | apply upd_same].
  - intros w x d Hx Hd Hev Harm Hper Hcb Hothers Hquiet.
    exact (irq_handler_oneshot P cb_run w tim c x d chan (conj Hc (conj Hx Hd))
             Hfit Hchan Harm Hper Hev Hcb Hothers Hquiet).
  - intros w x [run cnt pw sh ie md bm ps cc ev] value Hx Hd Hper Hcb Hothers Hquiet.
    cbn [hw_events] in Hothers.
    assert (Hlt : (tim < length (ctx (mach w)))%nat) by (eapply lookup_lt_Some; eauto).
    pose proof (timer_set_absolute_eq P w tim c x chan value run cnt pw sh ie md bm ps cc ev
                  (conj Hc (conj Hx Hd)) Hfit Hchan) as E1.
    set (x1 := set_flags x (u8 (Z.lor (flags x) (Z.shiftl 1 chan)))) in *.
    assert (Harm1 : armed x1 chan = true).
    { unfold armed, x1. cbn [flags set_flags].
      rewrite testbit_set_u8, Z.eqb_refl by lia. apply orb_true_r. }
    match type of E1 with _ = Ret 0 ?w => set (w1 := w) in * end.
    destruct (irq_handler_oneshot P cb_run (world_match (conf_dev c) chan w1) tim c x1
                (mk_timer run cnt pw sh
                   (Z.lor ie (Z.shiftl (TIMER_INTENSET_COMPARE0_Msk P) chan mod 2 ^ 32))
                   md bm ps (upd cc chan value) (upd (upd ev chan 0) chan 1)) chan)
      as (w3 & evs & x3 & d3 & H1 & H2 & H3 & H4 & H5 & H6 & H7 & H8 & _);
      try assumption.
    + split; [exact Hc|]. unfold world_match, w1. cbn [ctx mach periph nvic trace].
      rewrite lookup_insert_eq, insert_insert_eq. cbn [ctx mach periph hw_match].
      split; [apply list_lookup_insert_eq, Hlt | apply lookup_insert_eq].
    + apply upd_same.
    + intros j Hj Hne. cbn [hw_events]. rewrite !upd_other by lia. apply Hothers; lia.
    + exists w1, w3, evs, x3, d3. split; [exact E1|]. split; [exact H1|].
      split.
      { rewrite H2. unfold world_match, w1. cbn [ctx mach periph nvic trace].
        rewrite lookup_insert_eq. reflexivity. }
      repeat split; assumption.
Qed.

(** ** A disarmed channel gets no callback *)

Section Stale.
Variable P : platform.
Variable cb_run : Z -> Z -> Z -> machine -> machine.
Variables (tim : nat) (chan : Z).
Hypothesis cb_no_arm :
  forall f a i m, disarmed tim chan m -> disarmed tim chan (cb_run f a i m).

(** The callbacks on [chan] recorded so far are [T], and [chan] is
    disarmed. *)
Local Abbreviation Quiet T :=
  (fun _ w' => disarmed tim chan (mach w') /\
               List.filter (callback_on chan) (trace w') = T).

Lemma filter_snoc_other T t e :
  List.filter (callback_on chan) t = T -> callback_on chan e = false ->
  List.filter (callback_on chan) (t ++ [e]) = T.
Proof.
  intros Ht He. rewrite List.filter_app, Ht. cbn. rewrite He. apply app_nil_r.
Qed.

Lemma disarmed_ctx m l p nv :
  disarmed tim chan m -> l = ctx m -> disarmed tim chan (mk_machine l p nv).
Proof. intros H -> y Hy. exact (H y Hy). Qed.

Lemma disarmed_fired m x i p nv :
  disarmed tim chan m -> ctx m !! tim = Some x -> 0 <= i ->
  disarmed tim chan
    (mk_machine (<[tim := set_flags x (u8 (Z.land (flags x) (Z.lnot (Z.shiftl 1 i))))]> (ctx m))
                p nv).
Proof.
  intros H Hx Hi y. cbn [ctx]. intros Hy.
  rewrite list_lookup_insert_eq in Hy by (eapply lookup_lt_Some; eauto).
  injection Hy as <-. pose proof (H x Hx) as Hclr.
  unfold armed in *. cbn [flags set_flags].
  destruct (Z.le_gt_cases 0 chan) as [H0|H0]; [|apply Z.testbit_neg_r; lia].
  destruct (Z.lt_ge_cases chan 8) as [H8|H8]; [|apply testbit_u8_high; lia].
  rewrite testbit_clear_u8, Hclr by lia. reflexivity.
Qed.

Lemma irq_chan_quiet T i w :
  disarmed tim chan (mach w) ->
  List.filter (callback_on chan) (trace w) = T ->
  wp (irq_chan P cb_run tim i) (Quiet T) w.
Proof.
  intros Hdis Ht. unfold irq_chan.
  repeat wp_step; same_entry.
  all: try match goal with
           | Ha : negb (Z.land (flags ?x) (Z.shiftl 1 ?j) =? 0) = true,
             Hx : ctx (mach _) !! _ = Some ?x |- _ =>
               rewrite armed_test in Ha by lia;
               assert (Hne : (j =? chan) = false)
                 by (apply Z.eqb_neq; intros ->; rewrite (Hdis x Hx) in Ha; discriminate)
           end.
  all: split;
    [ first [ exact Hdis
            | eapply disarmed_ctx; [exact Hdis | reflexivity]
            | apply cb_no_arm;
              first [ eapply disarmed_ctx; [exact Hdis | reflexivity]
                    | eapply disarmed_fired; [exact Hdis | eassumption | lia] ] ]
    | repeat (apply filter_snoc_other; [|first [reflexivity | exact Hne]]); exact Ht ].
Qed.

Lemma irq_loop_quiet T (n : nat) : forall i w,
  disarmed tim chan (mach w) ->
  List.filter (callback_on chan) (trace w) = T ->
  wp (irq_loop P cb_run tim n i) (Quiet T) w.
Proof.
  induction n as [|n IH]; intros i w Hdis Ht; cbn [irq_loop].
  - wp_step. split; assumption.
  - wp_step. eapply wp_mono; [apply irq_chan_quiet; eassumption|].
    intros u w1 [H1 H2]. apply IH; assumption.
Qed.

Lemma irq_handler_quiet T w :
  disarmed tim chan (mach w) ->
  List.filter (callback_on chan) (trace w) = T ->
  wp (irq_handler P cb_run tim) (Quiet T) w.
Proof.
  intros Hdis Ht. unfold irq_handler.
  do 3 wp_step. eapply wp_mono; [apply irq_loop_quiet; eassumption|].
  intros u w1 [H1 H2]. cbv beta. wp_step.
  split; [exact H1 | apply filter_snoc_other; [exact H2 | reflexivity]].
Qed.

End Stale.

(** *** The handler returns *)

Section Returns.
Variable P : platform.
Variable cb_run : Z -> Z -> Z -> machine -> machine.
Variables (tim : nat) (c : timer_conf_t).
Hypothesis Hc : timer_config P !! tim = Some c.
Hypothesis Hnum : CC_NUM P <= 8.
Hypothesis cb_present :
  forall f b i m, present tim (conf_dev c) m -> present tim (conf_dev c) (cb_run f b i m).
Hypothesis cb_callable :
  forall f b i m, callable tim m -> callable tim (cb_run f b i m).

Lemma present_upd m x' d' :
  present tim (conf_dev c) m ->
  present tim (conf_dev c)
    (mk_machine (<[tim := x']> (ctx m)) (<[conf_dev c := d']> (periph m)) (nvic m)).
Proof.
  intros [[x Hx] _]. split; cbn [ctx periph].
  - exists x'. apply list_lookup_insert_eq. eapply lookup_lt_Some; eauto.
  - exists d'. apply lookup_insert_eq.
Qed.

Lemma present_upd_dev m d' :
  present tim (conf_dev c) m ->
  present tim (conf_dev c)
    (mk_machine (ctx m) (<[conf_dev c := d']> (periph m)) (nvic m)).
Proof.
  intros [Hx _]. split; cbn [ctx periph]; [exact Hx|].
  exists d'. apply lookup_insert_eq.
Qed.

Lemma callable_upd m x x' p nv :
  callable tim m -> ctx m !! tim = Some x -> cb x' = cb x ->
  callable tim (mk_machine (<[tim := x']> (ctx m)) p nv).
Proof.
  intros H Hx E y. cbn [ctx]. intros Hy.
  rewrite list_lookup_insert_eq in Hy by (eapply lookup_lt_Some; eauto).
  injection Hy as <-. rewrite E. exact (H x Hx).
Qed.

Lemma callable_ctx m p nv :
  callable tim m -> callable tim (mk_machine (ctx m) p nv).
Proof. intros H y Hy. exact (H y Hy). Qed.

Lemma irq_chan_returns i w :
  present tim (conf_dev c) (mach w) -> callable tim (mach w) -> 0 <= i < CC_NUM P ->
  exists w', irq_chan P cb_run tim i w = Ret tt w' /\
             present tim (conf_dev c) (mach w') /\ callable tim (mach w').
Proof.
  intros Hpre Hcall Hi. pose proof Hpre as [[x Hx] [d Hd]].
  pose proof (Hcall x Hx) as Hcb.
  destruct (Z.eq_dec (hw_events d i) 1) as [Hev|Hev].
  - destruct d as [run cnt pw sh ie md bm ps cc ev]. cbn [hw_events] in Hev.
    destruct (armed x i) eqn:Harm; [destruct (periodic x i) eqn:Hper|].
    + pose proof (irq_chan_periodic P cb_run w tim c x i run cnt pw sh ie md bm ps cc ev
                    (conj Hc (conj Hx Hd)) Hi Hnum Hev Harm Hper Hcb) as E.
      cbv zeta in E. eexists. split; [exact E|].
      cbn [mach]. split.
      * apply cb_present, present_upd_dev, Hpre.
      * apply cb_callable, callable_ctx, Hcall.
    + pose proof (irq_chan_oneshot P cb_run w tim c x i run cnt pw sh ie md bm ps cc ev
                    (conj Hc (conj Hx Hd)) Hi Hnum Hev Harm Hper Hcb) as E.
      cbv zeta in E. eexists. split; [exact E|].
      cbn [mach]. split.
      * apply cb_present, present_upd, Hpre.
      * apply cb_callable. eapply callable_upd; [exact Hcall | exact Hx | reflexivity].
    + eexists. split.
      * exact (irq_chan_stale P cb_run w tim c x i run cnt pw sh ie md bm ps cc ev
                 (conj Hc (conj Hx Hd)) Hi Hnum Hev Harm).
      * cbn [mach]. split; [apply present_upd_dev, Hpre | apply callable_ctx, Hcall].
  - eexists. split; [exact (irq_chan_idle P cb_run w tim c d i Hc Hd Hi Hev)|].
    split; [exact Hpre | exact Hcall].
Qed.

Lemma irq_loop_returns (n : nat) : forall i w,
  present tim (conf_dev c) (mach w) -> callable tim (mach w) ->
  0 <= i -> i + Z.of_nat n <= CC_NUM P ->
  exists w', irq_loop P cb_run tim n i w = Ret tt w' /\
             present tim (conf_dev c) (mach w') /\ callable tim (mach w').
Proof.
  induction n as [|n IH]; intros i w Hpre Hcall Hi Hn; cbn [irq_loop].
  - exists w. split; [reflexivity | split; assumption].
  - destruct (irq_chan_returns i w Hpre Hcall ltac:(lia)) as (w1 & E1 & Hpre1 & Hcall1).
    rewrite (bind_ret_eq _ _ _ _ _ E1). apply IH; [exact Hpre1 | exact Hcall1 | lia | lia].
Qed.

Lemma irq_handler_returns w :
  present tim (conf_dev c) (mach w) -> callable tim (mach w) ->
  0 <= channels c <= CC_NUM P ->
  exists w', irq_handler P cb_run tim w = Ret tt w'.
Proof.
  intros Hpre Hcall Hch. unfold irq_handler.
  rewrite (bind_ret_eq _ _ _ _ _ (conf_eq P tim c w Hc)).
  destruct (irq_loop_returns (Z.to_nat (channels c)) 0 w Hpre Hcall ltac:(lia) ltac:(lia))
    as (w1 & E1 & _).
  rewrite (bind_ret_eq _ _ _ _ _ E1). eexists. reflexivity.
Qed.

End Returns.

(** C6. The step of the interrupt handler on a channel with a pending event
    and a clear armed bit clears the event flag and does nothing else: the
    context array is untouched and no callback is called. [timer_clear]
    leaves the channel disarmed, and from then on, whatever events the
    hardware has latched, no run of the handler records a callback for that
    channel, as long as the callbacks of the other channels do not arm it;
    and where the instance has a callback (its stored pointer is not null,
    and the callbacks neither null it nor take the instance away) the
    handler does run to its end. *)
Theorem disarmed_channel_no_callback (P : platform)
    (cb_run : Z -> Z -> Z -> machine -> machine)
    (tim : nat) (c : timer_conf_t) (chan : Z) :
  timer_config P !! tim = Some c -> conf_fits P c -> 0 <= chan < channels c ->
  let a := conf_dev c in
  (forall w x d,
      ctx (mach w) !! tim = Some x -> periph (mach w) !! a = Some d ->
      hw_events d chan = 1 -> armed x chan = false ->
      exists d',
        irq_chan P cb_run tim chan w
        = Ret tt (mk_world (mk_machine (ctx (mach w)) (<[a := d']> (periph (mach w)))
                                       (nvic (mach w)))
                           (trace w ++ [MmioRead a (EVENTS_COMPARE chan);
                                        MmioWrite a (EVENTS_COMPARE chan) 0])) /\
        hw_events d' chan = 0) /\
  (forall w x d,
      ctx (mach w) !! tim = Some x -> periph (mach w) !! a = Some d ->
      exists w1,
        timer_clear P tim chan w = Ret 0 w1 /\
        disarmed tim chan (mach w1) /\
        ((forall f b i m, disarmed tim chan m -> disarmed tim chan (cb_run f b i m)) ->
         forall w2,
           ctx (mach w2) = ctx (mach w1) ->
           (forall w3,
              irq_handler P cb_run tim w2 = Ret tt w3 ->
              List.filter (callback_on chan) (trace w3)
              = List.filter (callback_on chan) (trace w2) /\
              disarmed tim chan (mach w3)) /\
           (cb x <> 0 ->
            (forall f b i m, present tim a m -> present tim a (cb_run f b i m)) ->
            (forall f b i m, callable tim m -> callable tim (cb_run f b i m)) ->
            (exists d2, periph (mach w2) !! a = Some d2) ->
            exists w3,
              irq_handler P cb_run tim w2 = Ret tt w3 /\
              List.filter (callback_on chan) (trace w3)
              = List.filter (callback_on chan) (trace w2) /\
              disarmed tim chan (mach w3)))).
Proof.
  intros Hc Hfit Hchan a. subst a. pose proof Hfit as (Hfit1 & Hnum). split.
  - intros w x [run cnt pw sh ie md bm ps cc ev] Hx Hd Hev Harm.
    cbn [hw_events] in Hev. eexists. split.
    + exact (irq_chan_stale P cb_run w tim c x chan run cnt pw sh ie md bm ps cc ev
               (conj Hc (conj Hx Hd)) ltac:(lia) ltac:(lia) Hev Harm).
    + apply upd_same.
  - intros w x [run cnt pw sh ie md bm ps cc ev] Hx Hd.
    pose proof (timer_clear_eq P w tim c x chan run cnt pw sh ie md bm ps cc ev
                  (conj Hc (conj Hx Hd)) Hfit Hchan) as E.
    cbv zeta in E. eexists. split; [exact E|].
    assert (Hlt : (tim < length (ctx (mach w)))%nat) by (eapply lookup_lt_Some; eauto).
    assert (Hdis : forall l p nv,
               l = <[tim := mk_ctx (cb x) (arg x)
                              (u8 (Z.land (flags x) (Z.lnot (Z.shiftl 1 chan))))
                              (u8 (Z.land (is_periodic x) (Z.lnot (Z.shiftl 1 chan))))]>
                     (ctx (mach w)) ->
               disarmed tim chan (mk_machine l p nv)).
    { intros l p nv -> y. cbn [ctx]. intros Hy.
      rewrite list_lookup_insert_eq in Hy by exact Hlt.
      injection Hy as <-. unfold armed. cbn [flags].
      rewrite testbit_clear_u8, Z.eqb_refl by lia. apply andb_false_r. }
    cbn [mach]. split; [apply Hdis; reflexivity|].
    intros Hcb w2 Hsame. cbn [ctx] in Hsame.
    assert (Hdis2 : disarmed tim chan (mach w2)).
    { destruct w2 as [[l p nv] t]. cbn [mach ctx] in *. apply Hdis, Hsame. }
    assert (Hnever : forall w3,
               irq_handler P cb_run tim w2 = Ret tt w3 ->
               List.filter (callback_on chan) (trace w3)
               = List.filter (callback_on chan) (trace w2) /\
               disarmed tim chan (mach w3)).
    { intros w3 Hrun.
      pose proof (wp_elim _ _ _ _ _
                    (irq_handler_quiet P cb_run tim chan Hcb _ w2 Hdis2 eq_refl) Hrun)
        as [H1 H2].
      split; [exact H2 | exact H1]. }
    split; [exact Hnever|].
    intros Hnz Hcbp Hcbc Hdev.
    assert (Hpre : present tim (conf_dev c) (mach w2)).
    { split; [|exact Hdev]. rewrite Hsame. eexists.
      apply list_lookup_insert_eq, Hlt. }
    assert (Hcall : callable tim (mach w2)).
    { intros y Hy. rewrite Hsame, list_lookup_insert_eq in Hy by exact Hlt.
      injection Hy as <-. exact Hnz. }
    destruct (irq_handler_returns P cb_run tim c Hc ltac:(lia) Hcbp Hcbc w2 Hpre Hcall
                ltac:(lia)) as (w3 & Hrun).
    exists w3. split; [exact Hrun | apply Hnever, Hrun].
Qed.

(** ** The invariant, for every operation *)

Lemma wp_preserves {A} (I : machine -> Prop) (m : M A) :
  (forall w, I (mach w) -> wp m (fun _ w' => I (mach w')) w) -> preserves I m.
Proof. intros H w r w' Hi Hrun. exact (wp_elim _ _ _ _ _ (H w Hi) Hrun). Qed.

(** C7. A periodic bit is set only where the armed bit is set: this holds
    of the zero-initialised context array, and whenever it holds before one
    of [timer_init], [timer_set_absolute], [timer_set_periodic],
    [timer_clear], [timer_read], [timer_start], [timer_stop], one step of
    the interrupt handler or a whole run of it, it holds in the machine the
    call returns in; the callback, which runs inside the handler, is taken
    to keep it too. *)
Theorem periodic_only_if_armed (P : platform)
    (cb_run : Z -> Z -> Z -> machine -> machine) :
  (forall f a i m, store_inv m -> store_inv (cb_run f a i m)) ->
  store_inv (mach (boot P)) /\
  (forall tim freq f a, preserves store_inv (timer_init P tim freq f a)) /\
  (forall tim chan value, preserves store_inv (timer_set_absolute P tim chan value)) /\
  (forall tim chan value tflags,
      preserves store_inv (timer_set_periodic P tim chan value tflags)) /\
  (forall tim chan, preserves store_inv (timer_clear P tim chan)) /\
  (forall tim, preserves store_inv (timer_read P tim)) /\
  (forall tim, preserves store_inv (timer_start P tim)) /\
  (forall tim, preserves store_inv (timer_stop P tim)) /\
  (forall num i, preserves store_inv (irq_chan P cb_run num i)) /\
  (forall num, preserves store_inv (irq_handler P cb_run num)).
Proof.
  intros Hcb. split; [apply store_inv_boot|].
  repeat split; intros; apply wp_preserves; intros w Hinv.
  - apply timer_init_inv, Hinv.
  - apply timer_set_absolute_inv, Hinv.
  - apply timer_set_periodic_inv, Hinv.
  - apply timer_clear_inv, Hinv.
  - apply timer_read_inv, Hinv.
  - apply timer_start_inv, Hinv.
  - apply timer_stop_inv, Hinv.
  - apply irq_chan_inv; assumption.
  - apply irq_handler_inv; assumption.
Qed.

(** * The concrete board *)

Lemma after_ret {A} (m : M A) w r w' : m w = Ret r w' -> after m w = w'.
Proof. intros H. unfold after. rewrite H. reflexivity. Qed.

Lemma nrf52_fits : conf_fits nrf52 nrf52_timer0.
Proof. unfold conf_fits. cbn. lia. Qed.

Lemma boot_inst : inst_at nrf52 (boot nrf52) 0 nrf52_timer0 (mk_ctx 0 0 0 0) timer_reset.
Proof. repeat split; reflexivity. Qed.

(** [timer_init] returns 0 on instance 0 of the board at start-up, and
    leaves callback 7 and argument 8 in its context entry. *)
Lemma ready_run :
  timer_init nrf52 0 1000000 7 8 (boot nrf52) = Ret 0 ready_world.
Proof. vm_compute. reflexivity. Qed.

Lemma ready_ctx : ctx (mach ready_world) !! 0%nat = Some (mk_ctx 7 8 0 0).
Proof. vm_compute. reflexivity. Qed.

Lemma ready_dev :
  periph (mach ready_world) !! conf_dev nrf52_timer0
  = Some (default timer_reset (periph (mach ready_world) !! conf_dev nrf52_timer0)).
Proof. vm_compute. reflexivity. Qed.

Lemma ready_no_event j :
  hw_events (default timer_reset (periph (mach ready_world) !! conf_dev nrf52_timer0)) j
  <> 1.
Proof.
  assert (E : hw_events (default timer_reset
                           (periph (mach ready_world) !! conf_dev nrf52_timer0))
              = upd (upd (upd (fun _ => 0) 0 0) 1 0) 2 0)
    by (vm_compute; reflexivity).
  rewrite E. unfold upd.
  destruct (j =? 2); [lia|]. destruct (j =? 1); [lia|]. destruct (j =? 0); lia.
Qed.

(** An instance index past the table, and a channel index at the channel
    count, are refused without a trace. *)
Lemma invalid_index_rejected_witness :
  (TIMER_NUMOF nrf52 <= 3)%nat /\ channels nrf52_timer0 <= 3 /\
  timer_init nrf52 3 1000000 5 6 (boot nrf52) = Ret (-1) (boot nrf52) /\
  timer_set_absolute nrf52 0 3 50 (boot nrf52) = Ret (-1) (boot nrf52) /\
  timer_set_periodic nrf52 0 3 50 0 (boot nrf52) = Ret (-1) (boot nrf52) /\
  timer_clear nrf52 0 3 (boot nrf52) = Ret (-1) (boot nrf52).
Proof.
  assert (H1 : (TIMER_NUMOF nrf52 <= 3)%nat) by (cbv; lia).
  assert (H2 : channels nrf52_timer0 <= 3) by (cbn; lia).
  destruct (invalid_index_rejected nrf52 (boot nrf52)) as [Hinit Hchan].
  destruct (Hchan 0%nat nrf52_timer0 3 eq_refl H2) as (Ha & Hp & Hc).
  split; [exact H1|]. split; [exact H2|].
  split; [exact (Hinit 3%nat 1000000 5 6 H1)|].
  split; [exact (Ha 50)|]. split; [exact (Hp 50 0) | exact Hc].
Defined.

(** C1, where it fails: with three instances configured, instance index 3
    is outside the table. [timer_set_absolute], [timer_set_periodic] and
    [timer_clear] do not test the instance index: none of them returns -1
    with the machine untouched, they read [timer_config] out of bounds.
    [timer_read], [timer_start] and [timer_stop] test nothing and have no
    failure value to return. *)
Lemma instance_index_unchecked :
  timer_set_absolute nrf52 3 0 0 (boot nrf52) <> Ret (-1) (boot nrf52) /\
  timer_set_periodic nrf52 3 0 0 0 (boot nrf52) <> Ret (-1) (boot nrf52) /\
  timer_clear nrf52 3 0 (boot nrf52) <> Ret (-1) (boot nrf52) /\
  timer_read nrf52 3 (boot nrf52) = Undef OutOfBounds /\
  timer_start nrf52 3 (boot nrf52) = Undef OutOfBounds /\
  timer_stop nrf52 3 (boot nrf52) = Undef OutOfBounds.
Proof.
  repeat split; try reflexivity; intros H; vm_compute in H; discriminate H.
Qed.

(** C3, where it fails: instance 0 has channel 0 armed and periodic; a
    successful [timer_init] of the instance stores the new callback and
    argument, and both bits of channel 0 are still set. *)
Lemma timer_init_bitsets_survive :
  exists w' x',
    timer_init nrf52 0 1000000 5 6 periodic_world = Ret 0 w' /\
    ctx (mach w') !! 0%nat = Some x' /\
    cb x' = 5 /\ arg x' = 6 /\
    armed x' 0 = true /\ periodic x' 0 = true /\
    flags x' <> 0 /\ is_periodic x' <> 0.
Proof.
  eexists _, _. split; [vm_compute; reflexivity|].
  split; [vm_compute; reflexivity|].
  repeat split; try reflexivity; cbn; lia.
Qed.

Lemma timer_init_keeps_bitsets_witness :
  exists w',
    ctx (mach periodic_world) !! 0%nat = Some (mk_ctx 7 8 1 1) /\
    timer_init nrf52 0 1000000 5 6 periodic_world = Ret 0 w' /\
    ctx (mach w') = <[0%nat := mk_ctx 5 6 1 1]> (ctx (mach periodic_world)).
Proof.
  eexists.
  assert (Hx : ctx (mach periodic_world) !! 0%nat = Some (mk_ctx 7 8 1 1))
    by (vm_compute; reflexivity).
  split; [exact Hx|].
  assert (Hrun : timer_init nrf52 0 1000000 5 6 periodic_world
                 = Ret 0 (after (timer_init nrf52 0 1000000 5 6) periodic_world))
    by (vm_compute; reflexivity).
  split; [exact Hrun|].
  exact (timer_init_keeps_bitsets nrf52 periodic_world _ 0 (mk_ctx 7 8 1 1)
           1000000 5 6 Hx Hrun).
Defined.

Lemma frequency_resolver_witness :
  0 <= 4 <= 9 /\ F_TIMER / 2 ^ 4 = 1000000 /\
  (forall e, 0 <= e <= 9 -> F_TIMER / 2 ^ e <> 1500000) /\
  (exists w' d',
     timer_init nrf52 0 1000000 5 6 (boot nrf52) = Ret 0 w' /\
     periph (mach w') !! conf_dev nrf52_timer0 = Some d' /\
     hw_prescaler d' = 4 /\ hw_running d' = true) /\
  (exists w', timer_init nrf52 0 1500000 5 6 (boot nrf52) = Ret (-1) w').
Proof.
  assert (Hnum : 3 <= CC_NUM nrf52) by (cbn; lia).
  destruct (frequency_resolver nrf52 (boot nrf52) 0 nrf52_timer0 (mk_ctx 0 0 0 0)
              timer_reset 1000000 5 6 boot_inst Hnum) as (Hhit & _).
  destruct (frequency_resolver nrf52 (boot nrf52) 0 nrf52_timer0 (mk_ctx 0 0 0 0)
              timer_reset 1500000 5 6 boot_inst Hnum) as (_ & Hmiss & _).
  assert (He : 0 <= 4 <= 9) by lia.
  split; [exact He|]. split; [reflexivity|].
  split; [exact F_TIMER_1500000|].
  split.
  - exact (proj2 (Hhit 4 He eq_refl F_TIMER_4)).
  - exact (proj2 (Hmiss F_TIMER_1500000)).
Defined.

Lemma oneshot_fires_once_witness :
  timer_init nrf52 0 1000000 7 8 (boot nrf52) = Ret 0 ready_world /\
  exists w1 w3 evs x3,
    timer_set_absolute nrf52 0 1 50 ready_world = Ret 0 w1 /\
    irq_handler nrf52 cb_none 0 (world_match (conf_dev nrf52_timer0) 1 w1) = Ret tt w3 /\
    trace w3 = trace w1 ++ evs /\
    List.filter is_callback evs = [Callback 7 8 1] /\
    ctx (mach w3) !! 0%nat = Some x3 /\ armed x3 1 = false.
Proof.
  split; [exact ready_run|].
  assert (Hchan : 0 <= 1 < channels nrf52_timer0) by (cbn; lia).
  destruct (oneshot_fires_once nrf52 cb_none 0 nrf52_timer0 1 eq_refl nrf52_fits Hchan)
    as (_ & _ & Hscen).
  assert (Hcb : cb (mk_ctx 7 8 0 0) <> 0) by (cbn; lia).
  assert (Hquiet : forall m,
             ctx (cb_none (cb (mk_ctx 7 8 0 0)) (arg (mk_ctx 7 8 0 0)) 1 m) = ctx m /\
             periph (cb_none (cb (mk_ctx 7 8 0 0)) (arg (mk_ctx 7 8 0 0)) 1 m) = periph m)
    by (intros; split; reflexivity).
  destruct (Hscen ready_world (mk_ctx 7 8 0 0) _ 50
              ready_ctx ready_dev eq_refl Hcb
              (fun j _ _ => ready_no_event j) Hquiet)
    as (w1 & w3 & evs & x3 & d3 & H1 & H2 & H3 & H4 & H5 & H6 & _).
  exists w1, w3, evs, x3. repeat split; assumption.
Defined.

Lemma disarmed_channel_no_callback_witness :
  exists w1 w3,
    timer_clear nrf52 0 1 ready_fired_world = Ret 0 w1 /\
    disarmed 0 1 (mach w1) /\
    irq_handler nrf52 cb_none 0 w1 = Ret tt w3 /\
    List.filter (callback_on 1) (trace w3) = List.filter (callback_on 1) (trace w1) /\
    disarmed 0 1 (mach w3).
Proof.
  assert (Hchan : 0 <= 1 < channels nrf52_timer0) by (cbn; lia).
  destruct (disarmed_channel_no_callback nrf52 cb_none 0 nrf52_timer0 1
              eq_refl nrf52_fits Hchan) as [_ Hclear].
  assert (Hx : ctx (mach ready_fired_world) !! 0%nat = Some (mk_ctx 7 8 2 0))
    by (vm_compute; reflexivity).
  assert (Hd : periph (mach ready_fired_world) !! conf_dev nrf52_timer0
               = Some (default timer_reset
                         (periph (mach ready_fired_world) !! conf_dev nrf52_timer0)))
    by (vm_compute; reflexivity).
  destruct (Hclear ready_fired_world _ _ Hx Hd) as (w1 & H1 & H2 & H3).
  assert (Hcb : forall f b i m, disarmed 0 1 m -> disarmed 0 1 (cb_none f b i m))
    by (intros f b i m H; exact H).
  assert (Hcbp : forall f b i m,
             present 0 (conf_dev nrf52_timer0) m ->
             present 0 (conf_dev nrf52_timer0) (cb_none f b i m))
    by (intros f b i m H; exact H).
  assert (Hcbc : forall f b i m, callable 0 m -> callable 0 (cb_none f b i m))
    by (intros f b i m H; exact H).
  assert (Hnz : cb (mk_ctx 7 8 2 0) <> 0) by (cbn; lia).
  assert (Hdev : exists d2, periph (mach w1) !! conf_dev nrf52_timer0 = Some d2).
  { rewrite <- (after_ret _ _ _ _ H1). vm_compute. eexists. reflexivity. }
  destruct (H3 Hcb w1 eq_refl) as (_ & Hruns).
  destruct (Hruns Hnz Hcbp Hcbc Hdev) as (w3 & H4 & H5 & H6).
  exists w1, w3. repeat split; assumption.
Defined.

Lemma cb_rearm_keeps P :
  forall f a i m, store_inv m -> store_inv (cb_rearm P f a i m).
Proof.
  intros f a i m Hinv. unfold cb_rearm.
  pose proof (timer_set_absolute_inv P 0 i a (mk_world m []) Hinv) as H.
  unfold wp in H. destruct (timer_set_absolute P 0 i a (mk_world m [])); assumption.
Qed.

Lemma ready_fired_world_inv : store_inv (mach ready_fired_world).
Proof.
  intros tim x Hx.
  assert (E : ctx (mach ready_fired_world)
              = [mk_ctx 7 8 2 0; mk_ctx 0 0 0 0; mk_ctx 0 0 0 0])
    by (vm_compute; reflexivity).
  rewrite E in Hx. clear E.
  assert (Hp : is_periodic x = 0).
  { destruct tim as [|[|[|tim]]]; cbn in Hx; try discriminate;
      injection Hx as <-; reflexivity. }
  intros i Hi Hbit. unfold periodic in Hbit. rewrite Hp, Z.bits_0 in Hbit. discriminate.
Qed.

Lemma periodic_only_if_armed_witness :
  store_inv (mach (boot nrf52)) /\
  (exists w0,
     timer_init nrf52 0 1000000 7 8 (boot nrf52) = Ret 0 w0 /\ store_inv (mach w0)) /\
  exists w',
    irq_handler nrf52 (cb_rearm nrf52) 0 ready_fired_world = Ret tt w' /\
    List.filter is_callback (trace w') = [Callback 7 8 1] /\
    ctx (mach w') !! 0%nat = Some (mk_ctx 7 8 2 0) /\
    store_inv (mach w').
Proof.
  destruct (periodic_only_if_armed nrf52 (cb_rearm nrf52) (cb_rearm_keeps nrf52))
    as (Hboot & Hinit & _ & _ & _ & _ & _ & _ & _ & Hirq).
  split; [exact Hboot|].
  split.
  { exists ready_world. split; [exact ready_run|].
    exact (Hinit 0%nat 1000000 7 8 (boot nrf52) 0 ready_world Hboot ready_run). }
  assert (Hrun : irq_handler nrf52 (cb_rearm nrf52) 0 ready_fired_world
                 = Ret tt (after (irq_handler nrf52 (cb_rearm nrf52) 0) ready_fired_world))
    by (vm_compute; reflexivity).
  eexists. split; [exact Hrun|].
  split; [vm_compute; reflexivity|].
  split; [vm_compute; reflexivity|].
  exact (Hirq 0%nat ready_fired_world tt _ ready_fired_world_inv Hrun).
Defined.

Lemma set_periodic_stop_restart_witness :
  Z.land 6 (TIM_FLAG_SET_STOPPED nrf52) <> 0 /\
  Z.land 2 (TIM_FLAG_SET_STOPPED nrf52) = 0 /\
  (exists w' d' evs,
     timer_set_periodic nrf52 0 1 100 6 (boot nrf52) = Ret 0 w' /\
     periph (mach w') !! conf_dev nrf52_timer0 = Some d' /\
     trace w' = trace (boot nrf52) ++ MmioWrite (conf_dev nrf52_timer0) TASKS_STOP 1 :: evs /\
     hw_running d' = false /\
     List.filter (is_start (conf_dev nrf52_timer0)) evs = []) /\
  (exists w' d',
     timer_set_periodic nrf52 0 1 100 2 (boot nrf52) = Ret 0 w' /\
     periph (mach w') !! conf_dev nrf52_timer0 = Some d' /\
     hw_running d' = true).
Proof.
  assert (Hchan : 0 <= 1 < channels nrf52_timer0) by (cbn; lia).
  assert (H6 : Z.land 6 (TIM_FLAG_SET_STOPPED nrf52) <> 0) by (vm_compute; discriminate).
  assert (H2 : Z.land 2 (TIM_FLAG_SET_STOPPED nrf52) = 0) by reflexivity.
  split; [exact H6|]. split; [exact H2|]. split.
  - destruct (set_periodic_stop_restart nrf52 (boot nrf52) 0 nrf52_timer0 (mk_ctx 0 0 0 0)
                timer_reset 1 100 6 boot_inst nrf52_fits Hchan)
      as (w' & d' & evs & Hr & Hd & Ht & Hstop & _).
    destruct (Hstop H6) as [Hrun Hno].
    exists w', d', evs. repeat split; assumption.
  - destruct (set_periodic_stop_restart nrf52 (boot nrf52) 0 nrf52_timer0 (mk_ctx 0 0 0 0)
                timer_reset 1 100 2 boot_inst nrf52_fits Hchan)
      as (w' & d' & evs & Hr & Hd & Ht & _ & Hgo).
    destruct (Hgo H2) as [Hrun _].
    exists w', d'. repeat split; assumption.
Defined.

Lemma zero_ctx_u8 : ctx_u8 (mk_ctx 0 0 0 0).
Proof. split; cbn; lia. Qed.

Lemma timer_clear_idempotent_witness :
  (exists w1 w2 x1,
     timer_clear nrf52 0 1 fired_world = Ret 0 w1 /\
     ctx (mach w1) !! 0%nat = Some x1 /\
     armed x1 1 = false /\ periodic x1 1 = false /\
     timer_clear nrf52 0 1 w1 = Ret 0 w2 /\ mach w2 = mach w1) /\
  (exists w1,
     armed (mk_ctx 0 0 0 0) 1 = false /\
     timer_clear nrf52 0 1 (boot nrf52) = Ret 0 w1 /\
     ctx (mach w1) = ctx (mach (boot nrf52))).
Proof.
  assert (Hchan : 0 <= 1 < channels nrf52_timer0) by (cbn; lia).
  assert (Hin : inst_at nrf52 fired_world 0 nrf52_timer0 (mk_ctx 0 0 2 0)
                  (default timer_reset
                     (periph (mach fired_world) !! conf_dev nrf52_timer0)))
    by (repeat split; vm_compute; reflexivity).
  split.
  - destruct (timer_clear_idempotent nrf52 fired_world 0 nrf52_timer0 _ _ 1
                Hin nrf52_fits Hchan)
      as (w1 & x1 & d1 & H1 & H2 & _ & H3 & H4 & _ & _ & _ & w2 & H5 & H6).
    exists w1, w2, x1. repeat split; assumption.
  - destruct (timer_clear_idempotent nrf52 (boot nrf52) 0 nrf52_timer0 _ _ 1
                boot_inst nrf52_fits Hchan)
      as (w1 & x1 & d1 & H1 & _ & _ & _ & _ & _ & _ & Hnoop & _).
    exists w1. split; [reflexivity|]. split; [exact H1|].
    exact (Hnoop zero_ctx_u8 (store_inv_boot nrf52 0%nat (mk_ctx 0 0 0 0) eq_refl)
             eq_refl).
Defined.

Lemma negative_channel_accepted_witness :
  0 <= channels nrf52_timer0 /\ -1 < 0 /\
  timer_set_absolute nrf52 0 (-1) 50 (boot nrf52) = Undef ShiftRange /\
  timer_set_periodic nrf52 0 (-1) 50 0 (boot nrf52) = Undef ShiftRange /\
  timer_clear nrf52 0 (-1) (boot nrf52) = Undef ShiftRange.
Proof.
  assert (H0 : 0 <= channels nrf52_timer0) by (cbn; lia).
  assert (H1 : -1 < 0) by lia.
  destruct (negative_channel_accepted nrf52 (boot nrf52) 0 nrf52_timer0 (mk_ctx 0 0 0 0)
              timer_reset (-1) boot_inst H0 H1) as (_ & Ha & Hp & Hc).
  split; [exact H0|]. split; [exact H1|].
  split; [exact (Ha 50)|]. split; [exact (Hp 50 0) | exact Hc].
Defined.

(** * More of the driver *)

(** ** Reading, starting and stopping *)

(** X1. [timer_stop] writes the SHUTDOWN task and nothing else, never the
    STOP task, and leaves the timer stopped; [timer_start] writes the START
    task and nothing else and leaves it running. Neither touches the context
    array, so a stop followed by a start finds every channel as it was
    armed. *)
Theorem stop_then_start (P : platform) (w : world) (tim : nat)
    (c : timer_conf_t) (x : tim_ctx_t) (d : NRF_TIMER_Type) :
  inst_at P w tim c x d ->
  let a := conf_dev c in
  exists w1 w2 d1 d2,
    timer_stop P tim w = Ret tt w1 /\
    trace w1 = trace w ++ [MmioWrite a TASKS_SHUTDOWN 1] /\
    periph (mach w1) !! a = Some d1 /\ hw_running d1 = false /\
    ctx (mach w1) = ctx (mach w) /\
    timer_start P tim w1 = Ret tt w2 /\
    trace w2 = trace w1 ++ [MmioWrite a TASKS_START 1] /\
    periph (mach w2) !! a = Some d2 /\ hw_running d2 = true /\
    ctx (mach w2) = ctx (mach w) /\
    hw_inten d2 = hw_inten d /\ hw_shorts d2 = hw_shorts d /\
    hw_cc d2 = hw_cc d /\ hw_events d2 = hw_events d.
Proof.
  intros (Hc & Hx & Hd) a. subst a. destruct d as [run cnt pw sh ie md bm ps cc ev].
  eexists _, _, _, _.
  split; [unfold timer_stop; do 1 run1; eapply reg_write_eq; [exact Hd | reflexivity]|].
  cbn [ctx mach periph nvic trace].
  split; [reflexivity|]. split; [apply lookup_insert_eq|].
  split; [reflexivity|]. split; [reflexivity|].
  split; [unfold timer_start; do 1 run1; eapply reg_write_eq;
          [cbn [mach periph]; apply lookup_insert_eq | reflexivity]|].
  cbn [ctx mach periph nvic trace].
  split; [reflexivity|]. split; [apply lookup_insert_eq|].
  repeat split; reflexivity.
Qed.

(** X2. [timer_read] triggers a capture into the compare register just
    past the channels of the instance and returns the counter. The compare
    values of the channels, the pending-event flags, the interrupt mask and
    the context array are left alone. With a table that declares as many
    channels as the peripheral has compare registers, the capture register
    does not exist and the access is out of bounds. *)
Theorem timer_read_captures (P : platform) (w : world) (tim : nat)
    (c : timer_conf_t) (x : tim_ctx_t) (d : NRF_TIMER_Type) :
  inst_at P w tim c x d -> 0 <= channels c ->
  let a := conf_dev c in
  (channels c < CC_NUM P ->
   exists w' d',
     timer_read P tim w = Ret (hw_counter d) w' /\
     trace w' = trace w ++ [MmioWrite a (TASKS_CAPTURE (channels c)) 1;
                            MmioRead a (CC (channels c))] /\
     periph (mach w') !! a = Some d' /\
     hw_cc d' (channels c) = hw_counter d /\
     (forall j, j <> channels c -> hw_cc d' j = hw_cc d j) /\
     hw_events d' = hw_events d /\ hw_inten d' = hw_inten d /\
     hw_running d' = hw_running d /\ hw_counter d' = hw_counter d /\
     ctx (mach w') = ctx (mach w)) /\
  (CC_NUM P <= channels c -> timer_read P tim w = Undef OutOfBounds).
Proof.
  intros (Hc & Hx & Hd) Hch a. subst a. destruct d as [run cnt pw sh ie md bm ps cc ev].
  split.
  - intros Hlt. eexists _, _.
    split.
    { unfold timer_read. do 3 run1.
      eapply reg_read_eq; [cbn [mach periph]; apply lookup_insert_eq|].
      cbn [hw_read hw_cc]. change (1 =? 0) with false. cbv iota.
      rewrite in_cc_true by lia. rewrite upd_same. reflexivity. }
    cbn [ctx mach periph nvic trace].
    split; [rewrite <- app_assoc; reflexivity|].
    split; [apply lookup_insert_eq|]. cbn [hw_cc hw_events hw_inten hw_running hw_counter].
    change (1 =? 0) with false. cbv iota.
    split; [apply upd_same|].
    split; [intros j Hj; apply upd_other; exact Hj|].
    repeat split; reflexivity.
  - intros Hge. unfold timer_read. do 2 run1. apply bind_undef_eq.
    unfold reg_write. rewrite Hd. cbn [hw_write].
    replace (in_cc P (channels c)) with false; [reflexivity|].
    symmetry. unfold in_cc. apply andb_false_iff. right. apply Z.ltb_ge. lia.
Qed.

(** ** Initialisation, refused and repeated *)

(** X3. A frequency that none of the ten candidates equals is found out
    only after the first half of [timer_init] has run: the call returns -1
    with the new callback and argument already stored and the timer stopped
    and cleared; the prescaler is not written, the interrupt line is not
    enabled and the timer is not started again. *)
Theorem timer_init_refused (P : platform) (w : world) (tim : nat)
    (c : timer_conf_t) (x : tim_ctx_t) (d : NRF_TIMER_Type) (freq f a : Z) :
  inst_at P w tim c x d ->
  (forall e, 0 <= e <= 9 -> F_TIMER / 2 ^ e <> freq) ->
  exists w' d',
    timer_init P tim freq f a w = Ret (-1) w' /\
    ctx (mach w') !! tim = Some (mk_ctx f a (flags x) (is_periodic x)) /\
    periph (mach w') !! conf_dev c = Some d' /\
    hw_running d' = false /\ hw_counter d' = 0 /\
    hw_prescaler d' = hw_prescaler d /\
    nvic (mach w') = nvic (mach w) /\
    List.filter (is_start (conf_dev c)) (trace w')
    = List.filter (is_start (conf_dev c)) (trace w).
Proof.
  intros Hin Hmiss. destruct d as [run cnt pw sh ie md bm ps cc ev].
  pose proof (timer_init_nofreq P w tim c x freq f a _ _ _ _ _ _ _ _ _ _ Hin Hmiss) as E.
  cbv zeta in E. destruct Hin as (Hc & Hx & Hd).
  eexists _, _. split; [exact E|]. cbn [ctx mach periph nvic trace].
  split; [apply list_lookup_insert_eq; eapply lookup_lt_Some; eauto|].
  split; [apply lookup_insert_eq|].
  cbn [hw_running hw_counter hw_prescaler].
  repeat split.
  rewrite !List.filter_app. destruct (CPU_FAM_NRF51 P); cbn; apply app_nil_r.
Qed.

(** X4. A successful [timer_init] leaves the timer running from zero with
    the interrupt line enabled and the pending flags of channels 0, 1 and 2
    cleared; it does not write the interrupt mask of the channels, the
    shorts or the compare values, and the pending flags of channels 3 and
    up stay as they were. *)
Theorem timer_init_leaves_channels (P : platform) (w : world) (tim : nat)
    (c : timer_conf_t) (x : tim_ctx_t) (d : NRF_TIMER_Type) (freq f a e : Z) :
  inst_at P w tim c x d -> 3 <= CC_NUM P ->
  0 <= e <= 9 -> F_TIMER / 2 ^ e = freq ->
  (forall e', 0 <= e' < e -> F_TIMER / 2 ^ e' <> freq) ->
  exists w' d',
    timer_init P tim freq f a w = Ret 0 w' /\
    periph (mach w') !! conf_dev c = Some d' /\
    hw_running d' = true /\ hw_counter d' = 0 /\
    nvic (mach w') = irqn c :: nvic (mach w) /\
    hw_inten d' = hw_inten d /\ hw_shorts d' = hw_shorts d /\ hw_cc d' = hw_cc d /\
    (forall j, 0 <= j <= 2 -> hw_events d' j = 0) /\
    (forall j, ~ 0 <= j <= 2 -> hw_events d' j = hw_events d j).
Proof.
  intros Hin Hnum He Hhit Hmin. destruct d as [run cnt pw sh ie md bm ps cc ev].
  pose proof (timer_init_eq P w tim c x freq f a e _ _ _ _ _ _ _ _ _ _
                Hin Hnum He Hhit Hmin) as E.
  cbv zeta in E. eexists _, _. split; [exact E|]. cbn [ctx mach periph nvic trace].
  split; [apply lookup_insert_eq|].
  cbn [hw_running hw_counter hw_inten hw_shorts hw_cc hw_events].
  repeat split.
  - intros j Hj. assert (Hc : j = 0 \/ j = 1 \/ j = 2) by lia.
    destruct Hc as [->|[->| ->]]; reflexivity.
  - intros j Hj. rewrite !upd_other by lia. reflexivity.
Qed.

(** X5. Initialising an instance again does not disarm it: a one-shot
    channel armed before a successful [timer_init] fires on its next match
    as before, once, into the callback and argument the second
    initialisation stored (a callback, not a null pointer). *)
Theorem reinit_keeps_channel_armed (P : platform)
    (cb_run : Z -> Z -> Z -> machine -> machine) (w : world) (tim : nat)
    (c : timer_conf_t) (x : tim_ctx_t) (d : NRF_TIMER_Type) (chan freq f a e : Z) :
  inst_at P w tim c x d -> conf_fits P c -> 0 <= chan < channels c ->
  armed x chan = true -> periodic x chan = false ->
  0 <= e <= 9 -> F_TIMER / 2 ^ e = freq ->
  (forall e', 0 <= e' < e -> F_TIMER / 2 ^ e' <> freq) ->
  f <> 0 ->
  (forall j, 3 <= j < channels c -> j <> chan -> hw_events d j <> 1) ->
  (forall m, ctx (cb_run f a chan m) = ctx m /\ periph (cb_run f a chan m) = periph m) ->
  exists w1 w3 evs x3,
    timer_init P tim freq f a w = Ret 0 w1 /\
    irq_handler P cb_run tim (world_match (conf_dev c) chan w1) = Ret tt w3 /\
    trace w3 = trace w1 ++ evs /\
    List.filter is_callback evs = [Callback f a chan] /\
    ctx (mach w3) !! tim = Some x3 /\ armed x3 chan = false.
Proof.
  intros Hin Hfit Hchan Harm Hper He Hhit Hmin Hf Hothers Hquiet.
  pose proof Hfit as (Hfit1 & Hnum).
  destruct d as [run cnt pw sh ie md bm ps cc ev]. cbn [hw_events] in Hothers.
  pose proof (timer_init_eq P w tim c x freq f a e _ _ _ _ _ _ _ _ _ _
                Hin ltac:(lia) He Hhit Hmin) as E1.
  cbv zeta in E1. destruct Hin as (Hc & Hx & Hd).
  assert (Hlt : (tim < length (ctx (mach w)))%nat) by (eapply lookup_lt_Some; eauto).
  match type of E1 with _ = Ret 0 ?w => set (w1 := w) in * end.
  destruct (irq_handler_oneshot P cb_run (world_match (conf_dev c) chan w1) tim c
              (set_cb_arg x f a)
              (mk_timer true 0 (if CPU_FAM_NRF51 P then 1 else pw) sh ie
                 (TIMER_MODE_MODE_Timer P) (bitmode c) e cc
                 (upd (upd (upd (upd ev 0 0) 1 0) 2 0) chan 1)) chan)
    as (w3 & evs & x3 & d3 & H1 & H2 & H3 & H4 & H5 & _); try assumption.
  - split; [exact Hc|]. unfold world_match, w1. cbn [ctx mach periph nvic trace].
    rewrite lookup_insert_eq, insert_insert_eq. cbn [ctx mach periph hw_match].
    split; [apply list_lookup_insert_eq, Hlt | apply lookup_insert_eq].
  - apply upd_same.
  - intros j Hj Hne. cbn [hw_events]. rewrite upd_other by lia.
    destruct (Z.eq_dec j 2) as [->|]; [rewrite upd_same; lia|rewrite upd_other by lia].
    destruct (Z.eq_dec j 1) as [->|]; [rewrite upd_same; lia|rewrite upd_other by lia].
    destruct (Z.eq_dec j 0) as [->|]; [rewrite upd_same; lia|rewrite upd_other by lia].
    apply Hothers; lia.
  - exists w1, w3, evs, x3. split; [exact E1|]. split; [exact H1|].
    split.
    { rewrite H2. unfold world_match, w1. cbn [ctx mach periph nvic trace].
      rewrite lookup_insert_eq. reflexivity. }
    repeat split; assumption.
Qed.

(** ** What a run of the handler records *)

Lemma callback_chans_app t1 t2 :
  callback_chans (t1 ++ t2) = callback_chans t1 ++ callback_chans t2.
Proof.
  induction t1 as [|e t1 IH]; [reflexivity|].
  destruct e; cbn [callback_chans app]; rewrite ?IH; reflexivity.
Qed.

Lemma increasing_from_weaken lo lo' l :
  lo' <= lo -> increasing_from lo l -> increasing_from lo' l.
Proof. destruct l as [|i l]; cbn; [auto|]. intros H [H1 H2]. split; [lia | exact H2]. Qed.

Section Recorded.
Variable P : platform.
Variable cb_run : Z -> Z -> Z -> machine -> machine.
Variables (num : nat) (c : timer_conf_t).
Hypothesis Hc : timer_config P !! num = Some c.

(** One iteration, whatever the callback does: accesses to the flag of the
    channel and to INTENCLR of this peripheral, and at most one callback,
    for this channel. *)
Lemma irq_chan_trace i w :
  wp (irq_chan P cb_run num i)
     (fun _ w' => exists evs,
          trace w' = trace w ++ evs /\
          Forall (loop_event (conf_dev c)) evs /\
          (callback_chans evs = [] \/ callback_chans evs = [i])) w.
Proof.
  unfold irq_chan. repeat wp_step.
  all: repeat match goal with
              | H : timer_config P !! num = Some ?c0 |- _ =>
                  lazymatch c0 with
                  | c => fail
                  | _ => assert (c0 = c) by congruence; subst c0
                  end
              end.
  all: rewrite <- ?app_assoc; cbn [app]; eexists; split; [reflexivity|].
  all: split; [repeat constructor | cbn [callback_chans]; auto].
Qed.

Lemma irq_loop_trace (n : nat) : forall i w,
  wp (irq_loop P cb_run num n i)
     (fun _ w' => exists evs,
          trace w' = trace w ++ evs /\
          Forall (loop_event (conf_dev c)) evs /\
          increasing_from i (callback_chans evs) /\
          Forall (fun j => j < i + Z.of_nat n) (callback_chans evs)) w.
Proof.
  induction n as [|n IH]; intros i w; cbn [irq_loop].
  - wp_step. exists []. rewrite app_nil_r. repeat split; constructor.
  - wp_step. eapply wp_mono; [apply irq_chan_trace|].
    intros u w1 (evs1 & Ht1 & Hf1 & Hcb1). cbv beta.
    eapply wp_mono; [apply IH|].
    intros u' w2 (evs2 & Ht2 & Hf2 & Hinc2 & Hlt2). cbv beta.
    exists (evs1 ++ evs2). rewrite Ht2, Ht1, <- app_assoc.
    split; [reflexivity|]. split; [apply Forall_app; split; assumption|].
    rewrite callback_chans_app.
    assert (Hlt2' : Forall (fun j => j < i + Z.of_nat (S n)) (callback_chans evs2)).
    { eapply Forall_impl; [exact Hlt2|]. cbv beta. intros j Hj. lia. }
    destruct Hcb1 as [-> | ->]; cbn [app increasing_from].
    + split; [eapply increasing_from_weaken; [|exact Hinc2]; lia | exact Hlt2'].
    + split; [split; [lia | exact Hinc2]|]. constructor; [lia | exact Hlt2'].
Qed.

Lemma irq_handler_trace w :
  0 <= channels c ->
  wp (irq_handler P cb_run num)
     (fun _ w' => exists evs,
          trace w' = trace w ++ evs ++ [IsrEnd] /\
          Forall (loop_event (conf_dev c)) evs /\
          increasing_from 0 (callback_chans evs) /\
          Forall (fun j => j < channels c) (callback_chans evs)) w.
Proof.
  intros Hch. unfold irq_handler. do 2 wp_step.
  assert (c0 = c) by congruence. subst c0. wp_step.
  eapply wp_mono; [apply irq_loop_trace|].
  intros u w1 (evs & Ht & Hf & Hinc & Hlt). cbv beta. wp_step.
  exists evs. rewrite Ht, app_assoc. split; [reflexivity|].
  split; [exact Hf|]. split; [exact Hinc|].
  eapply Forall_impl; [exact Hlt|]. cbv beta. intros j Hj. lia.
Qed.

End Recorded.

(** X6. Whatever the callback does, one run of the handler calls it at most
    once per channel, in increasing order of the channel index, and only
    for indices below the channel count of the instance. *)
Theorem handler_callbacks_in_order (P : platform)
    (cb_run : Z -> Z -> Z -> machine -> machine) (num : nat) (c : timer_conf_t)
    (w w' : world) :
  timer_config P !! num = Some c -> 0 <= channels c ->
  irq_handler P cb_run num w = Ret tt w' ->
  exists evs,
    trace w' = trace w ++ evs ++ [IsrEnd] /\
    increasing_from 0 (callback_chans evs) /\
    Forall (fun j => j < channels c) (callback_chans evs).
Proof.
  intros Hc Hch Hrun.
  destruct (wp_elim _ _ _ _ _ (irq_handler_trace P cb_run num c Hc w Hch) Hrun)
    as (evs & Ht & _ & Hinc & Hlt).
  exists evs. repeat split; assumption.
Qed.

(** X7. The register accesses of an interrupt vector itself, those of the
    callbacks it calls left aside: a callback is application code, it may
    access any register (it may arm a channel again), and the trace records
    its call only, not what it does. Between the calls, each vector touches
    the peripheral of its own instance only, and of it only the pending flags
    (read, or written with 0) and INTENCLR: the code of the vector never
    starts or stops the timer and never writes a compare value, the shorts or
    the prescaler. The interrupt epilogue is signalled once, as the last
    thing the vector does. *)
Theorem isr_accesses (P : platform) (cb_run : Z -> Z -> Z -> machine -> machine)
    (w w' : world) :
  let runs (isr : M unit) (num : nat) :=
    forall c, timer_config P !! num = Some c -> isr w = Ret tt w' ->
              exists evs, trace w' = trace w ++ evs ++ [IsrEnd] /\
                          Forall (loop_event (conf_dev c)) evs in
  runs (TIMER_0_ISR P cb_run) 0%nat /\ runs (TIMER_1_ISR P cb_run) 1%nat /\
  runs (TIMER_2_ISR P cb_run) 2%nat /\ runs (TIMER_3_ISR P cb_run) 3%nat.
Proof.
  intros runs. subst runs. cbv beta.
  assert (H : forall num c, timer_config P !! num = Some c ->
                irq_handler P cb_run num w = Ret tt w' ->
                exists evs, trace w' = trace w ++ evs ++ [IsrEnd] /\
                            Forall (loop_event (conf_dev c)) evs).
  { intros num c Hc Hrun.
    assert (Hwp : wp (irq_handler P cb_run num)
                     (fun _ w' => exists evs,
                          trace w' = trace w ++ evs ++ [IsrEnd] /\
                          Forall (loop_event (conf_dev c)) evs) w).
    { unfold irq_handler. do 2 wp_step.
      assert (c0 = c) by congruence. subst c0. wp_step.
      eapply wp_mono; [apply (irq_loop_trace P cb_run num c Hc)|].
      intros u w1 (evs & Ht & Hf & _). cbv beta. wp_step.
      exists evs. rewrite Ht, app_assoc. split; [reflexivity | exact Hf]. }
    exact (wp_elim _ _ _ _ _ Hwp Hrun). }
  repeat split; intros c Hc Hrun; exact (H _ c Hc Hrun).
Qed.

(** ** The handler consumes what is pending *)

Lemma same_but_events_refl d : same_but_events d d.
Proof. repeat split. Qed.

Lemma same_but_events_trans d1 d2 d3 :
  same_but_events d1 d2 -> same_but_events d2 d3 -> same_but_events d1 d3.
Proof.
  unfold same_but_events.
  intros (A1 & A2 & A3 & A4 & A5 & A6 & A7 & A8) (B1 & B2 & B3 & B4 & B5 & B6 & B7 & B8).
  repeat split; congruence.
Qed.

Section Drain.
Variable P : platform.
Variable cb_run : Z -> Z -> Z -> machine -> machine.
Variables (tim : nat) (c : timer_conf_t).
Hypothesis Hc : timer_config P !! tim = Some c.
Hypothesis Hnum : CC_NUM P <= 8.
Hypothesis cb_hw : forall f b i m, periph (cb_run f b i m) = periph m.
Hypothesis cb_ctx :
  forall f b i m, (exists x, ctx m !! tim = Some x) ->
                  exists x', ctx (cb_run f b i m) !! tim = Some x'.
Hypothesis cb_callable :
  forall f b i m, callable tim m -> callable tim (cb_run f b i m).

(** Interrupt sources enabled in [d'] were enabled in [d]. *)
Local Abbreviation inten_within d d' :=
  (forall k, Z.testbit (hw_inten d') k = true -> Z.testbit (hw_inten d) k = true).

Lemma irq_chan_drain i w d :
  periph (mach w) !! conf_dev c = Some d ->
  (exists x, ctx (mach w) !! tim = Some x) ->
  callable tim (mach w) ->
  0 <= i < CC_NUM P ->
  exists w' d',
    irq_chan P cb_run tim i w = Ret tt w' /\
    periph (mach w') !! conf_dev c = Some d' /\
    (exists x', ctx (mach w') !! tim = Some x') /\
    callable tim (mach w') /\
    same_but_events d d' /\ inten_within d d' /\
    (forall j, hw_events d' j
               = if (j =? i) && (hw_events d j =? 1) then 0 else hw_events d j).
Proof.
  intros Hd [x Hx] Hcall Hi. pose proof (Hcall x Hx) as Hcb.
  assert (Hlt : (tim < length (ctx (mach w)))%nat) by (eapply lookup_lt_Some; eauto).
  assert (Hupd : forall ev j, ev i = 1 ->
             upd ev i 0 j = if (j =? i) && (ev j =? 1) then 0 else ev j).
  { intros ev j Hev. unfold upd. destruct (Z.eqb_spec j i) as [->|]; [|reflexivity].
    rewrite Hev. reflexivity. }
  destruct (Z.eq_dec (hw_events d i) 1) as [Hev|Hev].
  - destruct d as [run cnt pw sh ie md bm ps cc ev]. cbn [hw_events] in Hev.
    destruct (armed x i) eqn:Harm; [destruct (periodic x i) eqn:Hper|].
    + pose proof (irq_chan_periodic P cb_run w tim c x i run cnt pw sh ie md bm ps cc ev
                    (conj Hc (conj Hx Hd)) Hi Hnum Hev Harm Hper Hcb) as E.
      cbv zeta in E. eexists _, _. split; [exact E|]. cbn [mach].
      split; [rewrite cb_hw; apply lookup_insert_eq|].
      split; [apply cb_ctx; exists x; exact Hx|].
      split; [apply cb_callable, callable_ctx, Hcall|].
      split; [repeat split|]. split; [auto|]. cbn [hw_events]. intros j. apply Hupd, Hev.
    + pose proof (irq_chan_oneshot P cb_run w tim c x i run cnt pw sh ie md bm ps cc ev
                    (conj Hc (conj Hx Hd)) Hi Hnum Hev Harm Hper Hcb) as E.
      cbv zeta in E. eexists _, _. split; [exact E|]. cbn [mach].
      split; [rewrite cb_hw; apply lookup_insert_eq|].
      split; [apply cb_ctx; cbn [ctx]; eexists; apply list_lookup_insert_eq, Hlt|].
      split; [apply cb_callable; eapply callable_upd; [exact Hcall | exact Hx | reflexivity]|].
      split; [repeat split|]. split.
      * cbn [hw_inten]. intros k Hk. rewrite Z.land_spec in Hk.
        apply andb_true_iff in Hk. tauto.
      * cbn [hw_events]. intros j. apply Hupd, Hev.
    + eexists _, _. split.
      * exact (irq_chan_stale P cb_run w tim c x i run cnt pw sh ie md bm ps cc ev
                 (conj Hc (conj Hx Hd)) Hi Hnum Hev Harm).
      * cbn [mach ctx periph]. split; [apply lookup_insert_eq|].
        split; [exists x; exact Hx|].
        split; [exact (callable_ctx tim (mach w) _ _ Hcall)|].
        split; [repeat split|]. split; [auto|].
        cbn [hw_events]. intros j. apply Hupd, Hev.
  - exists (mk_world (mach w) (trace w ++ [MmioRead (conf_dev c) (EVENTS_COMPARE i)])), d.
    split; [exact (irq_chan_idle P cb_run w tim c d i Hc Hd Hi Hev)|].
    cbn [mach]. split; [exact Hd|]. split; [exists x; exact Hx|].
    split; [exact Hcall|].
    split; [apply same_but_events_refl|]. split; [auto|].
    intros j. destruct (Z.eqb_spec j i) as [->|]; [|reflexivity].
    apply Z.eqb_neq in Hev. rewrite Hev. reflexivity.
Qed.

Lemma irq_loop_drain (n : nat) : forall i w d,
  periph (mach w) !! conf_dev c = Some d ->
  (exists x, ctx (mach w) !! tim = Some x) ->
  callable tim (mach w) ->
  0 <= i -> i + Z.of_nat n <= CC_NUM P ->
  exists w' d',
    irq_loop P cb_run tim n i w = Ret tt w' /\
    periph (mach w') !! conf_dev c = Some d' /\
    same_but_events d d' /\ inten_within d d' /\
    (forall j, hw_events d' j
               = if (i <=? j) && (j <? i + Z.of_nat n) && (hw_events d j =? 1)
                 then 0 else hw_events d j).
Proof.
  induction n as [|n IH]; intros i w d Hd Hx Hcall Hi Hn; cbn [irq_loop].
  - exists w, d. split; [reflexivity|]. split; [exact Hd|].
    split; [apply same_but_events_refl|]. split; [auto|].
    intros j. replace (j <? i + Z.of_nat 0) with (j <? i) by (f_equal; lia).
    destruct (Z.leb_spec i j), (Z.ltb_spec j i); try lia; reflexivity.
  - destruct (irq_chan_drain i w d Hd Hx Hcall ltac:(lia))
      as (w1 & d1 & E1 & Hd1 & Hx1 & Hcall1 & Hs1 & Hi1 & He1).
    destruct (IH (i + 1) w1 d1 Hd1 Hx1 Hcall1 ltac:(lia) ltac:(lia))
      as (w2 & d2 & E2 & Hd2 & Hs2 & Hi2 & He2).
    exists w2, d2. rewrite (bind_ret_eq _ _ _ _ _ E1).
    split; [exact E2|]. split; [exact Hd2|].
    split; [eapply same_but_events_trans; eassumption|].
    split; [intros k Hk; apply Hi1, Hi2, Hk|].
    intros j. rewrite He2, He1.
    destruct (Z.eqb_spec j i) as [->|Hne].
    + replace (i + 1 <=? i) with false by (symmetry; apply Z.leb_gt; lia).
      replace (i <=? i) with true by (symmetry; apply Z.leb_le; lia).
      replace (i <? i + Z.of_nat (S n)) with true by (symmetry; apply Z.ltb_lt; lia).
      reflexivity.
    + cbn [andb].
      replace (j <? i + 1 + Z.of_nat n) with (j <? i + Z.of_nat (S n)) by (f_equal; lia).
      replace (i + 1 <=? j) with (i <=? j); [reflexivity|].
      destruct (Z.leb_spec i j), (Z.leb_spec (i + 1) j); try lia; reflexivity.
Qed.

End Drain.

(** X8. On an instance that has a callback (its stored pointer is not
    null), with a callback that leaves the peripherals alone and the pointer
    not null, the handler runs to its end and consumes every pending compare
    event of the channels of the instance, armed or not; flags that were not
    pending, and flags of indices outside the channels, stay as they were.
    Of the rest of the peripheral nothing changes, except that interrupt
    sources may have been disabled: none is enabled. *)
Theorem handler_drains_events (P : platform)
    (cb_run : Z -> Z -> Z -> machine -> machine) (w : world) (tim : nat)
    (c : timer_conf_t) (x : tim_ctx_t) (d : NRF_TIMER_Type) :
  inst_at P w tim c x d -> 0 <= channels c <= CC_NUM P -> CC_NUM P <= 8 ->
  cb x <> 0 ->
  (forall f b i m, periph (cb_run f b i m) = periph m) ->
  (forall f b i m, (exists y, ctx m !! tim = Some y) ->
                   exists y', ctx (cb_run f b i m) !! tim = Some y') ->
  (forall f b i m, callable tim m -> callable tim (cb_run f b i m)) ->
  exists w' d',
    irq_handler P cb_run tim w = Ret tt w' /\
    periph (mach w') !! conf_dev c = Some d' /\
    (forall j, 0 <= j < channels c -> hw_events d' j <> 1) /\
    (forall j, ~ 0 <= j < channels c -> hw_events d' j = hw_events d j) /\
    (forall j, hw_events d j <> 1 -> hw_events d' j = hw_events d j) /\
    same_but_events d d' /\
    (forall k, Z.testbit (hw_inten d') k = true -> Z.testbit (hw_inten d) k = true).
Proof.
  intros (Hc & Hx & Hd) Hch Hnum Hcb Hhw Hctx Hcbc.
  assert (Hcall : callable tim (mach w)).
  { intros y Hy. rewrite Hx in Hy. injection Hy as <-. exact Hcb. }
  destruct (irq_loop_drain P cb_run tim c Hc Hnum Hhw Hctx Hcbc (Z.to_nat (channels c)) 0 w d
              Hd (ex_intro _ x Hx) Hcall ltac:(lia) ltac:(lia))
    as (w1 & d1 & E1 & Hd1 & Hs1 & Hi1 & He1).
  eexists _, d1. split.
  { unfold irq_handler. rewrite (bind_ret_eq _ _ _ _ _ (conf_eq P tim c w Hc)).
    rewrite (bind_ret_eq _ _ _ _ _ E1). reflexivity. }
  cbn [mach]. split; [exact Hd1|].
  assert (Hin : forall j, (0 <=? j) && (j <? 0 + Z.of_nat (Z.to_nat (channels c)))
                          = true <-> 0 <= j < channels c).
  { intros j. rewrite andb_true_iff, Z.leb_le, Z.ltb_lt. lia. }
  split; [|split; [|split; [|split; [exact Hs1 | exact Hi1]]]].
  - intros j Hj. rewrite He1. apply Hin in Hj. rewrite Hj. cbn [andb].
    destruct (Z.eqb_spec (hw_events d j) 1); [lia | assumption].
  - intros j Hj. rewrite He1.
    destruct ((0 <=? j) && (j <? 0 + Z.of_nat (Z.to_nat (channels c)))) eqn:E;
      [apply Hin in E; contradiction | reflexivity].
  - intros j Hj. rewrite He1. apply Z.eqb_neq in Hj. rewrite Hj, andb_false_r.
    reflexivity.
Qed.

(** ** A periodic channel fires on every match *)

Section Periodic.
Variable P : platform.
Variable cb_run : Z -> Z -> Z -> machine -> machine.
Variables (tim : nat) (c : timer_conf_t) (chan : Z) (x : tim_ctx_t).
Hypothesis Hc : timer_config P !! tim = Some c.
Hypothesis Hfit : conf_fits P c.
Hypothesis Hchan : 0 <= chan < channels c.
Hypothesis Harm : armed x chan = true.
Hypothesis Hper : periodic x chan = true.
Hypothesis Hcb : cb x <> 0.
Hypothesis Hquiet :
  forall m, ctx (cb_run (cb x) (arg x) chan m) = ctx m /\
            periph (cb_run (cb x) (arg x) chan m) = periph m.

(** The context entry is [x] and no other channel has a match pending. *)
Local Abbreviation ready w :=
  (ctx (mach w) !! tim = Some x /\
   exists d, periph (mach w) !! conf_dev c = Some d /\
             forall j, 0 <= j < channels c -> j <> chan -> hw_events d j <> 1).

Lemma periodic_round w :
  ready w ->
  exists w3 evs,
    irq_handler P cb_run tim (world_match (conf_dev c) chan w) = Ret tt w3 /\
    ready w3 /\
    trace w3 = trace w ++ evs /\
    List.filter is_callback evs = [Callback (cb x) (arg x) chan].
Proof.
  intros (Hx & d & Hd & Hothers). pose proof Hfit as (Hfit1 & Hnum).
  destruct d as [run cnt pw sh ie md bm ps cc ev]. cbn [hw_events] in Hothers.
  unfold world_match. rewrite Hd. cbn [hw_match].
  destruct (Hquiet
    (mk_machine (ctx (mach w))
       (<[conf_dev c := mk_timer run cnt pw sh ie md bm ps cc (upd (upd ev chan 1) chan 0)]>
          (periph (mach w)))
       (nvic (mach w)))) as [Qc Qp].
  cbn [ctx periph] in Qc, Qp.
  eexists _, _. split.
  { unfold irq_handler. run1.
    replace (Z.to_nat (channels c))
      with (Z.to_nat chan + S (Z.to_nat (channels c - chan - 1)))%nat by lia.
    erewrite bind_ext_eq by apply irq_loop_app.
    rewrite bind_assoc_eq.
    erewrite (bind_ret_eq (irq_loop _ _ _ _ _)).
    2:{ eapply irq_loop_idle; [exact Hc | cbn [mach periph]; apply lookup_insert_eq |].
        intros j Hj. cbn [hw_events]. split; [lia|].
        rewrite upd_other by lia. apply Hothers; lia. }
    cbv beta. cbn [irq_loop]. rewrite bind_assoc_eq.
    replace (0 + Z.of_nat (Z.to_nat chan)) with chan by lia.
    erewrite (bind_ret_eq (irq_chan _ _ _ _)).
    2:{ pose proof (irq_chan_periodic P cb_run) as E2. cbv zeta in E2.
        eapply E2 with (x := x); [|lia|lia|apply upd_same|exact Harm|exact Hper|exact Hcb].
        split; [exact Hc|]. cbn [ctx mach periph].
        split; [exact Hx | apply lookup_insert_eq]. }
    cbv beta. cbn [ctx mach periph nvic trace]. rewrite insert_insert_eq.
    erewrite (bind_ret_eq (irq_loop _ _ _ _ _)).
    2:{ eapply irq_loop_idle; [exact Hc | cbn [mach]; rewrite Qp; apply lookup_insert_eq |].
        intros j Hj. cbn [hw_events]. split; [lia|].
        rewrite !upd_other by lia. apply Hothers; lia. }
    cbv beta. unfold cortexm_isr_end. cbn [mach trace]. reflexivity. }
  cbn [mach trace]. rewrite Qc, Qp. split.
  { split; [exact Hx|]. eexists. split; [apply lookup_insert_eq|].
    intros j Hj Hne. cbn [hw_events]. rewrite !upd_other by lia. apply Hothers; lia. }
  split; [rewrite <- !app_assoc; reflexivity|].
  rewrite !List.filter_app, !idle_reads_no_callback. reflexivity.
Qed.

Lemma periodic_rounds (k : nat) : forall w,
  ready w ->
  exists wk evs,
    match_rounds P cb_run tim (conf_dev c) chan k w = Ret tt wk /\
    ready wk /\
    trace wk = trace w ++ evs /\
    List.filter is_callback evs = repeat (Callback (cb x) (arg x) chan) k.
Proof.
  induction k as [|k IH]; intros w Hready; cbn [match_rounds].
  - exists w, []. rewrite app_nil_r. repeat split; try reflexivity; apply Hready.
  - destruct (periodic_round w Hready) as (w3 & evs1 & E1 & Hready3 & Ht1 & Hf1).
    destruct (IH w3 Hready3) as (wk & evs2 & E2 & Hreadyk & Ht2 & Hf2).
    exists wk, (evs1 ++ evs2).
    split.
    { rewrite (bind_ret_eq (hw_latch _ _) _ w tt (world_match (conf_dev c) chan w) eq_refl).
      rewrite (bind_ret_eq _ _ _ _ _ E1). exact E2. }
    split; [exact Hreadyk|].
    split; [rewrite Ht2, Ht1, <- app_assoc; reflexivity|].
    rewrite List.filter_app, Hf1, Hf2. reflexivity.
Qed.

End Periodic.

(** X9. A channel armed with [timer_set_periodic], whatever the flags and
    whatever its state before, is armed and periodic, and stays so: on an
    instance that has a callback (its stored pointer is not null), with a
    callback that does not touch the timer, [k] matches on it, each
    followed by a run of the handler, give exactly [k] calls of the
    callback, all with the channel index, and leave the channel armed and
    periodic. *)
Theorem periodic_fires_every_match (P : platform)
    (cb_run : Z -> Z -> Z -> machine -> machine) (w : world) (tim : nat)
    (c : timer_conf_t) (x : tim_ctx_t) (d : NRF_TIMER_Type) (chan value tflags : Z) :
  inst_at P w tim c x d -> conf_fits P c -> 0 <= chan < channels c ->
  cb x <> 0 ->
  (forall j, 0 <= j < channels c -> j <> chan -> hw_events d j <> 1) ->
  (forall m, ctx (cb_run (cb x) (arg x) chan m) = ctx m /\
             periph (cb_run (cb x) (arg x) chan m) = periph m) ->
  exists w1,
    timer_set_periodic P tim chan value tflags w = Ret 0 w1 /\
    forall k, exists wk evs xk,
      match_rounds P cb_run tim (conf_dev c) chan k w1 = Ret tt wk /\
      trace wk = trace w1 ++ evs /\
      List.filter is_callback evs = repeat (Callback (cb x) (arg x) chan) k /\
      ctx (mach wk) !! tim = Some xk /\
      armed xk chan = true /\ periodic xk chan = true.
Proof.
  intros Hin Hfit Hchan Hcb Hothers Hquiet. pose proof Hfit as (Hfit1 & Hnum).
  destruct d as [run cnt pw sh ie md bm ps cc ev]. cbn [hw_events] in Hothers.
  pose proof (timer_set_periodic_eq P w tim c x chan value tflags
                run cnt pw sh ie md bm ps cc ev Hin Hfit Hchan) as E.
  cbv zeta in E. destruct Hin as (Hc & Hx & Hd).
  assert (Hlt : (tim < length (ctx (mach w)))%nat) by (eapply lookup_lt_Some; eauto).
  eexists. split; [exact E|]. intros k.
  set (x1 := mk_ctx (cb x) (arg x) (u8 (Z.lor (flags x) (Z.shiftl 1 chan)))
                    (u8 (Z.lor (is_periodic x) (Z.shiftl 1 chan)))).
  assert (Harm1 : armed x1 chan = true).
  { unfold armed, x1. cbn [flags].
    rewrite testbit_set_u8, Z.eqb_refl by lia. apply orb_true_r. }
  assert (Hper1 : periodic x1 chan = true).
  { unfold periodic, x1. cbn [is_periodic].
    rewrite testbit_set_u8, Z.eqb_refl by lia. apply orb_true_r. }
  match type of E with _ = Ret 0 ?w => set (w1 := w) in * end.
  destruct (periodic_rounds P cb_run tim c chan x1 Hc Hfit Hchan Harm1 Hper1 Hcb Hquiet k w1)
    as (wk & evs & Ek & (Hxk & _) & Htk & Hfk).
  { unfold w1. cbn [ctx mach periph].
    split; [apply list_lookup_insert_eq, Hlt|].
    eexists. split; [apply lookup_insert_eq|].
    intros j Hj Hne. cbn [hw_events]. rewrite upd_other by lia. apply Hothers; lia. }
  exists wk, evs, x1. repeat split; assumption.
Qed.

(** ** Instances do not disturb each other *)

Lemma elsewhere_same_refl tim a m : elsewhere_same tim a m m.
Proof. split; reflexivity. Qed.

Lemma elsewhere_same_step tim a m0 m x p nv :
  elsewhere_same tim a m0 m ->
  (forall b, b <> a -> p !! b = periph m !! b) ->
  elsewhere_same tim a m0 (mk_machine (<[tim := x]> (ctx m)) p nv) /\
  elsewhere_same tim a m0 (mk_machine (ctx m) p nv).
Proof.
  intros [H1 H2] Hp. split; (split; cbn [ctx periph]; intros k Hk).
  - rewrite list_lookup_insert_ne by congruence. apply H1, Hk.
  - rewrite Hp by exact Hk. apply H2, Hk.
  - apply H1, Hk.
  - rewrite Hp by exact Hk. apply H2, Hk.
Qed.

Section Elsewhere.
Variable P : platform.
Variables (tim : nat) (c : timer_conf_t).
Hypothesis Hc : timer_config P !! tim = Some c.

(** Every primitive on instance [tim] keeps the rest of the machine. *)
Local Abbreviation Keeps m0 := (fun _ w' => elsewhere_same tim (conf_dev c) m0 (mach w')).

Lemma keeps_ctx_put m0 x w :
  elsewhere_same tim (conf_dev c) m0 (mach w) ->
  wp (ctx_put tim x) (Keeps m0) w.
Proof.
  intros H. apply wp_ctx_put. intros x0 Hx0. cbn [mach].
  apply (elsewhere_same_step tim (conf_dev c) m0 (mach w) x (periph (mach w))
           (nvic (mach w)) H). reflexivity.
Qed.

Lemma keeps_reg_write m0 r v w :
  elsewhere_same tim (conf_dev c) m0 (mach w) ->
  wp (reg_write P (conf_dev c) r v) (Keeps m0) w.
Proof.
  intros H. apply wp_reg_write. intros d d' Hd Hw. cbn [mach].
  apply (elsewhere_same_step tim (conf_dev c) m0 (mach w) (mk_ctx 0 0 0 0)
           (<[conf_dev c := d']> (periph (mach w))) (nvic (mach w)) H).
  intros b Hb. apply lookup_insert_ne. congruence.
Qed.

Lemma keeps_reg_read m0 r w :
  elsewhere_same tim (conf_dev c) m0 (mach w) ->
  wp (reg_read P (conf_dev c) r) (fun _ w' => elsewhere_same tim (conf_dev c) m0 (mach w')) w.
Proof. intros H. apply wp_reg_read. intros d v Hd Hr. exact H. Qed.

Lemma keeps_nvic m0 n w :
  elsewhere_same tim (conf_dev c) m0 (mach w) ->
  wp (NVIC_EnableIRQ n) (Keeps m0) w.
Proof. intros [H1 H2]. apply wp_nvic. split; assumption. Qed.

End Elsewhere.

(** Runs a call whose primitives all act on instance [tim], keeping track of
    the rest of the machine. *)
Ltac keep_step Hc :=
  lazymatch goal with
  | |- wp (bind _ _) _ _ => apply wp_bind
  | |- wp (ret _) _ _ => apply wp_ret
  | |- wp (undef _) _ _ => apply wp_undef
  | |- wp (conf _ _) _ _ =>
      apply wp_conf;
      let c0 := fresh "c0" in let H0 := fresh "H0" in
      intros c0 H0; rewrite Hc in H0; injection H0 as <-
  | |- wp (dev _ _) _ _ =>
      apply wp_dev;
      let c0 := fresh "c0" in let H0 := fresh "H0" in
      intros c0 H0; rewrite Hc in H0; injection H0 as <-
  | |- wp (ctx_get _) _ _ => apply wp_ctx_get; intros ? ?
  | |- wp (shl_int _) _ _ => apply wp_shl_int; intros ?
  | |- wp (shl_u32 _ _) _ _ => apply wp_shl_u32; intros ?
  | |- wp (if _ then _ else _) _ _ => apply wp_if; intros ?
  | |- wp (ctx_put _ _) _ _ =>
      eapply wp_mono;
      [ eapply (keeps_ctx_put _ _ _); eassumption
      | cbv beta; intros ? ? ? ]
  | |- wp (reg_write _ _ _ _) _ _ =>
      eapply wp_mono;
      [ eapply (keeps_reg_write _ _ _); eassumption
      | cbv beta; intros ? ? ? ]
  | |- wp (reg_read _ _ _) _ _ =>
      eapply wp_mono;
      [ eapply (keeps_reg_read _ _ _); eassumption
      | cbv beta; intros ? ? ? ]
  | |- wp (NVIC_EnableIRQ _) _ _ =>
      eapply wp_mono;
      [ eapply (keeps_nvic _ _); eassumption
      | cbv beta; intros ? ? ? ]
  end.

Section ElsewhereCalls.
Variable P : platform.
Variables (tim : nat) (c : timer_conf_t).
Hypothesis Hc : timer_config P !! tim = Some c.

Local Abbreviation Keeps m0 := (fun _ w' => elsewhere_same tim (conf_dev c) m0 (mach w')).

Lemma keeps_init_loop m0 freq (n : nat) : forall i cando w,
  elsewhere_same tim (conf_dev c) m0 (mach w) ->
  wp (init_loop P (conf_dev c) freq n i cando) (Keeps m0) w.
Proof.
  induction n as [|n IH]; intros i cando w H; cbn [init_loop].
  - apply wp_ret. exact H.
  - apply wp_if; intros _; [|apply IH, H].
    repeat keep_step Hc. eassumption.
Qed.

Lemma keeps_timer_init freq f a w :
  wp (timer_init P tim freq f a) (Keeps (mach w)) w.
Proof.
  pose proof (elsewhere_same_refl tim (conf_dev c) (mach w)) as H0.
  unfold timer_init. repeat keep_step Hc; try eassumption.
  all: eapply wp_mono; [eapply keeps_init_loop; eassumption|].
  all: cbv beta; intros ? ? ?; repeat keep_step Hc; eassumption.
Qed.

Lemma keeps_timer_set_absolute chan value w :
  wp (timer_set_absolute P tim chan value) (Keeps (mach w)) w.
Proof.
  pose proof (elsewhere_same_refl tim (conf_dev c) (mach w)) as H0.
  unfold timer_set_absolute. repeat keep_step Hc; eassumption.
Qed.

Lemma keeps_timer_set_periodic chan value tflags w :
  wp (timer_set_periodic P tim chan value tflags) (Keeps (mach w)) w.
Proof.
  pose proof (elsewhere_same_refl tim (conf_dev c) (mach w)) as H0.
  unfold timer_set_periodic. repeat keep_step Hc; eassumption.
Qed.

Lemma keeps_timer_clear chan w :
  wp (timer_clear P tim chan) (Keeps (mach w)) w.
Proof.
  pose proof (elsewhere_same_refl tim (conf_dev c) (mach w)) as H0.
  unfold timer_clear. repeat keep_step Hc; eassumption.
Qed.

Lemma keeps_timer_read w : wp (timer_read P tim) (Keeps (mach w)) w.
Proof.
  pose proof (elsewhere_same_refl tim (conf_dev c) (mach w)) as H0.
  unfold timer_read. repeat keep_step Hc; eassumption.
Qed.

Lemma keeps_timer_start w : wp (timer_start P tim) (Keeps (mach w)) w.
Proof.
  pose proof (elsewhere_same_refl tim (conf_dev c) (mach w)) as H0.
  unfold timer_start. repeat keep_step Hc; eassumption.
Qed.

Lemma keeps_timer_stop w : wp (timer_stop P tim) (Keeps (mach w)) w.
Proof.
  pose proof (elsewhere_same_refl tim (conf_dev c) (mach w)) as H0.
  unfold timer_stop. repeat keep_step Hc; eassumption.
Qed.

End ElsewhereCalls.

(** X10. None of the seven functions, called for one instance, changes the
    context entry of another instance or a peripheral at another address:
    what a call returns in differs from where it started at most in
    [ctx[tim]] and in the peripheral of [tim] (and the interrupt lines
    enabled). *)
Theorem other_instances_untouched (P : platform) (tim : nat) (c : timer_conf_t)
    (w : world) :
  timer_config P !! tim = Some c ->
  let kept {A} (m : M A) :=
    forall r w', m w = Ret r w' -> elsewhere_same tim (conf_dev c) (mach w) (mach w') in
  (forall freq f a, kept (timer_init P tim freq f a)) /\
  (forall chan value, kept (timer_set_absolute P tim chan value)) /\
  (forall chan value tflags, kept (timer_set_periodic P tim chan value tflags)) /\
  (forall chan, kept (timer_clear P tim chan)) /\
  kept (timer_read P tim) /\ kept (timer_start P tim) /\ kept (timer_stop P tim).
Proof.
  intros Hc kept. subst kept. cbv beta.
  refine (conj _ (conj _ (conj _ (conj _ (conj _ (conj _ _)))))).
  - intros freq f a r w' H.
    exact (wp_elim _ _ _ _ _ (keeps_timer_init P tim c Hc freq f a w) H).
  - intros chan value r w' H.
    exact (wp_elim _ _ _ _ _ (keeps_timer_set_absolute P tim c Hc chan value w) H).
  - intros chan value tflags r w' H.
    exact (wp_elim _ _ _ _ _ (keeps_timer_set_periodic P tim c Hc chan value tflags w) H).
  - intros chan r w' H.
    exact (wp_elim _ _ _ _ _ (keeps_timer_clear P tim c Hc chan w) H).
  - intros r w' H. exact (wp_elim _ _ _ _ _ (keeps_timer_read P tim c Hc w) H).
  - intros r w' H. exact (wp_elim _ _ _ _ _ (keeps_timer_start P tim c Hc w) H).
  - intros r w' H. exact (wp_elim _ _ _ _ _ (keeps_timer_stop P tim c Hc w) H).
Qed.

(** ** Channels do not disturb each other *)

(** X11. Arming or disarming one channel leaves the others alone: after
    [timer_set_absolute], [timer_set_periodic] or [timer_clear] on a valid
    channel, every other channel has the armed bit, the periodic bit, the
    compare value and the pending flag it had. *)
Theorem other_channels_untouched (P : platform) (w : world) (tim : nat)
    (c : timer_conf_t) (x : tim_ctx_t) (d : NRF_TIMER_Type) (chan : Z) :
  inst_at P w tim c x d -> conf_fits P c -> 0 <= chan < channels c ->
  let kept (m : M Z) :=
    exists w' x' d',
      m w = Ret 0 w' /\
      ctx (mach w') !! tim = Some x' /\ periph (mach w') !! conf_dev c = Some d' /\
      forall i, 0 <= i < 8 -> i <> chan ->
        armed x' i = armed x i /\ periodic x' i = periodic x i /\
        hw_cc d' i = hw_cc d i /\ hw_events d' i = hw_events d i in
  (forall value, kept (timer_set_absolute P tim chan value)) /\
  (forall value tflags, kept (timer_set_periodic P tim chan value tflags)) /\
  kept (timer_clear P tim chan).
Proof.
  intros Hin Hfit Hchan kept. subst kept. cbv beta.
  destruct d as [run cnt pw sh ie md bm ps cc ev].
  pose proof Hin as (Hc & Hx & Hd). pose proof Hfit as (Hfit1 & Hnum).
  assert (Hlt : (tim < length (ctx (mach w)))%nat) by (eapply lookup_lt_Some; eauto).
  assert (Hset : forall v i, 0 <= i < 8 -> i <> chan ->
             Z.testbit (u8 (Z.lor v (Z.shiftl 1 chan))) i = Z.testbit v i).
  { intros v i Hi Hne. rewrite testbit_set_u8 by lia.
    replace (chan =? i) with false by (symmetry; apply Z.eqb_neq; lia).
    apply orb_false_r. }
  assert (Hclr : forall v i, 0 <= i < 8 -> i <> chan ->
             Z.testbit (u8 (Z.land v (Z.lnot (Z.shiftl 1 chan)))) i = Z.testbit v i).
  { intros v i Hi Hne. rewrite testbit_clear_u8 by lia.
    replace (chan =? i) with false by (symmetry; apply Z.eqb_neq; lia).
    apply andb_true_r. }
  refine (conj _ (conj _ _)).
  - intros value.
    pose proof (timer_set_absolute_eq P w tim c x chan value run cnt pw sh ie md bm ps cc ev
                  Hin Hfit Hchan) as E.
    eexists _, _, _. split; [exact E|]. cbn [ctx mach periph].
    split; [apply list_lookup_insert_eq, Hlt|]. split; [apply lookup_insert_eq|].
    intros i Hi Hne. unfold armed, periodic. cbn [flags is_periodic set_flags hw_cc hw_events].
    rewrite Hset, !upd_other by lia. repeat split.
  - intros value tflags.
    pose proof (timer_set_periodic_eq P w tim c x chan value tflags
                  run cnt pw sh ie md bm ps cc ev Hin Hfit Hchan) as E.
    cbv zeta in E. eexists _, _, _. split; [exact E|]. cbn [ctx mach periph].
    split; [apply list_lookup_insert_eq, Hlt|]. split; [apply lookup_insert_eq|].
    intros i Hi Hne. unfold armed, periodic. cbn [flags is_periodic hw_cc hw_events].
    rewrite !Hset, !upd_other by lia. repeat split.
  - pose proof (timer_clear_eq P w tim c x chan run cnt pw sh ie md bm ps cc ev
                  Hin Hfit Hchan) as E.
    cbv zeta in E. eexists _, _, _. split; [exact E|]. cbn [ctx mach periph].
    split; [apply list_lookup_insert_eq, Hlt|]. split; [apply lookup_insert_eq|].
    intros i Hi Hne. unfold armed, periodic. cbn [flags is_periodic hw_cc hw_events].
    rewrite !Hclr by lia. repeat split.
Qed.

(** ** Arming and disarming again *)

Lemma set_clear_u8 v n :
  0 <= n < 8 -> 0 <= v < 2 ^ 8 -> Z.testbit v n = false ->
  u8 (Z.land (u8 (Z.lor v (Z.shiftl 1 n))) (Z.lnot (Z.shiftl 1 n))) = v.
Proof.
  intros Hn Hv Hb. apply Z.bits_inj'. intros i Hi.
  destruct (Z.lt_ge_cases i 8) as [Hlt|Hge].
  - rewrite testbit_clear_u8, testbit_set_u8 by lia.
    destruct (Z.eqb_spec n i) as [->|]; [rewrite Hb; reflexivity|].
    cbn [negb]. rewrite orb_false_r, andb_true_r. reflexivity.
  - rewrite testbit_u8_high by lia. symmetry.
    rewrite <- (Z.mod_small v (2 ^ 8)) by lia. apply Z.mod_pow2_bits_high. lia.
Qed.

Lemma set_clear_mask ie m : Z.land ie m = 0 -> Z.land (Z.lor ie m) (Z.lnot m) = ie.
Proof.
  intros H. apply Z.bits_inj'. intros i Hi.
  assert (Hb : Z.testbit (Z.land ie m) i = false) by (rewrite H; apply Z.bits_0).
  rewrite Z.land_spec in Hb.
  rewrite Z.land_spec, Z.lor_spec, Z.lnot_spec by lia.
  destruct (Z.testbit ie i), (Z.testbit m i); try reflexivity; discriminate.
Qed.

(** X12. Arming an idle channel and disarming it again gives back the
    Channel State Store: after [timer_set_absolute] or [timer_set_periodic]
    followed by [timer_clear] on a channel whose two bits were clear, the
    context array is what it was, and so is the interrupt mask if the
    source of the channel was disabled before. *)
Theorem arm_then_clear (P : platform) (w : world) (tim : nat)
    (c : timer_conf_t) (x : tim_ctx_t) (d : NRF_TIMER_Type) (chan : Z) :
  inst_at P w tim c x d -> conf_fits P c -> 0 <= chan < channels c ->
  ctx_u8 x -> armed x chan = false -> periodic x chan = false ->
  let undone (arm : M Z) :=
    exists w1 w2 d2,
      arm w = Ret 0 w1 /\ timer_clear P tim chan w1 = Ret 0 w2 /\
      ctx (mach w2) = ctx (mach w) /\
      periph (mach w2) !! conf_dev c = Some d2 /\
      (Z.land (hw_inten d) (Z.shiftl (TIMER_INTENSET_COMPARE0_Msk P) chan mod 2 ^ 32) = 0 ->
       hw_inten d2 = hw_inten d) in
  (forall value, undone (timer_set_absolute P tim chan value)) /\
  (forall value tflags, undone (timer_set_periodic P tim chan value tflags)).
Proof.
  intros Hin Hfit Hchan (Hf & Hp) Harm Hper undone. subst undone. cbv beta.
  destruct d as [run cnt pw sh ie md bm ps cc ev].
  pose proof Hin as (Hc & Hx & Hd). pose proof Hfit as (Hfit1 & Hnum).
  assert (Hlt : (tim < length (ctx (mach w)))%nat) by (eapply lookup_lt_Some; eauto).
  unfold armed in Harm. unfold periodic in Hper.
  assert (Hid : <[tim := mk_ctx (cb x) (arg x) (flags x) (is_periodic x)]> (ctx (mach w))
                = ctx (mach w)).
  { apply list_insert_id. rewrite Hx. destruct x; reflexivity. }
  split.
  - intros value.
    pose proof (timer_set_absolute_eq P w tim c x chan value run cnt pw sh ie md bm ps cc ev
                  Hin Hfit Hchan) as E1.
    match type of E1 with _ = Ret 0 ?w => set (w1 := w) in * end.
    pose proof (timer_clear_eq P w1 tim c) as E2. cbv zeta in E2.
    eexists w1, _, _. split; [exact E1|]. split.
    { eapply E2; [|exact Hfit|exact Hchan]. split; [exact Hc|].
      unfold w1. cbn [ctx mach periph].
      split; [apply list_lookup_insert_eq, Hlt | apply lookup_insert_eq]. }
    unfold w1. cbn [ctx mach periph cb arg flags is_periodic set_flags].
    rewrite list_insert_insert_eq, set_clear_u8, (clear_u8_noop (is_periodic x))
      by (assumption || lia).
    split; [exact Hid|]. split; [apply lookup_insert_eq|].
    cbn [hw_inten]. apply set_clear_mask.
  - intros value tflags.
    pose proof (timer_set_periodic_eq P w tim c x chan value tflags
                  run cnt pw sh ie md bm ps cc ev Hin Hfit Hchan) as E1.
    cbv zeta in E1.
    match type of E1 with _ = Ret 0 ?w => set (w1 := w) in * end.
    pose proof (timer_clear_eq P w1 tim c) as E2. cbv zeta in E2.
    eexists w1, _, _. split; [exact E1|]. split.
    { eapply E2; [|exact Hfit|exact Hchan]. split; [exact Hc|].
      unfold w1. cbn [ctx mach periph].
      split; [apply list_lookup_insert_eq, Hlt | apply lookup_insert_eq]. }
    unfold w1. cbn [ctx mach periph cb arg flags is_periodic].
    rewrite list_insert_insert_eq, !set_clear_u8 by (assumption || lia).
    split; [exact Hid|]. split; [apply lookup_insert_eq|].
    cbn [hw_inten]. apply set_clear_mask.
Qed.

(** ** A match latched before arming *)

(** X13. A compare match latched before a channel is armed is discarded by
    the arming call: [timer_set_absolute] and [timer_set_periodic] write 0
    to the pending flag and read it back before they enable the interrupt
    source, so a run of the handler right after arming (nothing else
    pending) only reads the flags: no callback is called, whatever the
    callback is, and the machine is unchanged. *)
Theorem stale_match_discarded (P : platform)
    (cb_run : Z -> Z -> Z -> machine -> machine) (w : world) (tim : nat)
    (c : timer_conf_t) (x : tim_ctx_t) (d : NRF_TIMER_Type) (chan : Z) :
  inst_at P w tim c x d -> conf_fits P c -> 0 <= chan < channels c ->
  (forall j, 0 <= j < channels c -> j <> chan -> hw_events d j <> 1) ->
  let a := conf_dev c in
  let msk := Z.shiftl (TIMER_INTENSET_COMPARE0_Msk P) chan mod 2 ^ 32 in
  let discards (arm : M Z) :=
    exists w1 w2 pre post,
      arm w = Ret 0 w1 /\
      trace w1 = trace w ++ pre ++ [MmioWrite a (EVENTS_COMPARE chan) 0;
                                    MmioRead a (EVENTS_COMPARE chan);
                                    MmioWrite a INTENSET msk] ++ post /\
      irq_handler P cb_run tim w1 = Ret tt w2 /\
      mach w2 = mach w1 /\
      trace w2 = trace w1 ++ idle_reads a (Z.to_nat (channels c)) 0 ++ [IsrEnd] in
  (forall value, discards (timer_set_absolute P tim chan value)) /\
  (forall value tflags, discards (timer_set_periodic P tim chan value tflags)).
Proof.
  intros Hin Hfit Hchan Hothers a msk discards. subst a msk discards. cbv beta.
  destruct d as [run cnt pw sh ie md bm ps cc ev]. cbn [hw_events] in Hothers.
  pose proof Hin as (Hc & Hx & Hd). pose proof Hfit as (Hfit1 & Hnum).
  assert (Hrun : forall w1 d1,
             periph (mach w1) !! conf_dev c = Some d1 ->
             (forall j, 0 <= j < channels c -> hw_events d1 j <> 1) ->
             irq_handler P cb_run tim w1
             = Ret tt (mk_world (mach w1)
                         ((trace w1 ++ idle_reads (conf_dev c) (Z.to_nat (channels c)) 0)
                          ++ [IsrEnd]))).
  { intros w1 d1 Hd1 Hnone. unfold irq_handler.
    rewrite (bind_ret_eq _ _ _ _ _ (conf_eq P tim c w1 Hc)).
    erewrite (bind_ret_eq (irq_loop _ _ _ _ _)).
    2:{ eapply irq_loop_idle; [exact Hc | exact Hd1 |].
        intros j Hj. split; [lia | apply Hnone; lia]. }
    reflexivity. }
  assert (Hnone : forall j, 0 <= j < channels c -> upd ev chan 0 j <> 1).
  { intros j Hj. destruct (Z.eq_dec j chan) as [->|Hne].
    - rewrite upd_same. lia.
    - rewrite upd_other by exact Hne. apply Hothers; assumption. }
  split.
  - intros value.
    pose proof (timer_set_absolute_eq P w tim c x chan value run cnt pw sh ie md bm ps cc ev
                  Hin Hfit Hchan) as E1.
    eexists _, _, [_], []. split; [exact E1|].
    cbn [mach trace]. split; [reflexivity|].
    split; [eapply Hrun; [cbn [mach periph]; apply lookup_insert_eq | exact Hnone]|].
    cbn [mach trace]. split; [reflexivity|]. rewrite <- app_assoc. reflexivity.
  - intros value tflags.
    pose proof (timer_set_periodic_eq P w tim c x chan value tflags
                  run cnt pw sh ie md bm ps cc ev Hin Hfit Hchan) as E1.
    cbv zeta in E1.
    match type of E1 with _ = Ret 0 ?w => set (w1 := w) in * end.
    exists w1, (mk_world (mach w1)
                  ((trace w1 ++ idle_reads (conf_dev c) (Z.to_nat (channels c)) 0)
                   ++ [IsrEnd])),
      (MmioWrite (conf_dev c) TASKS_STOP 1
       :: [MmioWrite (conf_dev c) (CC chan) value]
          ++ (if negb (Z.land tflags (TIM_FLAG_RESET_ON_MATCH P) =? 0)
              then [MmioRead (conf_dev c) SHORTS;
                    MmioWrite (conf_dev c) SHORTS (u32 (Z.lor sh (Z.shiftl 1 chan)))]
              else [])
          ++ (if negb (Z.land tflags (TIM_FLAG_RESET_ON_SET P) =? 0)
              then [MmioWrite (conf_dev c) TASKS_CLEAR 1] else [])),
      (if Z.land tflags (TIM_FLAG_SET_STOPPED P) =? 0
       then [MmioWrite (conf_dev c) TASKS_START 1] else []).
    split; [exact E1|]. split.
    { unfold w1. cbn [trace].
      generalize (if negb (Z.land tflags (TIM_FLAG_RESET_ON_MATCH P) =? 0)
                  then [MmioRead (conf_dev c) SHORTS;
                        MmioWrite (conf_dev c) SHORTS (u32 (Z.lor sh (Z.shiftl 1 chan)))]
                  else []) as l1.
      generalize (if negb (Z.land tflags (TIM_FLAG_RESET_ON_SET P) =? 0)
                  then [MmioWrite (conf_dev c) TASKS_CLEAR 1] else []) as l2.
      generalize (if Z.land tflags (TIM_FLAG_SET_STOPPED P) =? 0
                  then [MmioWrite (conf_dev c) TASKS_START 1] else []) as l3.
      intros l3 l2 l1. f_equal. cbn [app]. f_equal. f_equal.
      rewrite <- !app_assoc. reflexivity. }
    split; [eapply Hrun; [unfold w1; cbn [mach periph]; apply lookup_insert_eq
                         | exact Hnone]|].
    cbn [mach trace]. split; [reflexivity|]. rewrite <- app_assoc. reflexivity.
Qed.

(** ** The flags of periodic arming *)

(** X14. [timer_set_periodic] programs the compare value and treats the
    other two flags independently: with TIM_FLAG_RESET_ON_MATCH the
    compare-clear short of the channel is set, without it the shorts are
    not written (a short set earlier stays set); with TIM_FLAG_RESET_ON_SET
    the counter is cleared, without it the counter is kept. No short of
    another channel changes. [timer_set_absolute] never writes the shorts;
    only [timer_clear] clears the short of a channel. *)
Theorem periodic_flags (P : platform) (w : world) (tim : nat)
    (c : timer_conf_t) (x : tim_ctx_t) (d : NRF_TIMER_Type) (chan value tflags : Z) :
  inst_at P w tim c x d -> conf_fits P c -> 0 <= chan < channels c ->
  (exists w1 d1,
     timer_set_periodic P tim chan value tflags w = Ret 0 w1 /\
     periph (mach w1) !! conf_dev c = Some d1 /\
     hw_cc d1 chan = value /\ hw_events d1 chan = 0 /\
     Z.testbit (hw_shorts d1) chan
     = Z.testbit (hw_shorts d) chan
       || negb (Z.land tflags (TIM_FLAG_RESET_ON_MATCH P) =? 0) /\
     (Z.land tflags (TIM_FLAG_RESET_ON_MATCH P) = 0 -> hw_shorts d1 = hw_shorts d) /\
     (forall i, 0 <= i < 32 -> i <> chan ->
                Z.testbit (hw_shorts d1) i = Z.testbit (hw_shorts d) i) /\
     hw_counter d1
     = (if Z.land tflags (TIM_FLAG_RESET_ON_SET P) =? 0 then hw_counter d else 0)) /\
  (exists w1 d1,
     timer_set_absolute P tim chan value w = Ret 0 w1 /\
     periph (mach w1) !! conf_dev c = Some d1 /\
     hw_cc d1 chan = value /\ hw_events d1 chan = 0 /\
     hw_shorts d1 = hw_shorts d /\ hw_counter d1 = hw_counter d /\
     hw_running d1 = hw_running d).
Proof.
  intros Hin Hfit Hchan. destruct d as [run cnt pw sh ie md bm ps cc ev].
  pose proof Hfit as (Hfit1 & Hnum). split.
  - pose proof (timer_set_periodic_eq P w tim c x chan value tflags
                  run cnt pw sh ie md bm ps cc ev Hin Hfit Hchan) as E.
    cbv zeta in E. eexists _, _. split; [exact E|]. cbn [mach periph].
    split; [apply lookup_insert_eq|].
    cbn [hw_cc hw_events hw_shorts hw_counter].
    split; [apply upd_same|]. split; [apply upd_same|].
    split; [|split; [|split]].
    + destruct (Z.land tflags (TIM_FLAG_RESET_ON_MATCH P) =? 0); cbn [negb].
      * symmetry. apply orb_false_r.
      * rewrite testbit_u32, Z.lor_spec, testbit_shl1, Z.eqb_refl by lia.
        rewrite !orb_true_r. reflexivity.
    + intros H0. rewrite H0. reflexivity.
    + intros i Hi Hne.
      destruct (Z.land tflags (TIM_FLAG_RESET_ON_MATCH P) =? 0); cbn [negb];
        [reflexivity|].
      rewrite testbit_u32, Z.lor_spec, testbit_shl1 by lia.
      replace (chan =? i) with false by (symmetry; apply Z.eqb_neq; lia).
      apply orb_false_r.
    + destruct (Z.land tflags (TIM_FLAG_RESET_ON_SET P) =? 0); reflexivity.
  - pose proof (timer_set_absolute_eq P w tim c x chan value run cnt pw sh ie md bm ps cc ev
                  Hin Hfit Hchan) as E.
    eexists _, _. split; [exact E|]. cbn [mach periph].
    split; [apply lookup_insert_eq|].
    cbn [hw_cc hw_events hw_shorts hw_counter hw_running].
    split; [apply upd_same|]. split; [apply upd_same|]. repeat split.
Qed.

(** ** An instance without a callback *)

Section NullCallback.
Variable P : platform.
Variable cb_run : Z -> Z -> Z -> machine -> machine.

(** The step of the handler on an armed channel with a pending event, the
    stored callback pointer being null: the call of line 215 is a call
    through a null pointer, one-shot or periodic. *)
Lemma irq_chan_null w num c x i run cnt pw sh ie md bm ps cc ev :
  inst_at P w num c x (mk_timer run cnt pw sh ie md bm ps cc ev) ->
  0 <= i < CC_NUM P -> CC_NUM P <= 8 ->
  ev i = 1 -> armed x i = true -> cb x = 0 ->
  irq_chan P cb_run num i w = Undef NullCall.
Proof.
  intros (Hc & Hx & Hd) Hi Hnum Hev Harm Hcb.
  unfold irq_chan. do 2 run1.
  rewrite Hev, Z.eqb_refl. do 3 run1.
  rewrite armed_test, Harm by lia. do 2 run1.
  rewrite periodic_test by lia.
  destruct (periodic x i); cbn [negb]; repeat run1;
    unfold set_flags; cbn [cb arg]; rewrite Hcb; reflexivity.
Qed.

Lemma irq_loop_null num c x chan (n : nat) : forall i w d,
  timer_config P !! num = Some c -> CC_NUM P <= 8 ->
  ctx (mach w) !! num = Some x -> periph (mach w) !! conf_dev c = Some d ->
  cb x = 0 -> armed x chan = true -> hw_events d chan = 1 ->
  0 <= i <= chan -> chan < i + Z.of_nat n -> i + Z.of_nat n <= CC_NUM P ->
  irq_loop P cb_run num n i w = Undef NullCall.
Proof.
  induction n as [|n IH]; intros i w d Hc Hnum Hx Hd Hcb Harm Hev Hi Hn Hle; [lia|].
  cbn [irq_loop]. destruct d as [run cnt pw sh ie md bm ps cc ev].
  cbn [hw_events] in Hev.
  destruct (Z.eq_dec i chan) as [->|Hne].
  - apply bind_undef_eq.
    exact (irq_chan_null w num c x chan run cnt pw sh ie md bm ps cc ev
             (conj Hc (conj Hx Hd)) ltac:(lia) Hnum Hev Harm Hcb).
  - destruct (Z.eq_dec (ev i) 1) as [Hevi|Hevi].
    + destruct (armed x i) eqn:Harmi.
      * apply bind_undef_eq.
        exact (irq_chan_null w num c x i run cnt pw sh ie md bm ps cc ev
                 (conj Hc (conj Hx Hd)) ltac:(lia) Hnum Hevi Harmi Hcb).
      * rewrite (bind_ret_eq _ _ _ _ _
                   (irq_chan_stale P cb_run w num c x i run cnt pw sh ie md bm ps cc ev
                      (conj Hc (conj Hx Hd)) ltac:(lia) Hnum Hevi Harmi)).
        eapply IH; cbn [mach ctx periph];
          [exact Hc | exact Hnum | exact Hx | apply lookup_insert_eq | exact Hcb
          | exact Harm | cbn [hw_events]; rewrite upd_other by lia; exact Hev
          | lia | lia | lia].
    + rewrite (bind_ret_eq _ _ _ _ _
                 (irq_chan_idle P cb_run w num c _ i Hc Hd ltac:(lia) Hevi)).
      eapply IH; cbn [mach ctx periph];
        [exact Hc | exact Hnum | exact Hx | exact Hd | exact Hcb
        | exact Harm | exact Hev | lia | lia | lia].
Qed.

End NullCallback.

(** X15. An instance that [timer_init] has not given a callback has a null
    pointer in its context entry, and the handler calls it all the same: a
    run of the handler that finds a match pending on an armed channel of such
    an instance, one-shot or periodic, ends in a call through a null
    pointer. The channel functions do not look at the pointer, so a channel
    can be armed in that state. *)
Theorem null_callback_call (P : platform)
    (cb_run : Z -> Z -> Z -> machine -> machine) (w : world) (tim : nat)
    (c : timer_conf_t) (x : tim_ctx_t) (d : NRF_TIMER_Type) (chan : Z) :
  inst_at P w tim c x d -> conf_fits P c -> 0 <= chan < channels c ->
  hw_events d chan = 1 -> armed x chan = true -> cb x = 0 ->
  irq_chan P cb_run tim chan w = Undef NullCall /\
  irq_handler P cb_run tim w = Undef NullCall.
Proof.
  intros (Hc & Hx & Hd) (Hfit1 & Hnum) Hchan Hev Harm Hcb. split.
  - destruct d as [run cnt pw sh ie md bm ps cc ev]. cbn [hw_events] in Hev.
    exact (irq_chan_null P cb_run w tim c x chan run cnt pw sh ie md bm ps cc ev
             (conj Hc (conj Hx Hd)) ltac:(lia) ltac:(lia) Hev Harm Hcb).
  - unfold irq_handler. rewrite (bind_ret_eq _ _ _ _ _ (conf_eq P tim c w Hc)).
    apply bind_undef_eq.
    eapply (irq_loop_null P cb_run tim c x chan); eauto; lia.
Qed.

(** * The concrete board again *)

Lemma at_timer0 (w : world) (x : tim_ctx_t) :
  ctx (mach w) !! 0%nat = Some x ->
  is_Some (periph (mach w) !! conf_dev nrf52_timer0) ->
  inst_at nrf52 w 0 nrf52_timer0 x
    (default timer_reset (periph (mach w) !! conf_dev nrf52_timer0)).
Proof.
  intros Hx [d Hd]. split; [reflexivity|]. split; [exact Hx|].
  rewrite Hd. reflexivity.
Qed.

Lemma chan1_valid : 0 <= 1 < channels nrf52_timer0.
Proof. cbn. lia. Qed.

Lemma cb_none_quiet f a i :
  forall m, ctx (cb_none f a i m) = ctx m /\ periph (cb_none f a i m) = periph m.
Proof. intros m. split; reflexivity. Qed.

Lemma stop_then_start_witness :
  exists w1 w2,
    timer_stop nrf52 0 (boot nrf52) = Ret tt w1 /\
    timer_start nrf52 0 w1 = Ret tt w2 /\
    trace w2 = [MmioWrite (conf_dev nrf52_timer0) TASKS_SHUTDOWN 1;
                MmioWrite (conf_dev nrf52_timer0) TASKS_START 1] /\
    ctx (mach w2) = ctx (mach (boot nrf52)).
Proof.
  pose proof (stop_then_start nrf52 (boot nrf52) 0 nrf52_timer0 (mk_ctx 0 0 0 0)
                timer_reset boot_inst) as H.
  cbv zeta in H.
  destruct H as (w1 & w2 & d1 & d2 & H1 & H2 & _ & _ & _ & H3 & H4 & _ & _ & H5 & _).
  exists w1, w2. split; [exact H1|]. split; [exact H3|].
  split; [rewrite H4, H2; reflexivity | exact H5].
Defined.

Lemma timer_read_captures_witness :
  (exists w', timer_read nrf52 0 (boot nrf52) = Ret 0 w') /\
  timer_read overfull 0 (boot overfull) = Undef OutOfBounds.
Proof.
  split.
  - destruct (timer_read_captures nrf52 (boot nrf52) 0 nrf52_timer0 (mk_ctx 0 0 0 0)
                timer_reset boot_inst ltac:(cbn; lia)) as [Hok _].
    destruct (Hok ltac:(cbn; lia)) as (w' & d' & H1 & _).
    exists w'. exact H1.
  - assert (Hin : inst_at overfull (boot overfull) 0 overfull_timer0 (mk_ctx 0 0 0 0)
                    timer_reset) by (repeat split; reflexivity).
    destruct (timer_read_captures overfull (boot overfull) 0 overfull_timer0
                (mk_ctx 0 0 0 0) timer_reset Hin ltac:(cbn; lia)) as [_ Hoob].
    exact (Hoob ltac:(cbn; lia)).
Defined.

Lemma timer_init_refused_witness :
  exists w' d',
    timer_init nrf52 0 1500000 5 6 (boot nrf52) = Ret (-1) w' /\
    ctx (mach w') !! 0%nat = Some (mk_ctx 5 6 0 0) /\
    periph (mach w') !! conf_dev nrf52_timer0 = Some d' /\
    hw_running d' = false.
Proof.
  destruct (timer_init_refused nrf52 (boot nrf52) 0 nrf52_timer0 (mk_ctx 0 0 0 0)
              timer_reset 1500000 5 6 boot_inst F_TIMER_1500000)
    as (w' & d' & H1 & H2 & H3 & H4 & _).
  exists w', d'. repeat split; assumption.
Defined.

Lemma timer_init_leaves_channels_witness :
  exists w' d',
    timer_init nrf52 0 1000000 5 6 armed_world = Ret 0 w' /\
    periph (mach w') !! conf_dev nrf52_timer0 = Some d' /\
    hw_running d' = true /\ hw_inten d' = 2 ^ 17 /\ hw_cc d' 1 = 50.
Proof.
  assert (Hin := at_timer0 armed_world (mk_ctx 0 0 2 0) eq_refl
                   ltac:(eexists; vm_compute; reflexivity)).
  destruct (timer_init_leaves_channels nrf52 armed_world 0 nrf52_timer0 _ _
              1000000 5 6 4 Hin ltac:(cbn; lia) ltac:(lia) eq_refl F_TIMER_4)
    as (w' & d' & H1 & H2 & H3 & _ & _ & H4 & _ & H5 & _).
  exists w', d'. split; [exact H1|]. split; [exact H2|]. split; [exact H3|].
  split; [rewrite H4 | rewrite H5]; vm_compute; reflexivity.
Defined.

Lemma reinit_keeps_channel_armed_witness :
  exists w1 w3 evs,
    timer_init nrf52 0 1000000 5 6 armed_world = Ret 0 w1 /\
    irq_handler nrf52 cb_none 0 (world_match (conf_dev nrf52_timer0) 1 w1) = Ret tt w3 /\
    trace w3 = trace w1 ++ evs /\
    List.filter is_callback evs = [Callback 5 6 1].
Proof.
  assert (Hin := at_timer0 armed_world (mk_ctx 0 0 2 0) eq_refl
                   ltac:(eexists; vm_compute; reflexivity)).
  destruct (reinit_keeps_channel_armed nrf52 cb_none armed_world 0 nrf52_timer0 _ _
              1 1000000 5 6 4 Hin nrf52_fits chan1_valid eq_refl eq_refl
              ltac:(lia) eq_refl F_TIMER_4 ltac:(lia)
              ltac:(intros j Hj; cbn in Hj; lia) (cb_none_quiet 5 6 1))
    as (w1 & w3 & evs & x3 & H1 & H2 & H3 & H4 & _).
  exists w1, w3, evs. repeat split; assumption.
Defined.

Lemma two_fired_run :
  irq_handler nrf52 (cb_rearm nrf52) 0 ready_two_fired_world
  = Ret tt (after (irq_handler nrf52 (cb_rearm nrf52) 0) ready_two_fired_world).
Proof. vm_compute. reflexivity. Qed.

Lemma two_fired_inst :
  inst_at nrf52 ready_two_fired_world 0 nrf52_timer0 (mk_ctx 7 8 5 0)
    (default timer_reset (periph (mach ready_two_fired_world) !! conf_dev nrf52_timer0)).
Proof.
  apply at_timer0; [vm_compute; reflexivity | vm_compute; eexists; reflexivity].
Qed.

Lemma cb_none_callable tim :
  forall f b i m, callable tim m -> callable tim (cb_none f b i m).
Proof. intros f b i m H. exact H. Qed.

Lemma handler_callbacks_in_order_witness :
  callback_chans (trace (after (irq_handler nrf52 (cb_rearm nrf52) 0) ready_two_fired_world))
  = [0; 2] /\
  List.filter is_callback
    (trace (after (irq_handler nrf52 (cb_rearm nrf52) 0) ready_two_fired_world))
  = [Callback 7 8 0; Callback 7 8 2] /\
  exists evs,
    trace (after (irq_handler nrf52 (cb_rearm nrf52) 0) ready_two_fired_world)
    = trace ready_two_fired_world ++ evs ++ [IsrEnd] /\
    increasing_from 0 (callback_chans evs) /\
    Forall (fun j => j < channels nrf52_timer0) (callback_chans evs).
Proof.
  split; [vm_compute; reflexivity|].
  split; [vm_compute; reflexivity|].
  exact (handler_callbacks_in_order nrf52 (cb_rearm nrf52) 0 nrf52_timer0
           ready_two_fired_world _ eq_refl ltac:(cbn; lia) two_fired_run).
Defined.

Lemma isr_accesses_witness :
  exists w' evs,
    TIMER_0_ISR nrf52 cb_none ready_two_fired_world = Ret tt w' /\
    List.filter is_callback (trace w') = [Callback 7 8 0; Callback 7 8 2] /\
    trace w' = trace ready_two_fired_world ++ evs ++ [IsrEnd] /\
    Forall (loop_event (conf_dev nrf52_timer0)) evs.
Proof.
  assert (Hrun : TIMER_0_ISR nrf52 cb_none ready_two_fired_world
                 = Ret tt (after (TIMER_0_ISR nrf52 cb_none) ready_two_fired_world))
    by (vm_compute; reflexivity).
  pose proof (isr_accesses nrf52 cb_none ready_two_fired_world
                (after (TIMER_0_ISR nrf52 cb_none) ready_two_fired_world)) as H.
  cbv zeta in H. destruct H as (H0 & _).
  destruct (H0 nrf52_timer0 eq_refl Hrun) as (evs & H1 & H2).
  eexists _, evs. split; [exact Hrun|].
  split; [vm_compute; reflexivity|]. split; assumption.
Defined.

Lemma handler_drains_events_witness :
  exists w' d',
    irq_handler nrf52 cb_none 0 ready_two_fired_world = Ret tt w' /\
    periph (mach w') !! conf_dev nrf52_timer0 = Some d' /\
    hw_events d' 0 <> 1 /\ hw_events d' 1 <> 1 /\ hw_events d' 2 <> 1 /\
    hw_cc d' 0 = 60 /\ hw_cc d' 2 = 70.
Proof.
  destruct (handler_drains_events nrf52 cb_none ready_two_fired_world 0 nrf52_timer0 _ _
              two_fired_inst ltac:(cbn; lia) ltac:(cbn; lia) ltac:(cbn; lia)
              ltac:(intros; reflexivity) ltac:(intros f b i m H; exact H)
              (cb_none_callable 0))
    as (w' & d' & H1 & H2 & H3 & _ & _ & (_ & _ & _ & _ & _ & _ & _ & H4) & _).
  exists w', d'. split; [exact H1|]. split; [exact H2|].
  split; [apply H3; cbn; lia|]. split; [apply H3; cbn; lia|].
  split; [apply H3; cbn; lia|].
  rewrite H4. split; vm_compute; reflexivity.
Defined.

Lemma periodic_fires_every_match_witness :
  exists w1 w3 evs x3,
    timer_set_periodic nrf52 0 0 100 2 ready_world = Ret 0 w1 /\
    match_rounds nrf52 cb_none 0 (conf_dev nrf52_timer0) 0 3 w1 = Ret tt w3 /\
    trace w3 = trace w1 ++ evs /\
    List.filter is_callback evs = [Callback 7 8 0; Callback 7 8 0; Callback 7 8 0] /\
    ctx (mach w3) !! 0%nat = Some x3 /\
    armed x3 0 = true /\ periodic x3 0 = true.
Proof.
  destruct (periodic_fires_every_match nrf52 cb_none ready_world 0 nrf52_timer0
              (mk_ctx 7 8 0 0) _ 0 100 2
              (conj eq_refl (conj ready_ctx ready_dev)) nrf52_fits
              ltac:(cbn; lia) ltac:(cbn; lia)
              (fun j _ _ => ready_no_event j) (cb_none_quiet 7 8 0))
    as (w1 & H1 & Hk).
  destruct (Hk 3%nat) as (w3 & evs & x3 & H2 & H3 & H4 & H5 & H6 & H7).
  exists w1, w3, evs, x3. repeat split; assumption.
Defined.

Lemma other_instances_untouched_witness :
  exists w',
    timer_set_periodic nrf52 0 1 100 2 (boot nrf52) = Ret 0 w' /\
    ctx (mach w') !! 1%nat = Some (mk_ctx 0 0 0 0) /\
    periph (mach w') !! 0x40009000 = Some timer_reset.
Proof.
  assert (Hrun : timer_set_periodic nrf52 0 1 100 2 (boot nrf52)
                 = Ret 0 (after (timer_set_periodic nrf52 0 1 100 2) (boot nrf52)))
    by (vm_compute; reflexivity).
  pose proof (other_instances_untouched nrf52 0 nrf52_timer0 (boot nrf52) eq_refl) as H.
  cbv zeta in H. destruct H as (_ & _ & Hp & _).
  destruct (Hp 1 100 2 0 _ Hrun) as [Hctx Hper].
  eexists. split; [exact Hrun|]. split.
  - rewrite (Hctx 1%nat ltac:(lia)). reflexivity.
  - rewrite (Hper 0x40009000 ltac:(cbn; lia)). reflexivity.
Defined.

Lemma other_channels_untouched_witness :
  exists w' x',
    timer_clear nrf52 0 0 two_fired_world = Ret 0 w' /\
    ctx (mach w') !! 0%nat = Some x' /\
    armed x' 2 = true /\ armed x' 0 = false.
Proof.
  assert (Hin := at_timer0 two_fired_world (mk_ctx 0 0 5 0) eq_refl
                   ltac:(eexists; vm_compute; reflexivity)).
  pose proof (other_channels_untouched nrf52 two_fired_world 0 nrf52_timer0 _ _ 0 Hin
                nrf52_fits ltac:(cbn; lia)) as H.
  cbv zeta in H. destruct H as (_ & _ & w' & x' & d' & H1 & H2 & _ & H3).
  destruct (H3 2 ltac:(lia) ltac:(lia)) as (H4 & _).
  exists w', x'. split; [exact H1|]. split; [exact H2|].
  split; [rewrite H4; reflexivity|].
  assert (E : timer_clear nrf52 0 0 two_fired_world
              = Ret 0 (after (timer_clear nrf52 0 0) two_fired_world))
    by (vm_compute; reflexivity).
  rewrite E in H1. injection H1 as <-.
  assert (Ex : ctx (mach (after (timer_clear nrf52 0 0) two_fired_world)) !! 0%nat
               = Some (mk_ctx 0 0 4 0)) by (vm_compute; reflexivity).
  rewrite Ex in H2. injection H2 as <-. reflexivity.
Defined.

Lemma arm_then_clear_witness :
  exists w1 w2,
    timer_set_periodic nrf52 0 1 100 2 (boot nrf52) = Ret 0 w1 /\
    timer_clear nrf52 0 1 w1 = Ret 0 w2 /\
    ctx (mach w2) = ctx (mach (boot nrf52)).
Proof.
  pose proof (arm_then_clear nrf52 (boot nrf52) 0 nrf52_timer0 (mk_ctx 0 0 0 0)
                timer_reset 1 boot_inst nrf52_fits chan1_valid zero_ctx_u8
                eq_refl eq_refl) as H.
  cbv zeta in H. destruct H as (_ & Hp).
  destruct (Hp 100 2) as (w1 & w2 & d2 & H1 & H2 & H3 & _).
  exists w1, w2. repeat split; assumption.
Defined.

Lemma stale_match_discarded_witness :
  hw_events (default timer_reset (periph (mach stale_world) !! conf_dev nrf52_timer0)) 1
  = 1 /\
  exists w1 w2,
    timer_set_absolute nrf52 0 1 50 stale_world = Ret 0 w1 /\
    irq_handler nrf52 (cb_rearm nrf52) 0 w1 = Ret tt w2 /\
    mach w2 = mach w1 /\
    callback_chans (idle_reads (conf_dev nrf52_timer0)
                      (Z.to_nat (channels nrf52_timer0)) 0) = [] /\
    trace w2 = trace w1 ++ idle_reads (conf_dev nrf52_timer0)
                             (Z.to_nat (channels nrf52_timer0)) 0 ++ [IsrEnd].
Proof.
  split; [vm_compute; reflexivity|].
  assert (Hin := at_timer0 stale_world (mk_ctx 0 0 0 0) eq_refl
                   ltac:(eexists; vm_compute; reflexivity)).
  assert (Hothers : forall j, 0 <= j < channels nrf52_timer0 -> j <> 1 ->
            hw_events (default timer_reset
                         (periph (mach stale_world) !! conf_dev nrf52_timer0)) j <> 1).
  { intros j Hj Hne. change (channels nrf52_timer0) with 3 in Hj.
    assert (Hc : j = 0 \/ j = 2) by lia.
    destruct Hc as [-> | ->]; vm_compute; discriminate. }
  pose proof (stale_match_discarded nrf52 (cb_rearm nrf52) stale_world 0 nrf52_timer0 _ _ 1
                Hin nrf52_fits chan1_valid Hothers) as H.
  cbv zeta in H. destruct H as (Ha & _).
  destruct (Ha 50) as (w1 & w2 & pre & post & H1 & _ & H2 & H3 & H4).
  exists w1, w2. split; [exact H1|]. split; [exact H2|]. split; [exact H3|].
  split; [reflexivity | exact H4].
Defined.

Lemma periodic_flags_witness :
  exists w1 d1,
    timer_set_periodic nrf52 0 1 100 3 (boot nrf52) = Ret 0 w1 /\
    periph (mach w1) !! conf_dev nrf52_timer0 = Some d1 /\
    hw_cc d1 1 = 100 /\ Z.testbit (hw_shorts d1) 1 = true /\ hw_counter d1 = 0.
Proof.
  destruct (periodic_flags nrf52 (boot nrf52) 0 nrf52_timer0 (mk_ctx 0 0 0 0)
              timer_reset 1 100 3 boot_inst nrf52_fits chan1_valid)
    as ((w1 & d1 & H1 & H2 & H3 & _ & H4 & _ & _ & H5) & _).
  exists w1, d1. split; [exact H1|]. split; [exact H2|]. split; [exact H3|].
  split; [rewrite H4 | rewrite H5]; reflexivity.
Defined.

Lemma null_callback_call_witness :
  timer_set_absolute nrf52 0 1 50 (boot nrf52) = Ret 0 armed_world /\
  irq_handler nrf52 cb_none 0 fired_world = Undef NullCall.
Proof.
  split; [vm_compute; reflexivity|].
  assert (Hin := at_timer0 fired_world (mk_ctx 0 0 2 0) eq_refl
                   ltac:(eexists; vm_compute; reflexivity)).
  exact (proj2 (null_callback_call nrf52 cb_none fired_world 0 nrf52_timer0 _ _ 1
                  Hin nrf52_fits chan1_valid
                  ltac:(vm_compute; reflexivity) ltac:(vm_compute; reflexivity) eq_refl)).
Defined.
